(** * Vehicle damage detector: a shallow embedding of the processing core

    The development follows the Python sources of the repository:

    - [domain/entities/damage.py], [video.py], [detection_result.py]
      (data model and the validation run by the dataclass constructors);
    - [infrastructure/ml/yolo_damage_detector.py]
      (severity classification, per-frame detection, the video-level
      aggregation loop);
    - [infrastructure/repositories/json_video_repository.py]
      (the persisted record of a video and its reading back);
    - [domain/use_cases/process_video_use_case.py] (the orchestrator);
    - [application/services/video_processing_app_service.py]
      (admission control, batch submission, orphan clean-up).

    Conventions.  A Python [float] is modelled by a rational ([Q]): the
    properties below are about comparisons against thresholds and about the
    shape of the arithmetic, not about rounding.  A Python [int] is a [Z].
    Code that may raise returns a [result]; the exception carries its Python
    class and its message.  A [dict] is a [gmap]. *)

From Stdlib Require Import Ascii String QArith Qround Lqa.
From stdpp Require Import base option list gmap strings fin_maps pretty.

Set Default Proof Using "Type".
Local Open Scope string_scope.
Local Open Scope Z_scope.

(** ** Exceptions and fallible computations *)

(** The classes of exception the modelled code raises or catches.  All of
    them derive from Python's [Exception], so [except Exception] catches
    every value of type [exn]. *)
Inductive exn_class :=
  | AttributeError
  | TypeError
  | ValueError
  | KeyError
  | FileNotFoundError
  | RuntimeError
  | OSError.

Record exn := Exn { exn_cls : exn_class; exn_msg : string }.

Inductive result (A : Type) :=
  | Ok (a : A)
  | Raise (e : exn).
Arguments Ok {A} a.
Arguments Raise {A} e.

#[global] Instance result_ret : MRet result := fun A a => Ok a.
#[global] Instance result_bind : MBind result := fun A B k r =>
  match r with
  | Ok a => k a
  | Raise e => Raise e
  end.

#[global] Instance result_fmap : FMap result := fun A B f r =>
  match r with
  | Ok a => Ok (f a)
  | Raise e => Raise e
  end.

Definition is_ok {A} (r : result A) : bool :=
  match r with Ok _ => true | Raise _ => false end.

#[global] Instance exn_class_eq_dec : EqDecision exn_class.
Proof. solve_decision. Defined.
#[global] Instance exn_eq_dec : EqDecision exn.
Proof. solve_decision. Defined.

(** Strict comparison of rationals. *)
Definition Qlt_bool (a b : Q) : bool := negb (Qle_bool b a).

(** ** Library interface: [datetime]

    The sources only build datetimes with [datetime.now()], print them with
    [isoformat()] and read them back with [datetime.fromisoformat].  The
    interface records the two facts of the standard library the code relies
    on: reading back what was printed gives the same datetime, and a printed
    datetime is a non-empty string (so it is truthy in [if data.get(..)]). *)
Class DatetimeLib := {
  datetime : Type;
  datetime_eq_dec :: EqDecision datetime;
  isoformat : datetime -> string;
  fromisoformat : string -> result datetime;
  fromisoformat_isoformat : forall d, fromisoformat (isoformat d) = Ok d;
  isoformat_nonempty : forall d, isoformat d <> "";
}.

(** A small instance, used to run the definitions on concrete inputs: a
    datetime is a number of seconds, printed as ["T"] followed by that many
    ticks. *)
Fixpoint ticks (n : nat) : string :=
  match n with
  | O => ""
  | S n => String "I"%char (ticks n)
  end.

Fixpoint count_ticks (s : string) : option nat :=
  match s with
  | "" => Some O
  | String "I"%char s => S <$> count_ticks s
  | String _ _ => None
  end.

Definition tick_isoformat (n : nat) : string := String "T"%char (ticks n).

Definition tick_fromisoformat (s : string) : result nat :=
  match s with
  | String "T"%char r =>
      match count_ticks r with
      | Some n => Ok n
      | None => Raise (Exn ValueError "Invalid isoformat string")
      end
  | _ => Raise (Exn ValueError "Invalid isoformat string")
  end.

#[global, refine] Instance tick_datetime : DatetimeLib := {|
  datetime := nat;
  isoformat := tick_isoformat;
  fromisoformat := tick_fromisoformat;
|}.
Proof.
  - intros d. unfold tick_fromisoformat, tick_isoformat.
    assert (count_ticks (ticks d) = Some d) as ->; [|done].
    induction d as [|d IH]; simpl; [done | by rewrite IH].
  - intros d. discriminate.
Defined.

(** ** Domain entities: [damage.py] *)

Inductive DamageType := SCRATCH | DENT | CRACK | RUST | BROKEN_PART | UNKNOWN.

(** [DamageSeverity] has exactly these four members. *)
Inductive DamageSeverity := LOW | MEDIUM | HIGH | CRITICAL.

#[global] Instance DamageType_eq_dec : EqDecision DamageType.
Proof. solve_decision. Defined.
#[global] Instance DamageSeverity_eq_dec : EqDecision DamageSeverity.
Proof. solve_decision. Defined.

(** [.value] of the two enumerations. *)
Definition DamageType_value (t : DamageType) : string :=
  match t with
  | SCRATCH => "scratch" | DENT => "dent" | CRACK => "crack"
  | RUST => "rust" | BROKEN_PART => "broken_part" | UNKNOWN => "unknown"
  end.

Definition DamageSeverity_value (s : DamageSeverity) : string :=
  match s with
  | LOW => "low" | MEDIUM => "medium" | HIGH => "high" | CRITICAL => "critical"
  end.

(** Attribute access on the class, [DamageSeverity.<name>]: a name that is
    not a member raises [AttributeError]. *)
Definition DamageSeverity_attr (name : string) : result DamageSeverity :=
  if String.eqb name "LOW" then Ok LOW
  else if String.eqb name "MEDIUM" then Ok MEDIUM
  else if String.eqb name "HIGH" then Ok HIGH
  else if String.eqb name "CRITICAL" then Ok CRITICAL
  else Raise (Exn AttributeError name).

Record BoundingBox := mkBoundingBox {
  bb_x : Q;
  bb_y : Q;
  bb_width : Q;
  bb_height : Q;
}.

(** [BoundingBox.__post_init__].  The fields are [float]s read as
    rationals: the two guards compare numbers, and a NaN (for which both
    comparisons are false in Python) has no counterpart here. *)
Definition BoundingBox_post_init (b : BoundingBox) : result BoundingBox :=
  if Qlt_bool (bb_x b) 0 || Qlt_bool (bb_y b) 0 then
    Raise (Exn ValueError "Las coordenadas x e y deben ser positivas")
  else if Qle_bool (bb_width b) 0 || Qle_bool (bb_height b) 0 then
    Raise (Exn ValueError "El ancho y alto deben ser positivos")
  else Ok b.

(** The [area] property. *)
Definition area (b : BoundingBox) : Q := (bb_width b * bb_height b)%Q.

(** The [center] property. *)
Definition center (b : BoundingBox) : Q * Q :=
  ((bb_x b + bb_width b / 2)%Q, (bb_y b + bb_height b / 2)%Q).

(** The dataclass-generated [BoundingBox.__init__] called with keyword
    arguments only: a keyword that is not a field raises [TypeError] (before
    missing fields are looked at), then a missing field does, and at last
    [__post_init__] runs. *)
Definition BoundingBox_fields : list string := ["x"; "y"; "width"; "height"].

Fixpoint kwarg (name : string) (kwargs : list (string * Q)) : option Q :=
  match kwargs with
  | [] => None
  | (k, v) :: rest => if String.eqb k name then Some v else kwarg name rest
  end.

Definition unexpected_keyword (fields : list string) (kwargs : list (string * Q))
  : option string :=
  fst <$> List.find (fun kv => negb (existsb (String.eqb (fst kv)) fields)) kwargs.

Definition BoundingBox_init (kwargs : list (string * Q)) : result BoundingBox :=
  match unexpected_keyword BoundingBox_fields kwargs with
  | Some k =>
      Raise (Exn TypeError ("__init__() got an unexpected keyword argument " ++ k))
  | None =>
      match kwarg "x" kwargs, kwarg "y" kwargs,
            kwarg "width" kwargs, kwarg "height" kwargs with
      | Some x, Some y, Some w, Some h =>
          BoundingBox_post_init (mkBoundingBox x y w h)
      | _, _, _, _ =>
          Raise (Exn TypeError "__init__() missing required positional arguments")
      end
  end.

(** ** Paths

    A [Path] is kept in its textual form, so [str(path)] and [Path(text)]
    are the identity on it.  [suffix] follows [pathlib]: the last dot of the
    final component, unless it is the first or the last character of it. *)
Definition Path := string.

Fixpoint path_name (p : string) : string :=
  match p with
  | "" => ""
  | String c rest =>
      if existsb (Ascii.eqb "/"%char) (list_ascii_of_string rest) then path_name rest
      else if Ascii.eqb c "/"%char then rest
      else p
  end.

Fixpoint last_dot (s : string) : option string :=
  match s with
  | "" => None
  | String c rest =>
      match last_dot rest with
      | Some sfx => Some sfx
      | None => if Ascii.eqb c "."%char then Some s else None
      end
  end.

Definition suffix (p : Path) : string :=
  match path_name p with
  | "" => ""
  | String _ rest =>
      match last_dot rest with
      | Some sfx => if String.eqb sfx "." then "" else sfx
      | None => ""
      end
  end.

(** [str.lower()] on ASCII letters. *)
Definition lower_ascii (c : ascii) : ascii :=
  let n := nat_of_ascii c in
  if ((65 <=? n)%nat && (n <=? 90)%nat)%bool then ascii_of_nat (n + 32) else c.

Fixpoint lower (s : string) : string :=
  match s with
  | "" => ""
  | String c rest => String (lower_ascii c) (lower rest)
  end.

Definition str_in (s : string) (l : list string) : bool := existsb (String.eqb s) l.

(** [path.parent] and [path / name]. *)
Definition path_parent (p : Path) : Path :=
  match (String.length p - String.length (path_name p))%nat with
  | O => "."
  | S O => "/"
  | S n => substring 0 n p
  end.

Definition path_join (dir name : Path) : Path := dir ++ "/" ++ name.

(** ** Domain entities: [video.py] *)

Inductive VideoStatus := PENDING | PROCESSING | COMPLETED | FAILED | CANCELLED.

Inductive VideoFormat := MP4 | AVI | MOV | MKV | WMV | FLV | WEBM | UNKNOWN_FORMAT.

#[global] Instance VideoStatus_eq_dec : EqDecision VideoStatus.
Proof. solve_decision. Defined.
#[global] Instance VideoFormat_eq_dec : EqDecision VideoFormat.
Proof. solve_decision. Defined.

Definition VideoStatus_value (s : VideoStatus) : string :=
  match s with
  | PENDING => "pending" | PROCESSING => "processing" | COMPLETED => "completed"
  | FAILED => "failed" | CANCELLED => "cancelled"
  end.

(** [VideoStatus(token)]: look a member up by value. *)
Definition VideoStatus_of_value (token : string) : result VideoStatus :=
  if String.eqb token "pending" then Ok PENDING
  else if String.eqb token "processing" then Ok PROCESSING
  else if String.eqb token "completed" then Ok COMPLETED
  else if String.eqb token "failed" then Ok FAILED
  else if String.eqb token "cancelled" then Ok CANCELLED
  else Raise (Exn ValueError (token ++ " is not a valid VideoStatus")).

Definition VideoFormat_value (f : VideoFormat) : string :=
  match f with
  | MP4 => "mp4" | AVI => "avi" | MOV => "mov" | MKV => "mkv" | WMV => "wmv"
  | FLV => "flv" | WEBM => "webm" | UNKNOWN_FORMAT => "unknown"
  end.

Definition VideoFormat_of_value (token : string) : result VideoFormat :=
  if String.eqb token "mp4" then Ok MP4
  else if String.eqb token "avi" then Ok AVI
  else if String.eqb token "mov" then Ok MOV
  else if String.eqb token "mkv" then Ok MKV
  else if String.eqb token "wmv" then Ok WMV
  else if String.eqb token "flv" then Ok FLV
  else if String.eqb token "webm" then Ok WEBM
  else if String.eqb token "unknown" then Ok UNKNOWN_FORMAT
  else Raise (Exn ValueError (token ++ " is not a valid VideoFormat")).

Record VideoMetadata := mkVideoMetadata {
  md_duration : Q;
  md_fps : Q;
  md_width : Z;
  md_height : Z;
  md_frame_count : Z;
  md_format : VideoFormat;
  md_file_size : Z;
  md_codec : string;
  md_bitrate : Z;
}.

(** [VideoMetadata.__post_init__]. *)
Definition VideoMetadata_post_init (m : VideoMetadata) : result VideoMetadata :=
  if Qle_bool (md_duration m) 0 then
    Raise (Exn ValueError "La duracion debe ser positiva")
  else if Qle_bool (md_fps m) 0 then
    Raise (Exn ValueError "Los FPS deben ser positivos")
  else if (md_width m <=? 0) || (md_height m <=? 0) then
    Raise (Exn ValueError "Las dimensiones deben ser positivas")
  else if md_frame_count m <=? 0 then
    Raise (Exn ValueError "El total de frames debe ser positivo")
  else if md_file_size m <=? 0 then
    Raise (Exn ValueError "El tamano del archivo debe ser positivo")
  else Ok m.

Section Model.
Context `{DT : DatetimeLib}.

(** [Damage.timestamp] is declared a [datetime]; the detector stores a
    [float] there (seconds from the start of the video). *)
Inductive timestamp_value :=
  | FloatTs (t : Q)
  | DatetimeTs (d : datetime).

Record Damage := mkDamage {
  damage_id : string;
  damage_type : DamageType;
  severity : DamageSeverity;
  confidence : Q;
  bounding_box : BoundingBox;
  frame_number : Z;
  timestamp : timestamp_value;
  description : option string;
}.

(** [Damage.__post_init__]. *)
Definition Damage_post_init (d : Damage) : result Damage :=
  if negb (Qle_bool 0 (confidence d) && Qle_bool (confidence d) 1) then
    Raise (Exn ValueError "La confianza debe estar entre 0.0 y 1.0")
  else if frame_number d <? 0 then
    Raise (Exn ValueError "El numero de frame debe ser positivo")
  else Ok d.

Definition set_timestamp (t : timestamp_value) (d : Damage) : Damage :=
  mkDamage (damage_id d) (damage_type d) (severity d) (confidence d)
           (bounding_box d) (frame_number d) t (description d).

(** ** The detector: [yolo_damage_detector.py] *)

(** [self._severity_thresholds], a dict that is only read, with these four
    entries. *)
Definition area_small : Q := 1000.
Definition area_medium : Q := 5000.
Definition confidence_high : Q := 8 # 10.
Definition confidence_medium : Q := 6 # 10.

(** [self._class_mapping.get(class_id, DamageType.UNKNOWN)]. *)
Definition class_mapping (class_id : Z) : DamageType :=
  if class_id =? 0 then SCRATCH
  else if class_id =? 1 then DENT
  else if class_id =? 2 then CRACK
  else if class_id =? 3 then RUST
  else if class_id =? 4 then BROKEN_PART
  else UNKNOWN.

(** [_determine_severity].  The member names are the ones the source
    writes; each is looked up on the [DamageSeverity] class when its branch
    runs. *)
Definition _determine_severity (bounding_box : BoundingBox) (confidence : Q)
  : result DamageSeverity :=
  let area := area bounding_box in
  if Qle_bool confidence_high confidence then
    if Qle_bool area_medium area then DamageSeverity_attr "CRITICAL"
    else if Qle_bool area_small area then DamageSeverity_attr "SEVERE"
    else DamageSeverity_attr "MODERATE"
  else if Qle_bool confidence_medium confidence then
    if Qle_bool area_medium area then DamageSeverity_attr "SEVERE"
    else if Qle_bool area_small area then DamageSeverity_attr "MODERATE"
    else DamageSeverity_attr "MINOR"
  else
    if Qle_bool area_medium area then DamageSeverity_attr "MODERATE"
    else DamageSeverity_attr "MINOR".

(** What the model returns for a frame: a list of results, each with an
    optional list of boxes; a box gives a confidence, a class and corner
    coordinates. *)
Record yolo_box := mkBox {
  box_conf : Q;
  box_cls : Z;
  box_xyxy : Q * Q * Q * Q;
}.

Definition yolo_result := option (list yolo_box).

(** Encoded frame bytes and decoded images are opaque to the code. *)
Definition frame_bytes := string.
Definition ndarray := list Z.

(** The loaded model: called on a decoded frame with the confidence
    threshold, it returns results or raises. *)
Definition YOLO := ndarray -> Q -> result (list yolo_result).

Record YOLODamageDetector := mkDetector {
  _model : option YOLO;
  _confidence_threshold : Q;
  _model_version : string;
  (** [cv2.imdecode] on the frame bytes: it may raise, and it returns
      [None] for bytes that are not an image. *)
  imdecode : frame_bytes -> result (option ndarray);
  (** the supply of [uuid.uuid4()] strings *)
  uuid4 : nat -> string;
}.

(** [0.0 <= threshold <= 1.0]. *)
Definition threshold_in_range (threshold : Q) : bool :=
  Qle_bool 0 threshold && Qle_bool threshold 1.

(** [set_confidence_threshold]. *)
Definition set_confidence_threshold (self : YOLODamageDetector) (threshold : Q)
  : result YOLODamageDetector :=
  if negb (threshold_in_range threshold) then
    Raise (Exn ValueError "El umbral de confianza debe estar entre 0.0 y 1.0")
  else
    Ok (mkDetector (_model self) threshold (_model_version self)
                   (imdecode self) (uuid4 self)).

(** The body of the innermost loop of [detect_damages_in_frame]: one box
    becomes one [Damage]. *)
Definition damage_of_box (self : YOLODamageDetector) (frame_number : Z)
    (n : nat) (box : yolo_box) : result Damage :=
  let confidence := box_conf box in
  let class_id := box_cls box in
  let damage_type := class_mapping class_id in
  let '(x1, y1, x2, y2) := box_xyxy box in
  bounding_box ← BoundingBox_init [("x1", x1); ("y1", y1); ("x2", x2); ("y2", y2)];
  severity ← _determine_severity bounding_box confidence;
  Damage_post_init
    (mkDamage (uuid4 self n) damage_type severity confidence bounding_box
              frame_number (FloatTs 0) None).

(** The two nested loops: damages are appended in the order of the results
    and of their boxes; the first exception leaves the loops. *)
Fixpoint boxes_loop (self : YOLODamageDetector) (frame_number : Z)
    (boxes : list yolo_box) (damages : list Damage) : result (list Damage) :=
  match boxes with
  | [] => Ok damages
  | box :: boxes =>
      damage ← damage_of_box self frame_number (length damages) box;
      boxes_loop self frame_number boxes (damages ++ [damage])
  end.

Fixpoint results_loop (self : YOLODamageDetector) (frame_number : Z)
    (results : list yolo_result) (damages : list Damage) : result (list Damage) :=
  match results with
  | [] => Ok damages
  | None :: results => results_loop self frame_number results damages
  | Some boxes :: results =>
      damages ← boxes_loop self frame_number boxes damages;
      results_loop self frame_number results damages
  end.

(** The [try] block of [detect_damages_in_frame]. *)
Definition detect_damages_in_frame_try (self : YOLODamageDetector) (model : YOLO)
    (frame_data : frame_bytes) (frame_number : Z) : result (list Damage) :=
  frame ← imdecode self frame_data;
  match frame with
  | None => Ok []
  | Some frame =>
      results ← model frame (_confidence_threshold self);
      results_loop self frame_number results []
  end.

(** [detect_damages_in_frame]: the model check is outside the [try]; the
    handler [except Exception] logs and returns the empty list. *)
Definition detect_damages_in_frame (self : YOLODamageDetector)
    (frame_data : frame_bytes) (frame_number : Z) : result (list Damage) :=
  match _model self with
  | None => Raise (Exn RuntimeError "El modelo no esta cargado")
  | Some model =>
      match detect_damages_in_frame_try self model frame_data frame_number with
      | Ok damages => Ok damages
      | Raise e => Ok []
      end
  end.

(** ** [Video], [DetectionStatistics], [DetectionResult] *)

Record Video := mkVideo {
  v_id : string;
  v_file_path : Path;
  v_name : string;
  v_status : VideoStatus;
  v_created_at : datetime;
  v_metadata : option VideoMetadata;
  v_damages : list Damage;
  v_processed_at : option datetime;
  v_processing_time : option Q;
  v_error_message : option string;
  v_updated_at : option datetime;
}.

(** [Video.__post_init__], run by every construction of a [Video]; the
    file system is consulted ([exists_]).  The default [damages=None] has
    already been replaced by the empty list in [v_damages]. *)
Definition Video_post_init (exists_ : Path -> bool) (v : Video) : result Video :=
  if negb (exists_ (v_file_path v)) then
    Raise (Exn FileNotFoundError ("El archivo " ++ v_file_path v ++ " no existe"))
  else if negb (str_in (lower (suffix (v_file_path v))) [".mp4"; ".avi"; ".mov"; ".mkv"]) then
    Raise (Exn ValueError ("Formato de archivo no soportado: " ++ suffix (v_file_path v)))
  else Ok v.

Definition set_status (st : VideoStatus) (v : Video) : Video :=
  mkVideo (v_id v) (v_file_path v) (v_name v) st (v_created_at v) (v_metadata v)
          (v_damages v) (v_processed_at v) (v_processing_time v)
          (v_error_message v) (v_updated_at v).

Definition set_damages (ds : list Damage) (v : Video) : Video :=
  mkVideo (v_id v) (v_file_path v) (v_name v) (v_status v) (v_created_at v)
          (v_metadata v) ds (v_processed_at v) (v_processing_time v)
          (v_error_message v) (v_updated_at v).

Definition set_updated_at (t : option datetime) (v : Video) : Video :=
  mkVideo (v_id v) (v_file_path v) (v_name v) (v_status v) (v_created_at v)
          (v_metadata v) (v_damages v) (v_processed_at v) (v_processing_time v)
          (v_error_message v) t.

(** [Video.mark_as_failed]. *)
Definition mark_as_failed (now : datetime) (error_message : string) (v : Video) : Video :=
  mkVideo (v_id v) (v_file_path v) (v_name v) FAILED (v_created_at v)
          (v_metadata v) (v_damages v) (Some now) (v_processing_time v)
          (Some error_message) (v_updated_at v).

Record DetectionStatistics := mkStatistics {
  total_frames_processed : Z;
  total_damages_detected : Z;
  damages_by_type : gmap string Z;
  damages_by_severity : gmap string Z;
  average_confidence : Q;
  processing_time : Q;
  frames_per_second : Q;
}.

(** [DetectionStatistics.__post_init__]. *)
Definition DetectionStatistics_post_init (s : DetectionStatistics)
  : result DetectionStatistics :=
  if total_frames_processed s <? 0 then
    Raise (Exn ValueError "El total de frames procesados debe ser positivo")
  else if total_damages_detected s <? 0 then
    Raise (Exn ValueError "El total de danos detectados debe ser positivo")
  else if negb (Qle_bool 0 (average_confidence s) && Qle_bool (average_confidence s) 1) then
    Raise (Exn ValueError "La confianza promedio debe estar entre 0.0 y 1.0")
  else if Qlt_bool (processing_time s) 0 then
    Raise (Exn ValueError "El tiempo de procesamiento debe ser positivo")
  else if Qlt_bool (frames_per_second s) 0 then
    Raise (Exn ValueError "Los frames por segundo deben ser positivos")
  else Ok s.

Record DetectionResult := mkDetectionResult {
  r_id : string;
  r_video : Video;
  r_damages : list Damage;
  r_statistics : DetectionStatistics;
  r_created_at : datetime;
  r_model_version : string;
  r_confidence_threshold : Q;
  r_output_path : option Path;
  r_annotated_video_path : option Path;
}.

(** [DetectionResult.__post_init__]. *)
Definition DetectionResult_post_init (r : DetectionResult) : result DetectionResult :=
  if negb (Qle_bool 0 (r_confidence_threshold r) && Qle_bool (r_confidence_threshold r) 1) then
    Raise (Exn ValueError "El umbral de confianza debe estar entre 0.0 y 1.0")
  else if String.eqb (r_model_version r) "" then
    Raise (Exn ValueError "La version del modelo es requerida")
  else Ok r.

(** The [has_damages] property. *)
Definition has_damages (r : DetectionResult) : bool :=
  (0 <? length (r_damages r))%nat.

Definition set_annotated_video_path (p : Path) (r : DetectionResult) : DetectionResult :=
  mkDetectionResult (r_id r) (r_video r) (r_damages r) (r_statistics r)
    (r_created_at r) (r_model_version r) (r_confidence_threshold r)
    (r_output_path r) (Some p).

(** ** The video-level loop of [detect_damages_in_video] *)

(** The local variables of the loop. *)
Record LoopState := mkLoop {
  l_damages : list Damage;
  l_frames_processed : Z;
  l_total_confidence : Q;
  l_damages_by_type : gmap string Z;
  l_damages_by_severity : gmap string Z;
  l_frame_number : Z;
}.

Definition loop_start : LoopState := mkLoop [] 0 0%Q ∅ ∅ 0.

(** [d[k] = d.get(k, 0) + 1]. *)
Definition count_one (k : string) (d : gmap string Z) : gmap string Z :=
  <[k := default 0 (d !! k) + 1]> d.

(** The body of [for damage in frame_damages]. *)
Definition record_damage (ts : Q) (st : LoopState) (damage : Damage) : LoopState :=
  let damage := set_timestamp (FloatTs ts) damage in
  mkLoop (l_damages st ++ [damage])
         (l_frames_processed st)
         (l_total_confidence st + confidence damage)%Q
         (count_one (DamageType_value (damage_type damage)) (l_damages_by_type st))
         (count_one (DamageSeverity_value (severity damage)) (l_damages_by_severity st))
         (l_frame_number st).

(** One turn of [while True] once the frame's damages are known. *)
Definition record_frame (fps : Q) (st : LoopState) (frame_damages : list Damage)
  : LoopState :=
  let ts := if Qlt_bool 0 fps then (inject_Z (l_frame_number st) / fps)%Q else 0%Q in
  let st := foldl (record_damage ts) st frame_damages in
  mkLoop (l_damages st) (l_frames_processed st + 1) (l_total_confidence st)
         (l_damages_by_type st) (l_damages_by_severity st) (l_frame_number st + 1).

(** The loop over the frames read from the capture; a frame whose
    detection raises ends the loop with that exception. *)
Fixpoint frames_loop (self : YOLODamageDetector) (fps : Q)
    (frames : list frame_bytes) (st : LoopState) : result LoopState :=
  match frames with
  | [] => Ok st
  | frame :: frames =>
      frame_damages ← detect_damages_in_frame self frame (l_frame_number st);
      frames_loop self fps frames (record_frame fps st frame_damages)
  end.

(** "Calcular estadisticas finales": the statistics built from the loop's
    variables and the measured processing time. *)
Definition final_statistics (st : LoopState) (processing_time : Q)
  : result DetectionStatistics :=
  let average_confidence :=
    match l_damages st with
    | [] => 0%Q
    | _ => (l_total_confidence st / inject_Z (Z.of_nat (length (l_damages st))))%Q
    end in
  let fps_processed :=
    if Qlt_bool 0 processing_time
    then (inject_Z (l_frames_processed st) / processing_time)%Q else 0%Q in
  DetectionStatistics_post_init
    (mkStatistics (l_frames_processed st) (Z.of_nat (length (l_damages st)))
       (l_damages_by_type st) (l_damages_by_severity st)
       average_confidence processing_time fps_processed).

(** The loop's variables after the frames whose damages are [per_frame],
    one list per frame in order. *)
Definition aggregate (fps : Q) (per_frame : list (list Damage)) : LoopState :=
  foldl (record_frame fps) loop_start per_frame.

(** The sum of the counts held in a per-type or per-severity map. *)
Definition sum_counts (d : gmap string Z) : Z :=
  map_fold (fun _ n acc => n + acc) 0 d.

(** The sum of the confidences of a list of damages. *)
Definition sum_confidence (damages : list Damage) : Q :=
  foldr (fun d acc => (confidence d + acc)%Q) 0%Q damages.

(** The bounds [Damage.__post_init__] puts on a confidence. *)
Definition valid_confidence (d : Damage) : Prop :=
  (0 <= confidence d)%Q /\ (confidence d <= 1)%Q.

(** What the loop maintains between two damages. *)
Record loop_invariant (st : LoopState) : Prop := {
  inv_total : (l_total_confidence st == sum_confidence (l_damages st))%Q;
  inv_by_type : sum_counts (l_damages_by_type st) = Z.of_nat (length (l_damages st));
  inv_by_severity :
    sum_counts (l_damages_by_severity st) = Z.of_nat (length (l_damages st));
}.

(** What [cv2.VideoCapture] gives for a video file: nothing when it cannot
    be opened, else the frame rate and the frames [read] returns in order
    (already encoded for the per-frame call). *)
Definition capture := option (Q * list frame_bytes).

(** [detect_damages_in_video].  [elapsed] is the time measured between the
    two readings of the clock, [end_time] the second reading. *)
Definition detect_damages_in_video (self : YOLODamageDetector) (cap : capture)
    (elapsed : Q) (end_time : datetime) (result_id : string)
    (video : Video) (confidence_threshold : Q) : result DetectionResult :=
  match _model self with
  | None => Raise (Exn RuntimeError "El modelo no esta cargado")
  | Some _ =>
      self ← set_confidence_threshold self confidence_threshold;
      match cap with
      | None => Raise (Exn ValueError ("No se pudo abrir el video: " ++ v_file_path video))
      | Some (fps, frames) =>
          st ← frames_loop self fps frames loop_start;
          statistics ← final_statistics st elapsed;
          DetectionResult_post_init
            (mkDetectionResult result_id video (l_damages st) statistics end_time
               (_model_version self) confidence_threshold None None)
      end
  end.

(** ** The JSON repository of videos: [json_video_repository.py]

    The file [videos.json] holds one record per video id.  Writing the file
    and reading it back is taken to return the same records; [_save_data]
    can fail (it opens the file for writing), which the [io] argument of the
    writing operations stands for. *)

(** The dict built by [Damage.to_dict]. *)
Record DamageDict := mkDamageDict {
  dd_id : string;
  dd_damage_type : string;
  dd_severity : string;
  dd_confidence : Q;
  dd_bounding_box : BoundingBox;
  dd_frame_number : Z;
  dd_timestamp : string;
  dd_description : option string;
}.

(** [Damage.to_dict]: [self.timestamp.isoformat()] needs a datetime. *)
Definition Damage_to_dict (d : Damage) : result DamageDict :=
  match timestamp d with
  | FloatTs _ =>
      Raise (Exn AttributeError "'float' object has no attribute 'isoformat'")
  | DatetimeTs t =>
      Ok (mkDamageDict (damage_id d) (DamageType_value (damage_type d))
            (DamageSeverity_value (severity d)) (confidence d) (bounding_box d)
            (frame_number d) (isoformat t) (description d))
  end.

(** The ['metadata'] entry of a record. *)
Record MetadataDict := mkMetadataDict {
  mdd_duration : Q;
  mdd_fps : Q;
  mdd_width : Z;
  mdd_height : Z;
  mdd_frame_count : Z;
  mdd_file_size : Z;
  mdd_format : string;
  mdd_codec : string;
  mdd_bitrate : Z;
}.

(** The record of a video, with exactly the keys [_video_to_dict] writes. *)
Record VideoDict := mkVideoDict {
  vd_id : string;
  vd_name : string;
  vd_file_path : string;
  vd_status : string;
  vd_created_at : string;
  vd_updated_at : option string;
  vd_metadata : option MetadataDict;
  vd_damages : list DamageDict;
}.

Definition metadata_to_dict (m : VideoMetadata) : MetadataDict :=
  mkMetadataDict (md_duration m) (md_fps m) (md_width m) (md_height m)
    (md_frame_count m) (md_file_size m) (VideoFormat_value (md_format m))
    (md_codec m) (md_bitrate m).

(** [_video_to_dict]. *)
Definition _video_to_dict (video : Video) : result VideoDict :=
  damages ← mapM Damage_to_dict (v_damages video);
  Ok (mkVideoDict (v_id video) (v_name video) (v_file_path video)
        (VideoStatus_value (v_status video))
        (isoformat (v_created_at video))
        (isoformat <$> v_updated_at video)
        (metadata_to_dict <$> v_metadata video)
        damages).

(** [_dict_to_video].  The metadata is rebuilt first, then the arguments of
    [Video(...)] are evaluated in the order they are written; both
    constructors run their [__post_init__]. *)
Definition dict_to_metadata (md : MetadataDict) : result VideoMetadata :=
  format ← VideoFormat_of_value (mdd_format md);
  VideoMetadata_post_init
    (mkVideoMetadata (mdd_duration md) (mdd_fps md) (mdd_width md) (mdd_height md)
       (mdd_frame_count md) format (mdd_file_size md) (mdd_codec md) (mdd_bitrate md)).

Definition _dict_to_video (exists_ : Path -> bool) (data : VideoDict) : result Video :=
  metadata ← match vd_metadata data with
             | Some md => Some <$> dict_to_metadata md
             | None => Ok None
             end;
  status ← VideoStatus_of_value (vd_status data);
  created_at ← fromisoformat (vd_created_at data);
  updated_at ← match vd_updated_at data with
               | Some text =>
                   if String.eqb text "" then Ok None else Some <$> fromisoformat text
               | None => Ok None
               end;
  Video_post_init exists_
    (mkVideo (vd_id data) (vd_file_path data) (vd_name data) status created_at
             metadata [] None None None updated_at).

(** [save]. *)
Definition save (io : option exn) (data : gmap string VideoDict) (video : Video)
  : result (gmap string VideoDict) :=
  record ← _video_to_dict video;
  match io with
  | Some e => Raise e
  | None => Ok (<[v_id video := record]> data)
  end.

(** [update]: the id must already be there. *)
Definition update (io : option exn) (data : gmap string VideoDict) (video : Video)
  : result (gmap string VideoDict) :=
  match data !! v_id video with
  | None => Raise (Exn ValueError ("Video no encontrado: " ++ v_id video))
  | Some _ =>
      record ← _video_to_dict video;
      match io with
      | Some e => Raise e
      | None => Ok (<[v_id video := record]> data)
      end
  end.

(** [find_by_id]: any exception gives [None]. *)
Definition find_by_id (exists_ : Path -> bool) (data : gmap string VideoDict)
    (video_id : string) : option Video :=
  match data !! video_id with
  | None => None
  | Some record =>
      match _dict_to_video exists_ record with
      | Ok video => Some video
      | Raise _ => None
      end
  end.

(** The argument of [find_by_status] is compared with the stored token by
    [==]: a [str] equals a [str] with the same characters, and a member of
    the plain [Enum] [VideoStatus] equals no [str]. *)
Inductive status_arg :=
  | StatusToken (token : string)
  | StatusMember (member : VideoStatus).

Definition token_eq (stored : string) (status : status_arg) : bool :=
  match status with
  | StatusToken token => String.eqb stored token
  | StatusMember _ => false
  end.

(** [find_by_status]: the records are visited, the matching ones rebuilt;
    any exception gives the empty list. *)
Definition find_by_status (exists_ : Path -> bool) (data : gmap string VideoDict)
    (status : status_arg) : list Video :=
  let matching :=
    List.filter (fun record => token_eq (vd_status record) status)
                (snd <$> map_to_list data) in
  match mapM (_dict_to_video exists_) matching with
  | Ok videos => videos
  | Raise _ => []
  end.

(** What a record keeps of a video: [_video_to_dict] writes no key for
    [processed_at], [processing_time] and [error_message], and
    [_dict_to_video] passes [damages=[]] ("Los danos se cargan por separado
    si es necesario"). *)
Definition reloaded (v : Video) : Video :=
  mkVideo (v_id v) (v_file_path v) (v_name v) (v_status v) (v_created_at v)
          (v_metadata v) [] None None None (v_updated_at v).

(** A damage whose timestamp is a datetime, as the entity declares it. *)
Definition datetime_stamped (d : Damage) : Prop :=
  exists t, timestamp d = DatetimeTs t.

(** ** The orchestrator: [process_video_use_case.py]

    The collaborators of [ProcessVideoUseCase] are interfaces; what each call
    of one run answers is gathered in a record.  The video repository is the
    JSON repository above, and an [io_*] field tells whether the write of
    that call fails. *)
Record Collaborators := mkCollaborators {
  path_exists : Path -> bool;
  validate_video : Path -> bool;
  (** [is_model_loaded()] and, if needed, [load_model()] *)
  ensure_model : result unit;
  extract_metadata : Path -> result VideoMetadata;
  new_video_id : string;
  now : datetime;
  detect : Video -> Q -> result DetectionResult;
  mkdir_output : Path -> result unit;
  create_annotated_video : Video -> DetectionResult -> Path -> result Path;
  io_save : option exn;
  io_update : option exn;
  io_update_failed : option exn;
  io_save_detection : option exn;
}.

Record Stores := mkStores {
  videos : gmap string VideoDict;
  detections : gmap string DetectionResult;
}.

(** What a call of [execute] leaves behind: what it returned or raised, the
    two stores, and the [Video] entity it built (if it got that far) in its
    last state. *)
Record Run := mkRun {
  run_result : result DetectionResult;
  run_stores : Stores;
  run_video : option Video;
}.

(** [DetectionRepository.save]. *)
Definition save_detection (io : option exn) (data : gmap string DetectionResult)
    (detection_result : DetectionResult) : result (gmap string DetectionResult) :=
  match io with
  | Some e => Raise e
  | None => Ok (<[r_id detection_result := detection_result]> data)
  end.

(** The handler of [execute]:
    [video.status = FAILED; await update(video); raise e]. *)
Definition execute_except (env : Collaborators) (st : Stores) (video : Video)
    (e : exn) : Run :=
  let video := set_status FAILED video in
  match update (io_update_failed env) (videos st) video with
  | Ok vs => mkRun (Raise e) (mkStores vs (detections st)) (Some video)
  | Raise e' => mkRun (Raise e') st (Some video)
  end.

(** "Crear video anotado si se solicita". *)
Definition annotate (env : Collaborators) (video : Video) (video_path : Path)
    (create_annotated : bool) (detection_result : DetectionResult)
  : result DetectionResult :=
  if create_annotated && has_damages detection_result then
    let output_dir := path_join (path_parent video_path) "output" in
    _ ← mkdir_output env output_dir;
    let annotated_path := path_join output_dir ("annotated_" ++ path_name video_path) in
    annotated_video_path ← create_annotated_video env video detection_result annotated_path;
    Ok (set_annotated_video_path annotated_video_path detection_result)
  else Ok detection_result.

(** How the [try] block of [execute] ends: normally, or with an exception;
    either way with the stores and the entity as they are at that point. *)
Inductive try_end :=
  | Done (detection_result : DetectionResult) (st : Stores) (video : Video)
  | Failed (e : exn) (st : Stores) (video : Video).

(** The [try] block of [execute]. *)
Definition execute_body (env : Collaborators) (st : Stores) (video : Video)
    (video_path : Path) (confidence_threshold : Q) (create_annotated : bool)
  : try_end :=
  match save (io_save env) (videos st) video with
  | Raise e => Failed e st video
  | Ok vs =>
  let st := mkStores vs (detections st) in
  if negb (threshold_in_range confidence_threshold) then
    Failed (Exn ValueError "El umbral de confianza debe estar entre 0.0 y 1.0") st video
  else
  match detect env video confidence_threshold with
  | Raise e => Failed e st video
  | Ok detection_result =>
  match annotate env video video_path create_annotated detection_result with
  | Raise e => Failed e st video
  | Ok detection_result =>
  let video := set_damages (r_damages detection_result) (set_status COMPLETED video) in
  match update (io_update env) (videos st) video with
  | Raise e => Failed e st video
  | Ok vs =>
  let st := mkStores vs (detections st) in
  match save_detection (io_save_detection env) (detections st) detection_result with
  | Raise e => Failed e st video
  | Ok ds => Done detection_result (mkStores vs ds) video
  end end end end end.

(** [try: ... except Exception as e: ...]. *)
Definition execute_try (env : Collaborators) (st : Stores) (video : Video)
    (video_path : Path) (confidence_threshold : Q) (create_annotated : bool) : Run :=
  match execute_body env st video video_path confidence_threshold create_annotated with
  | Done detection_result st video => mkRun (Ok detection_result) st (Some video)
  | Failed e st video => execute_except env st video e
  end.

(** [execute] before the [try]: the validations, the model, the metadata
    and the construction of the [Video] entity. *)
Definition prepare (env : Collaborators) (video_path : Path) : result Video :=
  if negb (path_exists env video_path) then
    Raise (Exn FileNotFoundError ("El archivo de video no existe: " ++ video_path))
  else if negb (validate_video env video_path) then
    Raise (Exn ValueError ("El archivo no es un video valido: " ++ video_path))
  else
    _ ← ensure_model env;
    metadata ← extract_metadata env video_path;
    Video_post_init (path_exists env)
      (mkVideo (new_video_id env) video_path (path_name video_path) PROCESSING
               (now env) (Some metadata) [] None None None None).

(** [execute]. *)
Definition execute (env : Collaborators) (st : Stores) (video_path : Path)
    (confidence_threshold : Q) (create_annotated : bool) : Run :=
  match prepare env video_path with
  | Raise e => mkRun (Raise e) st None
  | Ok video =>
      execute_try env st video video_path confidence_threshold create_annotated
  end.

(** ** The application service: [video_processing_app_service.py] *)

Record Settings := mkSettings {
  supported_formats : list string;
  max_video_size_mb : Z;
  confidence_threshold : Q;
}.

Definition is_supported_format (settings : Settings) (file_path : Path) : bool :=
  str_in (lower (suffix file_path)) (supported_formats settings).

Definition max_video_size_bytes (settings : Settings) : Z :=
  max_video_size_mb settings * 1024 * 1024.

(** The file system as the service sees it. *)
Record FileSystem := mkFileSystem {
  fs_exists : Path -> bool;
  fs_size : Path -> Z;
}.

(** The exception of the first check of [process_single_video]. *)
Definition already_processing (video_path : Path) : exn :=
  Exn ValueError ("El video " ++ video_path ++ " ya esta siendo procesado").

(** [process_single_video] up to the [try]: the checks and the insertion
    into [self._processing_videos].  No [await] occurs in this part, so it
    runs without interleaving. *)
Definition admission (settings : Settings) (fs : FileSystem)
    (processing_videos : gmap string bool) (video_path : Path)
  : result (gmap string bool) :=
  match processing_videos !! video_path with
  | Some _ => Raise (already_processing video_path)
  | None =>
      if negb (fs_exists fs video_path) then
        Raise (Exn FileNotFoundError ("El archivo de video no existe: " ++ video_path))
      else if negb (is_supported_format settings video_path) then
        Raise (Exn ValueError ("Formato de video no soportado: " ++ suffix video_path))
      else if max_video_size_bytes settings <? fs_size fs video_path then
        Raise (Exn ValueError "El archivo es demasiado grande")
      else Ok (<[video_path := true]> processing_videos)
  end.

(** How an awaited call ends. [Cancelled] is [asyncio.CancelledError], which
    is not an [Exception]: [except Exception] lets it through, [finally]
    still runs. *)
Inductive outcome (A : Type) :=
  | Returned (a : A)
  | Raised (e : exn)
  | Cancelled.
#[global] Arguments Returned {A} a.
#[global] Arguments Raised {A} e.
#[global] Arguments Cancelled {A}.

(** How a call of [process_single_video] ends: rejected by one of its own
    checks, or with the outcome of the awaited [execute]. *)
Inductive submission :=
  | Rejected (e : exn)
  | Ran (o : outcome DetectionResult).

(** [process_single_video].  [run] is the awaited orchestrator call: it is
    given the admission set as it is at dispatch and answers with the
    outcome and with the admission set as other tasks have left it by the
    time the call ends.  The [finally] block pops the path. *)
Definition process_single_video (settings : Settings) (fs : FileSystem)
    (run : gmap string bool -> outcome DetectionResult * gmap string bool)
    (processing_videos : gmap string bool) (video_path : Path)
  : submission * gmap string bool :=
  match admission settings fs processing_videos video_path with
  | Raise e => (Rejected e, processing_videos)
  | Ok admitted =>
      let '(o, processing_videos) := run admitted in
      (Ran o, delete video_path processing_videos)
  end.

(** [is_video_processing]. *)
Definition is_video_processing (processing_videos : gmap string bool)
    (video_path : Path) : bool :=
  bool_decide (is_Some (processing_videos !! video_path)).

(** The validation loop of [process_multiple_videos]. *)
Fixpoint precheck (settings : Settings) (fs : FileSystem) (video_paths : list Path)
  : result unit :=
  match video_paths with
  | [] => Ok tt
  | video_path :: rest =>
      if negb (fs_exists fs video_path) then
        Raise (Exn FileNotFoundError ("El archivo de video no existe: " ++ video_path))
      else if negb (is_supported_format settings video_path) then
        Raise (Exn ValueError ("Formato de video no soportado: " ++ suffix video_path))
      else precheck settings fs rest
  end.

(** "Separar resultados exitosos de errores": the loop over
    [enumerate(results)]. *)
Fixpoint separate (results : list (result DetectionResult))
    (successful_results : list DetectionResult) (errors : list string)
  : list DetectionResult * list string :=
  match results with
  | [] => (successful_results, errors)
  | Raise e :: rest =>
      separate rest successful_results (errors ++ [exn_msg e])
  | Ok r :: rest =>
      separate rest (successful_results ++ [r]) errors
  end.

(** What a call of [process_multiple_videos] does: the paths for which a
    task running [process_single_video] was created, and what is returned
    or raised. *)
Record Batch := mkBatch {
  batch_tasks : list Path;
  batch_result : result (list DetectionResult);
}.

(** [process_multiple_videos].  [task i path] is how the task created for
    the [i]-th path ends; [asyncio.gather(.., return_exceptions=True)] gives
    these, values and exceptions alike, in the order of the tasks.  (A task
    cancelled from outside is not covered.) *)
Definition process_multiple_videos (settings : Settings) (fs : FileSystem)
    (task : nat -> Path -> result DetectionResult) (video_paths : list Path)
  : Batch :=
  match precheck settings fs video_paths with
  | Raise e => mkBatch [] (Raise e)
  | Ok _ =>
      let tasks := video_paths in
      let results := imap task tasks in
      let '(successful_results, errors) := separate results [] [] in
      mkBatch tasks (Ok successful_results)
  end.

(** The values among the results of the tasks, in order, and the number of
    exceptions among them. *)
Definition ok_values (results : list (result DetectionResult)) : list DetectionResult :=
  omap (fun r => match r with Ok x => Some x | Raise _ => None end) results.

Definition failures (results : list (result DetectionResult)) : nat :=
  length (List.filter (fun r => negb (is_ok r)) results).

(** What the validation loop asks of a path. *)
Definition admissible (settings : Settings) (fs : FileSystem) (video_path : Path) : Prop :=
  fs_exists fs video_path = true /\ is_supported_format settings video_path = true.

(** The attributes of a [ProcessVideoUseCase] instance: what [__init__]
    sets and the methods of the class. *)
Definition ProcessVideoUseCase_attributes : list string :=
  ["_video_repository"; "_detection_repository"; "_damage_detection_service";
   "_video_processing_service"; "execute"; "get_processing_status";
   "cancel_processing"].

(** [self.process_video_use_case.<name>]. *)
Definition use_case_getattr (name : string) : result unit :=
  if str_in name ProcessVideoUseCase_attributes then Ok tt
  else Raise (Exn AttributeError
                ("'ProcessVideoUseCase' object has no attribute " ++ name)).

(** What [run_in_executor(None, method, arg)] resolves to when [method] is
    an [async def]: the call made in the worker thread only builds a
    coroutine object, whose body never runs. *)
Inductive fetched :=
  | FetchedList (videos : list Video)
  | FetchedCoroutine.

(** [get_videos_by_status]: the attribute is looked up inside the [try];
    the handler returns the empty list. *)
Definition get_videos_by_status (status : VideoStatus) : fetched :=
  match use_case_getattr "video_repository" with
  | Ok _ => FetchedCoroutine
  | Raise _ => FetchedList []
  end.

(** The loop of [cleanup_failed_videos].  The update goes through
    [run_in_executor] too: the attribute is looked up, and the coroutine the
    call builds is not run, so nothing is written. *)
Fixpoint cleanup_loop (processing_videos : gmap string bool)
    (failed_videos : list Video) (count : Z) : result Z :=
  match failed_videos with
  | [] => Ok count
  | video :: rest =>
      if negb (is_video_processing processing_videos (v_file_path video)) then
        _ ← use_case_getattr "video_repository";
        cleanup_loop processing_videos rest (count + 1)
      else cleanup_loop processing_videos rest count
  end.

(** [cleanup_failed_videos]: the count returned and the records of the
    repository afterwards.  Iterating over a coroutine object raises
    [TypeError]; every exception is answered with [0]. *)
Definition cleanup_failed_videos (data : gmap string VideoDict)
    (processing_videos : gmap string bool) : Z * gmap string VideoDict :=
  match get_videos_by_status PROCESSING with
  | FetchedCoroutine => (0, data)
  | FetchedList failed_videos =>
      match cleanup_loop processing_videos failed_videos 0 with
      | Ok count => (count, data)
      | Raise _ => (0, data)
      end
  end.

End Model.

(** * The rest of the entities, repositories and services *)

Section Entities.
Context `{DT : DatetimeLib}.

(** ** [damage.py] and [video.py]: the remaining methods *)

(** [Damage.is_high_confidence(threshold)] (the default threshold is 0.7). *)
Definition is_high_confidence (threshold : Q) (d : Damage) : bool :=
  Qle_bool threshold (confidence d).

(** [Damage.is_severe]. *)
Definition is_severe (d : Damage) : bool :=
  match severity d with
  | HIGH | CRITICAL => true
  | LOW | MEDIUM => false
  end.

(** The [is_processed] property of a video. *)
Definition is_processed (v : Video) : bool := bool_decide (v_status v = COMPLETED).

(** [Video.mark_as_processing] and [Video.mark_as_completed]. *)
Definition mark_as_processing (v : Video) : Video := set_status PROCESSING v.

Definition mark_as_completed (now : datetime) (processing_time : Q) (v : Video) : Video :=
  mkVideo (v_id v) (v_file_path v) (v_name v) COMPLETED (v_created_at v)
          (v_metadata v) (v_damages v) (Some now) (Some processing_time)
          None (v_updated_at v).

(** The values a dict built by [to_dict] holds under its keys. *)
Inductive pyval :=
  | PyFloat (q : Q)
  | PyInt (z : Z)
  | PyStr (s : string)
  | PyPair (a b : Q).

(** Attribute access on a [VideoMetadata]: its nine fields and its two
    properties ([aspect_ratio] divides by the height, which is positive in
    any metadata that passed [__post_init__]); any other name raises
    [AttributeError]. *)
Definition VideoMetadata_getattr (m : VideoMetadata) (name : string) : result pyval :=
  if String.eqb name "duration" then Ok (PyFloat (md_duration m))
  else if String.eqb name "fps" then Ok (PyFloat (md_fps m))
  else if String.eqb name "width" then Ok (PyInt (md_width m))
  else if String.eqb name "height" then Ok (PyInt (md_height m))
  else if String.eqb name "frame_count" then Ok (PyInt (md_frame_count m))
  else if String.eqb name "format" then Ok (PyStr (VideoFormat_value (md_format m)))
  else if String.eqb name "file_size" then Ok (PyInt (md_file_size m))
  else if String.eqb name "codec" then Ok (PyStr (md_codec m))
  else if String.eqb name "bitrate" then Ok (PyInt (md_bitrate m))
  else if String.eqb name "resolution" then
    Ok (PyStr (pretty (md_width m) ++ "x" ++ pretty (md_height m)))
  else if String.eqb name "aspect_ratio" then
    Ok (PyFloat (inject_Z (md_width m) / inject_Z (md_height m)))
  else Raise (Exn AttributeError ("'VideoMetadata' object has no attribute " ++ name)).

(** A dict literal [{key: self.metadata.<attribute>, ...}]: the entries are
    evaluated in the order written. *)
Fixpoint metadata_entries (m : VideoMetadata) (keys : list (string * string))
  : result (list (string * pyval)) :=
  match keys with
  | [] => Ok []
  | (key, attribute) :: keys =>
      value ← VideoMetadata_getattr m attribute;
      entries ← metadata_entries m keys;
      Ok ((key, value) :: entries)
  end.

(** The dict built by [Video.to_dict]. *)
Record VideoView := mkVideoView {
  vv_id : string;
  vv_file_path : string;
  vv_name : string;
  vv_status : string;
  vv_created_at : string;
  vv_metadata : option (list (string * pyval));
  vv_damages : list DamageDict;
  vv_processed_at : option string;
  vv_processing_time : option Q;
  vv_error_message : option string;
  vv_damage_count : Z;
  vv_has_damages : bool;
}.

(** [Video.to_dict].  The metadata entry reads [self.metadata.total_frames]. *)
Definition Video_to_dict (v : Video) : result VideoView :=
  metadata ← match v_metadata v with
             | Some m =>
                 Some <$> metadata_entries m
                   [("duration", "duration"); ("fps", "fps"); ("width", "width");
                    ("height", "height"); ("total_frames", "total_frames");
                    ("format", "format"); ("file_size", "file_size")]
             | None => Ok None
             end;
  damages ← mapM Damage_to_dict (v_damages v);
  Ok (mkVideoView (v_id v) (v_file_path v) (v_name v)
        (VideoStatus_value (v_status v)) (isoformat (v_created_at v))
        metadata damages (isoformat <$> v_processed_at v)
        (v_processing_time v) (v_error_message v)
        (Z.of_nat (length (v_damages v)))
        (0 <? length (v_damages v))%nat).

(** ** [detection_result.py]: the queries on a result *)

Definition damage_count (r : DetectionResult) : Z := Z.of_nat (length (r_damages r)).

(** [high_confidence_damages]: confidence at least the result's threshold. *)
Definition high_confidence_damages (r : DetectionResult) : list Damage :=
  List.filter (fun d => Qle_bool (r_confidence_threshold r) (confidence d))
              (r_damages r).

Definition severe_damages (r : DetectionResult) : list Damage :=
  List.filter is_severe (r_damages r).

(** [unique_damage_types]: [list(set(...))]; the order of the list is the
    one of the set. *)
Definition unique_damage_types (r : DetectionResult) : list string :=
  elements (list_to_set (DamageType_value ∘ damage_type <$> r_damages r) : gset string).

Definition get_damages_by_frame (r : DetectionResult) (n : Z) : list Damage :=
  List.filter (fun d => frame_number d =? n) (r_damages r).

Definition get_damages_by_type (r : DetectionResult) (type : string) : list Damage :=
  List.filter (fun d => String.eqb (DamageType_value (damage_type d)) type)
              (r_damages r).

Definition get_damages_by_confidence_range (r : DetectionResult)
    (min_confidence max_confidence : Q) : list Damage :=
  List.filter (fun d => Qle_bool min_confidence (confidence d)
                        && Qle_bool (confidence d) max_confidence)
              (r_damages r).

(** [calculate_damage_density]. *)
Definition calculate_damage_density (r : DetectionResult) : Q :=
  if total_frames_processed (r_statistics r) =? 0 then 0%Q
  else (inject_Z (damage_count r)
        / inject_Z (total_frames_processed (r_statistics r)))%Q.

(** The dict built by [generate_summary]. *)
Record Summary := mkSummary {
  sm_video_name : string;
  sm_total_damages : Z;
  sm_high_confidence_damages : Z;
  sm_severe_damages : Z;
  sm_unique_damage_types : list string;
  sm_damage_density : Q;
  sm_processing_time : Q;
  sm_average_confidence : Q;
  sm_frames_processed : Z;
  sm_model_version : string;
  sm_confidence_threshold : Q;
}.

Definition generate_summary (r : DetectionResult) : Summary :=
  mkSummary (v_name (r_video r)) (damage_count r)
    (Z.of_nat (length (high_confidence_damages r)))
    (Z.of_nat (length (severe_damages r)))
    (unique_damage_types r) (calculate_damage_density r)
    (processing_time (r_statistics r)) (average_confidence (r_statistics r))
    (total_frames_processed (r_statistics r)) (r_model_version r)
    (r_confidence_threshold r).

(** The dict built by [DetectionResult.to_dict]. *)
Record ResultView := mkResultView {
  rv_id : string;
  rv_video : VideoView;
  rv_damages : list DamageDict;
  rv_statistics : DetectionStatistics;
  rv_created_at : string;
  rv_model_version : string;
  rv_confidence_threshold : Q;
  rv_output_path : option string;
  rv_annotated_video_path : option string;
  rv_summary : Summary;
}.

(** [DetectionResult.to_dict]: [self.video.to_dict()] comes first. *)
Definition DetectionResult_to_dict (r : DetectionResult) : result ResultView :=
  video ← Video_to_dict (r_video r);
  damages ← mapM Damage_to_dict (r_damages r);
  Ok (mkResultView (r_id r) video damages (r_statistics r)
        (isoformat (r_created_at r)) (r_model_version r)
        (r_confidence_threshold r) (r_output_path r)
        (r_annotated_video_path r) (generate_summary r)).

End Entities.

Section Services.
Context `{DT : DatetimeLib}.

(** ** [json_video_repository.py]: the remaining operations *)

(** [find_all]: every record is rebuilt; any exception gives the empty
    list. *)
Definition find_all (exists_ : Path -> bool) (data : gmap string VideoDict)
  : list Video :=
  match mapM (_dict_to_video exists_) (snd <$> map_to_list data) with
  | Ok videos => videos
  | Raise _ => []
  end.

(** [find_by_path]: the first record with that path, rebuilt; any exception
    gives [None]. *)
Definition find_by_path (exists_ : Path -> bool) (data : gmap string VideoDict)
    (file_path : Path) : option Video :=
  match List.find (fun record => String.eqb (vd_file_path record) file_path)
                  (snd <$> map_to_list data) with
  | None => None
  | Some record =>
      match _dict_to_video exists_ record with
      | Ok video => Some video
      | Raise _ => None
      end
  end.

(** [delete]: the answer and the records afterwards; a failed write is
    answered with [False]. *)
Definition delete_video (io : option exn) (data : gmap string VideoDict)
    (video_id : string) : bool * gmap string VideoDict :=
  match data !! video_id with
  | None => (false, data)
  | Some _ =>
      match io with
      | Some _ => (false, data)
      | None => (true, delete video_id data)
      end
  end.

(** [exists]. *)
Definition exists_video (data : gmap string VideoDict) (video_id : string) : bool :=
  bool_decide (is_Some (data !! video_id)).

(** ** [process_video_use_case.py]: the two queries *)

(** [get_processing_status]. *)
Definition get_processing_status (exists_ : Path -> bool)
    (data : gmap string VideoDict) (video_id : string) : option string :=
  (fun video => VideoStatus_value (v_status video)) <$> find_by_id exists_ data video_id.

(** [cancel_processing]: the answer (or the exception of the write, which
    nothing catches) and the records afterwards. *)
Definition cancel_processing (exists_ : Path -> bool) (io : option exn)
    (data : gmap string VideoDict) (video_id : string)
  : result bool * gmap string VideoDict :=
  match find_by_id exists_ data video_id with
  | Some video =>
      if bool_decide (v_status video = PROCESSING) then
        match update io data (set_status CANCELLED video) with
        | Ok vs => (Ok true, vs)
        | Raise e => (Raise e, data)
        end
      else (Ok false, data)
  | None => (Ok false, data)
  end.

(** ** [video_processing_app_service.py]: the queue status *)

Record QueueStatus := mkQueueStatus {
  qs_max_concurrent_processes : Z;
  qs_currently_processing : Z;
  qs_processing_videos : list string;
  qs_available_slots : Z;
}.

(** [get_processing_queue_status]. *)
Definition get_processing_queue_status (max_concurrent_processes : Z)
    (processing_videos : gmap string bool) : QueueStatus :=
  mkQueueStatus max_concurrent_processes
    (Z.of_nat (size processing_videos))
    (fst <$> map_to_list processing_videos)
    (max_concurrent_processes - Z.of_nat (size processing_videos)).

(** ** [opencv_video_processor.py]: validation and metadata *)

(** [int(x)] on a float: truncation towards zero. *)
Definition py_int (x : Q) : Z := Z.quot (Qnum x) (Zpos (Qden x)).

(** [_get_video_format]. *)
Definition _get_video_format (extension : string) : VideoFormat :=
  if String.eqb extension ".mp4" then MP4
  else if String.eqb extension ".avi" then AVI
  else if String.eqb extension ".mov" then MOV
  else if String.eqb extension ".mkv" then MKV
  else if String.eqb extension ".wmv" then WMV
  else if String.eqb extension ".flv" then FLV
  else if String.eqb extension ".webm" then WEBM
  else UNKNOWN_FORMAT.

(** [_get_codec_info]. *)
Definition _get_codec_info (video_path : Path) : string :=
  let extension := lower (suffix video_path) in
  if String.eqb extension ".mp4" then "H.264"
  else if String.eqb extension ".avi" then "XVID"
  else if String.eqb extension ".mov" then "H.264"
  else if String.eqb extension ".mkv" then "H.264"
  else if String.eqb extension ".wmv" then "WMV"
  else if String.eqb extension ".flv" then "FLV"
  else if String.eqb extension ".webm" then "VP8/VP9"
  else "Unknown".

(** [_calculate_bitrate]. *)
Definition _calculate_bitrate (file_size : Z) (duration : Q) : Z :=
  if Qle_bool duration 0 then 0
  else py_int (inject_Z (file_size * 8) / duration).

(** What an opened [cv2.VideoCapture] reports. *)
Record CaptureProps := mkCaptureProps {
  cap_is_opened : bool;
  cap_frame_width : Q;
  cap_frame_height : Q;
  cap_fps : Q;
  cap_frame_count : Q;
  (** [ret] and [frame is not None] of the first [read()] *)
  cap_first_read : bool * bool;
}.

Definition OpenCV_supported_formats : list string :=
  [".mp4"; ".avi"; ".mov"; ".mkv"; ".wmv"; ".flv"; ".webm"; ".m4v"].

(** [validate_video]: every exception is answered with [False]. *)
Definition OpenCV_validate_video (exists_ : Path -> bool)
    (open_capture : Path -> result CaptureProps) (video_path : Path) : bool :=
  if negb (exists_ video_path) then false
  else if negb (str_in (lower (suffix video_path)) OpenCV_supported_formats) then false
  else
    match open_capture video_path with
    | Raise _ => false
    | Ok cap =>
        if negb (cap_is_opened cap) then false
        else fst (cap_first_read cap) && snd (cap_first_read cap)
    end.

(** [extract_metadata]: the handler re-raises what the block raised. *)
Definition OpenCV_extract_metadata (exists_ : Path -> bool)
    (open_capture : Path -> result CaptureProps) (st_size : Path -> Z)
    (video_path : Path) : result VideoMetadata :=
  if negb (exists_ video_path) then
    Raise (Exn FileNotFoundError ("El archivo de video no existe: " ++ video_path))
  else
    cap ← open_capture video_path;
    if negb (cap_is_opened cap) then
      Raise (Exn ValueError ("No se pudo abrir el video: " ++ video_path))
    else
      let width := py_int (cap_frame_width cap) in
      let height := py_int (cap_frame_height cap) in
      let fps := cap_fps cap in
      let frame_count := py_int (cap_frame_count cap) in
      let duration :=
        if Qlt_bool 0 fps then (inject_Z frame_count / fps)%Q else 0%Q in
      let file_size := st_size video_path in
      let format_name := lower (suffix video_path) in
      let video_format := _get_video_format format_name in
      VideoMetadata_post_init
        (mkVideoMetadata duration fps width height frame_count video_format
           file_size (_get_codec_info video_path)
           (_calculate_bitrate file_size duration)).

End Services.

Section DetectionStore.
Context `{DT : DatetimeLib}.

(** ** [json_detection_repository.py]

    The file [detections.json] holds one record per result id. *)

(** Attribute access on a [BoundingBox]: its four fields and its two
    properties; any other name raises [AttributeError]. *)
Definition BoundingBox_getattr (b : BoundingBox) (name : string) : result pyval :=
  if String.eqb name "x" then Ok (PyFloat (bb_x b))
  else if String.eqb name "y" then Ok (PyFloat (bb_y b))
  else if String.eqb name "width" then Ok (PyFloat (bb_width b))
  else if String.eqb name "height" then Ok (PyFloat (bb_height b))
  else if String.eqb name "area" then Ok (PyFloat (area b))
  else if String.eqb name "center" then Ok (PyPair (fst (center b)) (snd (center b)))
  else Raise (Exn AttributeError ("'BoundingBox' object has no attribute " ++ name)).

(** [DamageType(token)] and [DamageSeverity(token)]. *)
Definition DamageType_of_value (token : string) : result DamageType :=
  if String.eqb token "scratch" then Ok SCRATCH
  else if String.eqb token "dent" then Ok DENT
  else if String.eqb token "crack" then Ok CRACK
  else if String.eqb token "rust" then Ok RUST
  else if String.eqb token "broken_part" then Ok BROKEN_PART
  else if String.eqb token "unknown" then Ok UNKNOWN
  else Raise (Exn ValueError (token ++ " is not a valid DamageType")).

Definition DamageSeverity_of_value (token : string) : result DamageSeverity :=
  if String.eqb token "low" then Ok LOW
  else if String.eqb token "medium" then Ok MEDIUM
  else if String.eqb token "high" then Ok HIGH
  else if String.eqb token "critical" then Ok CRITICAL
  else Raise (Exn ValueError (token ++ " is not a valid DamageSeverity")).

(** The ['bounding_box'] entry of a stored damage, and the stored damage. *)
Record StoredBox := mkStoredBox {
  sb_x1 : pyval;
  sb_y1 : pyval;
  sb_x2 : pyval;
  sb_y2 : pyval;
}.

Record StoredDamage := mkStoredDamage {
  sd_id : string;
  sd_damage_type : string;
  sd_severity : string;
  sd_confidence : Q;
  sd_bounding_box : StoredBox;
  sd_frame_number : Z;
  sd_timestamp : timestamp_value;
}.

(** The ['video'] entry of a stored result. *)
Record StoredVideo := mkStoredVideo {
  sv_id : string;
  sv_name : string;
  sv_file_path : string;
  sv_status : string;
  sv_created_at : string;
  sv_metadata : option MetadataDict;
}.

Record StoredResult := mkStoredResult {
  sr_id : string;
  sr_video : StoredVideo;
  sr_damages : list StoredDamage;
  sr_statistics : DetectionStatistics;
  sr_created_at : string;
  sr_model_version : string;
  sr_confidence_threshold : Q;
  sr_output_path : option string;
  sr_annotated_video_path : option string;
}.

(** One element of the ['damages'] list comprehension of
    [_detection_to_dict]: the box is read through [x1], [y1], [x2], [y2]. *)
Definition damage_to_stored (d : Damage) : result StoredDamage :=
  x1 ← BoundingBox_getattr (bounding_box d) "x1";
  y1 ← BoundingBox_getattr (bounding_box d) "y1";
  x2 ← BoundingBox_getattr (bounding_box d) "x2";
  y2 ← BoundingBox_getattr (bounding_box d) "y2";
  Ok (mkStoredDamage (damage_id d) (DamageType_value (damage_type d))
        (DamageSeverity_value (severity d)) (confidence d)
        (mkStoredBox x1 y1 x2 y2) (frame_number d) (timestamp d)).

(** [str(path) if path else None]: a path object is always true. *)
Definition path_entry (p : option Path) : option string := p.

(** [_detection_to_dict]. *)
Definition _detection_to_dict (detection : DetectionResult) : result StoredResult :=
  let video := r_video detection in
  let stored_video :=
    mkStoredVideo (v_id video) (v_name video) (v_file_path video)
      (VideoStatus_value (v_status video)) (isoformat (v_created_at video))
      (metadata_to_dict <$> v_metadata video) in
  damages ← mapM damage_to_stored (r_damages detection);
  Ok (mkStoredResult (r_id detection) stored_video damages (r_statistics detection)
        (isoformat (r_created_at detection)) (r_model_version detection)
        (r_confidence_threshold detection)
        (path_entry (r_output_path detection))
        (path_entry (r_annotated_video_path detection))).

(** A float read back from a stored box entry. *)
Definition float_entry (v : pyval) : Q :=
  match v with
  | PyFloat q => q
  | PyInt z => inject_Z z
  | PyStr _ | PyPair _ _ => 0%Q
  end.

(** One turn of the damages loop of [_dict_to_detection]: the box is built
    with the keywords [x1], [y1], [x2], [y2], then the damage. *)
Definition stored_to_damage (sd : StoredDamage) : result Damage :=
  bbox ← BoundingBox_init
           [("x1", float_entry (sb_x1 (sd_bounding_box sd)));
            ("y1", float_entry (sb_y1 (sd_bounding_box sd)));
            ("x2", float_entry (sb_x2 (sd_bounding_box sd)));
            ("y2", float_entry (sb_y2 (sd_bounding_box sd)))];
  damage_type ← DamageType_of_value (sd_damage_type sd);
  severity ← DamageSeverity_of_value (sd_severity sd);
  Damage_post_init
    (mkDamage (sd_id sd) damage_type severity (sd_confidence sd) bbox
              (sd_frame_number sd) (sd_timestamp sd) None).

(** [Path(text) if data.get(key) else None]: an empty text is false. *)
Definition entry_path (e : option string) : option Path :=
  match e with
  | Some text => if String.eqb text "" then None else Some text
  | None => None
  end.

(** [_dict_to_detection]. *)
Definition _dict_to_detection (exists_ : Path -> bool) (data : StoredResult)
  : result DetectionResult :=
  let video_data := sr_video data in
  metadata ← match sv_metadata video_data with
             | Some md => Some <$> dict_to_metadata md
             | None => Ok None
             end;
  status ← VideoStatus_of_value (sv_status video_data);
  video_created_at ← fromisoformat (sv_created_at video_data);
  video ← Video_post_init exists_
             (mkVideo (sv_id video_data) (sv_file_path video_data)
                      (sv_name video_data) status video_created_at metadata
                      [] None None None None);
  damages ← mapM stored_to_damage (sr_damages data);
  statistics ← DetectionStatistics_post_init (sr_statistics data);
  created_at ← fromisoformat (sr_created_at data);
  DetectionResult_post_init
    (mkDetectionResult (sr_id data) video damages statistics created_at
       (sr_model_version data) (sr_confidence_threshold data)
       (entry_path (sr_output_path data))
       (entry_path (sr_annotated_video_path data))).

(** [JsonDetectionRepository.save]. *)
Definition detection_save (io : option exn) (data : gmap string StoredResult)
    (detection_result : DetectionResult) : result (gmap string StoredResult) :=
  record ← _detection_to_dict detection_result;
  match io with
  | Some e => Raise e
  | None => Ok (<[r_id detection_result := record]> data)
  end.

(** [JsonDetectionRepository.find_by_id]: any exception gives [None]. *)
Definition detection_find_by_id (exists_ : Path -> bool)
    (data : gmap string StoredResult) (result_id : string) : option DetectionResult :=
  match data !! result_id with
  | None => None
  | Some record =>
      match _dict_to_detection exists_ record with
      | Ok r => Some r
      | Raise _ => None
      end
  end.

(** The dict returned by [JsonDetectionRepository.get_statistics]. *)
Record RepositoryStatistics := mkRepositoryStatistics {
  rs_total_detections : Z;
  rs_total_damages : Z;
  rs_average_damages_per_detection : Q;
  rs_total_processing_time : Q;
  rs_average_processing_time : Q;
  rs_damages_by_type : gmap string Z;
  rs_damages_by_severity : gmap string Z;
}.

(** The accumulators of the loop of [get_statistics]. *)
Record StatsLoop := mkStatsLoop {
  sl_total_damages : Z;
  sl_total_processing_time : Q;
  sl_damages_by_type : gmap string Z;
  sl_damages_by_severity : gmap string Z;
}.

Definition stats_damage (acc : StatsLoop) (damage : StoredDamage) : StatsLoop :=
  mkStatsLoop (sl_total_damages acc) (sl_total_processing_time acc)
    (count_one (sd_damage_type damage) (sl_damages_by_type acc))
    (count_one (sd_severity damage) (sl_damages_by_severity acc)).

Definition stats_record (acc : StatsLoop) (detection_data : StoredResult) : StatsLoop :=
  let damages := sr_damages detection_data in
  let acc :=
    mkStatsLoop (sl_total_damages acc + Z.of_nat (length damages))
      (sl_total_processing_time acc
       + processing_time (sr_statistics detection_data))%Q
      (sl_damages_by_type acc) (sl_damages_by_severity acc) in
  foldl stats_damage acc damages.

(** [get_statistics]. *)
Definition detection_get_statistics (data : gmap string StoredResult)
  : RepositoryStatistics :=
  let total_detections := Z.of_nat (size data) in
  let acc := foldl stats_record (mkStatsLoop 0 0%Q ∅ ∅) (snd <$> map_to_list data) in
  mkRepositoryStatistics total_detections (sl_total_damages acc)
    (if 0 <? total_detections
     then (inject_Z (sl_total_damages acc) / inject_Z total_detections)%Q else 0%Q)
    (sl_total_processing_time acc)
    (if 0 <? total_detections
     then (sl_total_processing_time acc / inject_Z total_detections)%Q else 0%Q)
    (sl_damages_by_type acc) (sl_damages_by_severity acc).

End DetectionStore.

Section StoreInvariant.
Context `{DT : DatetimeLib}.

(** Every record of the repository sits under its own id. *)
Definition store_keyed (data : gmap string VideoDict) : Prop :=
  forall video_id record, data !! video_id = Some record -> vd_id record = video_id.

(** A video as [_dict_to_video] can give it back: the file exists with a
    supported suffix and the metadata, if any, passes its validation. *)
Definition readable (exists_ : Path -> bool) (v : Video) : Prop :=
  Video_post_init exists_ v = Ok v /\
  (forall m, v_metadata v = Some m -> VideoMetadata_post_init m = Ok m).

End StoreInvariant.

Section OrchestratorExtras.
Context `{DT : DatetimeLib}.

(** A damage whose timestamp is a float, as the video-level loop of the
    detector leaves it. *)
Definition float_stamped (d : Damage) : Prop :=
  exists t, timestamp d = FloatTs t.

(** The formats the [Video] entity accepts in [__post_init__]. *)
Definition Video_formats : list string := [".mp4"; ".avi"; ".mov"; ".mkv"].

(** The same collaborators with another renderer and another [mkdir]. *)
Definition with_renderer (env : Collaborators)
    (mkdir : Path -> result unit)
    (render : Video -> DetectionResult -> Path -> result Path) : Collaborators :=
  mkCollaborators (path_exists env) (validate_video env) (ensure_model env)
    (extract_metadata env) (new_video_id env) (now env) (detect env)
    mkdir render (io_save env) (io_update env) (io_update_failed env)
    (io_save_detection env).

End OrchestratorExtras.

Section DetectionStoreExtras.
Context `{DT : DatetimeLib}.

(** What a stored result keeps of its video: the ['video'] entry has no key
    for the update date, the damages, the error message, the processing date
    and the processing time. *)
Definition video_as_stored (v : Video) : Video :=
  mkVideo (v_id v) (v_file_path v) (v_name v) (v_status v) (v_created_at v)
          (v_metadata v) [] None None None None.

Definition result_as_stored (r : DetectionResult) : DetectionResult :=
  mkDetectionResult (r_id r) (video_as_stored (r_video r)) (r_damages r)
    (r_statistics r) (r_created_at r) (r_model_version r)
    (r_confidence_threshold r) (r_output_path r) (r_annotated_video_path r).

End DetectionStoreExtras.

(** ** Sample inputs

    Concrete values on which the definitions are run below; datetimes are
    those of [tick_datetime]. *)

Definition sample_box : BoundingBox := mkBoundingBox 10 20 40 30.

Definition sample_damage (id : string) (c : Q) (frame : Z) : Damage :=
  mkDamage id DENT HIGH c sample_box frame (FloatTs 0) None.

Definition sample_per_frame : list (list Damage) :=
  [[sample_damage "d1" (9 # 10) 0; sample_damage "d2" (7 # 10) 0];
   [];
   [sample_damage "d3" (5 # 10) 2]].

Definition sample_metadata : VideoMetadata :=
  mkVideoMetadata 10 30 640 480 300 MP4 1000 "H.264" 800.

Definition sample_video : Video :=
  mkVideo "v1" "/videos/a.mp4" "a.mp4" PROCESSING 5%nat (Some sample_metadata)
          [] None None None None.

Definition sample_model : YOLO :=
  fun _ _ => Ok [Some [mkBox (85 # 100) 1 (0, 0, 40, 30)%Q]; None].

(** A detector whose model finds one box in every frame. *)
Definition sample_detector : YOLODamageDetector :=
  mkDetector
    (Some sample_model) (1 # 2) "YOLOv11" (fun _ => Ok (Some [])) (fun _ => "id").

Definition sample_record : VideoDict :=
  mkVideoDict "v1" "a.mp4" "/videos/a.mp4" "processing" (isoformat 5%nat) None
              (Some (metadata_to_dict sample_metadata)) [].

Definition sample_statistics : DetectionStatistics :=
  mkStatistics 3 1 {["dent" := 1]} {["high" := 1]} (9 # 10) 2 (3 # 2).

Definition sample_result : DetectionResult :=
  mkDetectionResult "r1" sample_video [sample_damage "d1" (9 # 10) 0]
    sample_statistics 7%nat "YOLOv11" (1 # 2) None None.

Definition sample_settings : Settings :=
  mkSettings [".mp4"; ".avi"; ".mov"; ".mkv"; ".wmv"; ".flv"; ".webm"] 500 (1 # 2).

(** A file system in which every path exists and has 1000 bytes. *)
Definition sample_fs : FileSystem := mkFileSystem (fun _ => true) (fun _ => 1000).

Definition sample_capture : capture := Some (30%Q, ["f0"; "f1"; "f2"]).

(** A failed video with one damage stamped with a datetime. *)
Definition sample_failed_video : Video :=
  mkVideo "v2" "/videos/b.mp4" "b.mp4" FAILED 5%nat (Some sample_metadata)
          [mkDamage "d9" DENT HIGH (9 # 10) sample_box 4 (DatetimeTs 6%nat) None]
          (Some 8%nat) None (Some "boom") (Some 9%nat).

(** The collaborators of a run on ["/videos/a.mp4"]: the checks pass, the
    repositories of videos and of results answer as told, except that the
    write of the FAILED record fails as [io_failed] says. *)
Definition sample_env (detected : result DetectionResult) (rendered : result Path)
    (io_failed : option exn) : Collaborators :=
  mkCollaborators (fun _ => true) (fun _ => true) (Ok tt) (fun _ => Ok sample_metadata)
    "v1" 5%nat (fun _ _ => detected) (fun _ => Ok tt) (fun _ _ _ => rendered)
    None None io_failed None.

Definition empty_stores : Stores := mkStores ∅ ∅.

Definition model_error : exn := Exn RuntimeError "inference failed".
Definition codec_error : exn := Exn ValueError "No se pudo abrir el video".


(** The detection finds a damage and the renderer fails. *)
Definition env_renderer_fails : Collaborators :=
  sample_env (Ok sample_result) (Raise codec_error) None.

(** A batch of two paths whose first task fails. *)
Definition sample_paths : list Path := ["/videos/a.mp4"; "/videos/b.mp4"].

Definition sample_task (i : nat) (video_path : Path) : result DetectionResult :=
  match i with
  | O => Raise model_error
  | S _ => Ok sample_result
  end.

(** An orchestrator call that is cancelled while another task admits
    ["/videos/z.mp4"]. *)
Definition sample_run (admitted : gmap string bool)
  : outcome DetectionResult * gmap string bool :=
  (Cancelled, <["/videos/z.mp4" := true]> admitted).

Definition sample_stamped_damage : Damage :=
  mkDamage "d9" DENT HIGH (9 # 10) sample_box 4 (DatetimeTs 6%nat) None.

Definition sample_stamped_result : DetectionResult :=
  mkDetectionResult "r2" sample_video [sample_stamped_damage]
    sample_statistics 7%nat "YOLOv11" (1 # 2) None None.

(** A result without damages about the failed video, which has a damage,
    an error message and the dates of its processing and update. *)
Definition sample_failed_result : DetectionResult :=
  mkDetectionResult "r4" sample_failed_video []
    (mkStatistics 3 0 ∅ ∅ 0 2 (3 # 2)) 7%nat "YOLOv11" (1 # 2) None None.

(** The detection returns a float-stamped damage and the renderer works. *)
Definition env_float_stamped : Collaborators :=
  sample_env (Ok sample_result) (Ok "/videos/output/annotated_a.mp4") None.

(** The detection returns a datetime-stamped damage and the renderer works. *)
Definition env_datetime_stamped : Collaborators :=
  sample_env (Ok sample_stamped_result) (Ok "/videos/output/annotated_a.mp4") None.

(** The detector of the repository as detection service. *)
Definition env_yolo : Collaborators :=
  mkCollaborators (fun _ => true) (fun _ => true) (Ok tt)
    (fun _ => Ok sample_metadata) "v1" 5%nat
    (detect_damages_in_video sample_detector sample_capture 2 7%nat "r1")
    (fun _ => Ok tt) (fun _ _ _ => Raise codec_error) None None None None.

Definition sample_capture_props : CaptureProps :=
  mkCaptureProps true 640 480 30 300 (true, true).

(** * Properties *)

(** ** Severity classification *)

Section Severity.

(** Of the four names [_determine_severity] can look up, only [CRITICAL]
    is a member of [DamageSeverity]. *)
Lemma determine_severity_cases (bounding_box : BoundingBox) (c : Q) :
  _determine_severity bounding_box c =
    if Qle_bool confidence_high c then
      if Qle_bool area_medium (area bounding_box) then Ok CRITICAL
      else if Qle_bool area_small (area bounding_box)
           then Raise (Exn AttributeError "SEVERE")
           else Raise (Exn AttributeError "MODERATE")
    else if Qle_bool confidence_medium c then
      if Qle_bool area_medium (area bounding_box)
      then Raise (Exn AttributeError "SEVERE")
      else if Qle_bool area_small (area bounding_box)
           then Raise (Exn AttributeError "MODERATE")
           else Raise (Exn AttributeError "MINOR")
    else
      if Qle_bool area_medium (area bounding_box)
      then Raise (Exn AttributeError "MODERATE")
      else Raise (Exn AttributeError "MINOR").
Proof.
  unfold _determine_severity.
  repeat match goal with |- context [if ?b then _ else _] => destruct b end;
    reflexivity.
Qed.

(** The classification returns a level exactly in the top-left cell of the
    table: high confidence and an area of at least 5000. *)
Lemma determine_severity_returns (bounding_box : BoundingBox) (c : Q) (s : DamageSeverity) :
  _determine_severity bounding_box c = Ok s <->
  s = CRITICAL /\ (confidence_high <= c)%Q /\ (area_medium <= area bounding_box)%Q.
Proof.
  rewrite determine_severity_cases.
  destruct (Qle_bool confidence_high c) eqn:Hc;
    destruct (Qle_bool area_medium (area bounding_box)) eqn:Ha;
    destruct (Qle_bool confidence_medium c) eqn:Hm;
    destruct (Qle_bool area_small (area bounding_box)) eqn:Hs;
    (split; [intros H; try discriminate H | intros (-> & Hc' & Ha')]);
    try (apply Qle_bool_iff in Hc' ; apply Qle_bool_iff in Ha'; congruence);
    try (injection H as <-; repeat split; by apply Qle_bool_iff).
Qed.

(** C1.  The three examples of the specification, run on the code: an area
    of 1200 at confidence 0.85 raises [AttributeError] (there is no member
    [SEVERE]) where the table says SEVERE, 6000 at 0.9 gives [CRITICAL], and
    500 at 0.5 raises [AttributeError] (no member [MINOR]) where the table
    says MINOR. *)
Theorem determine_severity_spec_examples :
  _determine_severity (mkBoundingBox 0 0 40 30) (85 # 100)
    = Raise (Exn AttributeError "SEVERE") /\
  _determine_severity (mkBoundingBox 0 0 100 60) (9 # 10) = Ok CRITICAL /\
  _determine_severity (mkBoundingBox 0 0 25 20) (5 # 10)
    = Raise (Exn AttributeError "MINOR").
Proof. repeat split; vm_compute; reflexivity. Qed.

End Severity.

(** ** Per-frame detection *)

Section Frames.
Context `{DT : DatetimeLib}.

(** The detector builds the box with keywords [x1], [y1], [x2], [y2], which
    are not fields of [BoundingBox]: the construction raises. *)
Lemma damage_of_box_raises (self : YOLODamageDetector) (frame_number : Z)
    (n : nat) (box : yolo_box) :
  damage_of_box self frame_number n box
    = Raise (Exn TypeError "__init__() got an unexpected keyword argument x1").
Proof.
  unfold damage_of_box. destruct (box_xyxy box) as [[[x1 y1] x2] y2].
  reflexivity.
Qed.

Lemma results_loop_nil_or_raise (self : YOLODamageDetector) (frame_number : Z)
    (results : list yolo_result) :
  results_loop self frame_number results [] = Ok [] \/
  exists e, results_loop self frame_number results [] = Raise e.
Proof.
  induction results as [|[[|box boxes]|] results IH]; simpl; auto.
  rewrite damage_of_box_raises. right. by eexists.
Qed.

(** With a model loaded the per-frame detection returns, and what it
    returns is the empty list whenever the guarded block raised. *)
Lemma detect_damages_in_frame_returns (self : YOLODamageDetector) (model : YOLO)
    (frame_data : frame_bytes) (frame_number : Z) :
  _model self = Some model ->
  detect_damages_in_frame self frame_data frame_number =
    Ok (match detect_damages_in_frame_try self model frame_data frame_number with
        | Ok damages => damages
        | Raise _ => []
        end).
Proof.
  intros Hm. unfold detect_damages_in_frame. rewrite Hm.
  by destruct (detect_damages_in_frame_try _ _ _ _).
Qed.

(** As the box construction always raises, no frame ever yields a damage. *)
Lemma detect_damages_in_frame_empty (self : YOLODamageDetector) (model : YOLO)
    (frame_data : frame_bytes) (frame_number : Z) :
  _model self = Some model ->
  detect_damages_in_frame self frame_data frame_number = Ok [].
Proof.
  intros Hm. rewrite (detect_damages_in_frame_returns _ model) by done.
  unfold detect_damages_in_frame_try.
  destruct (imdecode self frame_data) as [[frame|]|e]; simpl; try done.
  destruct (model frame _) as [results|e]; simpl; try done.
  by destruct (results_loop_nil_or_raise self frame_number results)
    as [-> | [e ->]].
Qed.

Lemma frames_loop_returns (self : YOLODamageDetector) (model : YOLO) (fps : Q)
    (frames : list frame_bytes) (st : LoopState) :
  _model self = Some model ->
  exists per_frame,
    length per_frame = length frames /\
    frames_loop self fps frames st = Ok (foldl (record_frame fps) st per_frame).
Proof.
  intros Hm. revert st.
  induction frames as [|frame frames IH]; intros st; simpl.
  - by exists [].
  - rewrite (detect_damages_in_frame_returns _ model) by done. simpl.
    destruct (IH (record_frame fps st
      match detect_damages_in_frame_try self model frame (l_frame_number st) with
      | Ok damages => damages
      | Raise _ => []
      end)) as (per_frame & Hlen & ->).
    eexists (_ :: per_frame). simpl. by rewrite Hlen.
Qed.

Lemma frames_loop_empty (self : YOLODamageDetector) (model : YOLO) (fps : Q)
    (frames : list frame_bytes) (st : LoopState) :
  _model self = Some model ->
  frames_loop self fps frames st
    = Ok (foldl (record_frame fps) st (replicate (length frames) [])).
Proof.
  intros Hm. revert st.
  induction frames as [|frame frames IH]; intros st; simpl; [done|].
  rewrite (detect_damages_in_frame_empty _ model) by done. simpl. apply IH.
Qed.

End Frames.

(** ** The statistics of a video-level run *)

Section Statistics.
Context `{DT : DatetimeLib}.

Lemma sum_counts_count_one (k : string) (d : gmap string Z) :
  sum_counts (count_one k d) = sum_counts d + 1.
Proof.
  unfold sum_counts, count_one.
  assert (Hcomm : forall (m : gmap string Z) (j1 j2 : string) (z1 z2 y : Z),
             j1 ≠ j2 -> m !! j1 = Some z1 -> m !! j2 = Some z2 ->
             z1 + (z2 + y) = z2 + (z1 + y)) by (intros; lia).
  destruct (d !! k) as [n|] eqn:Hk; simpl.
  - rewrite <- (insert_delete_eq d).
    rewrite map_fold_insert_L; [|by eauto|by rewrite lookup_delete_eq].
    rewrite (map_fold_delete_L _ 0 k n d); [lia|by eauto|done].
  - rewrite map_fold_insert_L; [lia|by eauto|done].
Qed.

Lemma sum_confidence_snoc (damages : list Damage) (d : Damage) :
  (sum_confidence (damages ++ [d]) == sum_confidence damages + confidence d)%Q.
Proof.
  unfold sum_confidence.
  induction damages as [|d' damages IH]; simpl.
  - ring.
  - rewrite IH. ring.
Qed.

Lemma sum_confidence_bounds (damages : list Damage) :
  Forall valid_confidence damages ->
  (0 <= sum_confidence damages)%Q /\
  (sum_confidence damages <= inject_Z (Z.of_nat (length damages)))%Q.
Proof.
  unfold sum_confidence.
  induction 1 as [|d damages [Hlo Hhi] _ [IHlo IHhi]]; simpl length; simpl foldr.
  - split; apply Qle_refl.
  - rewrite Nat2Z.inj_succ, <- Z.add_1_l, inject_Z_plus.
    change (inject_Z 1) with 1%Q. split; lra.
Qed.

Lemma loop_start_invariant : loop_invariant loop_start.
Proof. split; reflexivity. Qed.

Lemma record_damage_invariant (ts : Q) (st : LoopState) (d : Damage) :
  loop_invariant st -> loop_invariant (record_damage ts st d).
Proof.
  intros [Ht Hty Hsev]. split; simpl.
  - rewrite sum_confidence_snoc, Ht. reflexivity.
  - rewrite sum_counts_count_one, Hty, length_app. simpl. lia.
  - rewrite sum_counts_count_one, Hsev, length_app. simpl. lia.
Qed.

Lemma record_damages_invariant (ts : Q) (ds : list Damage) (st : LoopState) :
  loop_invariant st -> loop_invariant (foldl (record_damage ts) st ds).
Proof.
  revert st. induction ds as [|d ds IH]; intros st Hst; simpl; [done|].
  by apply IH, record_damage_invariant.
Qed.

Lemma record_frame_invariant (fps : Q) (st : LoopState) (ds : list Damage) :
  loop_invariant st -> loop_invariant (record_frame fps st ds).
Proof.
  intros Hst. unfold record_frame.
  destruct (record_damages_invariant
              (if Qlt_bool 0 fps then inject_Z (l_frame_number st) / fps else 0)%Q
              ds st Hst) as [Ht Hty Hsev].
  by split.
Qed.

Lemma record_frames_invariant (fps : Q) (per_frame : list (list Damage))
    (st : LoopState) :
  loop_invariant st -> loop_invariant (foldl (record_frame fps) st per_frame).
Proof.
  revert st. induction per_frame as [|ds per_frame IH]; intros st Hst; simpl;
    [done|].
  by apply IH, record_frame_invariant.
Qed.

(** The damages of the loop are the damages of the frames, in order, each
    with the timestamp of its frame: their confidences are unchanged. *)
Lemma record_damages_confidences (ts : Q) (ds : list Damage) (st : LoopState) :
  confidence <$> l_damages (foldl (record_damage ts) st ds)
    = ((confidence <$> l_damages st) ++ (confidence <$> ds))%list /\
  l_frames_processed (foldl (record_damage ts) st ds) = l_frames_processed st /\
  l_frame_number (foldl (record_damage ts) st ds) = l_frame_number st.
Proof.
  revert st. induction ds as [|d ds IH]; intros st; simpl.
  - by rewrite app_nil_r.
  - destruct (IH (record_damage ts st d)) as (-> & -> & ->). simpl.
    by rewrite fmap_app, <- app_assoc.
Qed.

Lemma record_frames_confidences (fps : Q) (per_frame : list (list Damage))
    (st : LoopState) :
  confidence <$> l_damages (foldl (record_frame fps) st per_frame)
    = ((confidence <$> l_damages st) ++ (confidence <$> concat per_frame))%list /\
  l_frames_processed (foldl (record_frame fps) st per_frame)
    = l_frames_processed st + Z.of_nat (length per_frame).
Proof.
  revert st. induction per_frame as [|ds per_frame IH]; intros st; simpl.
  - rewrite app_nil_r. split; [done | lia].
  - destruct (IH (record_frame fps st ds)) as (-> & ->).
    unfold record_frame. simpl.
    destruct (record_damages_confidences
                (if Qlt_bool 0 fps then inject_Z (l_frame_number st) / fps else 0)%Q
                ds st) as (-> & -> & _).
    rewrite fmap_app, <- app_assoc. split; [done | lia].
Qed.

Lemma aggregate_confidences (fps : Q) (per_frame : list (list Damage)) :
  confidence <$> l_damages (aggregate fps per_frame) = confidence <$> concat per_frame /\
  l_frames_processed (aggregate fps per_frame) = Z.of_nat (length per_frame).
Proof.
  destruct (record_frames_confidences fps per_frame loop_start) as [H1 H2].
  split; [exact H1 | exact H2].
Qed.

Lemma sum_confidence_fmap (l1 l2 : list Damage) :
  confidence <$> l1 = confidence <$> l2 -> sum_confidence l1 = sum_confidence l2.
Proof.
  revert l2. induction l1 as [|d1 l1 IH]; intros [|d2 l2] H; simpl in *;
    try discriminate; [done|].
  injection H as Hd Hl. by rewrite Hd, (IH l2 Hl).
Qed.

Lemma valid_confidence_fmap (l1 l2 : list Damage) :
  confidence <$> l1 = confidence <$> l2 ->
  Forall valid_confidence l2 -> Forall valid_confidence l1.
Proof.
  revert l2. induction l1 as [|d1 l1 IH]; intros [|d2 l2] H Hv; simpl in *;
    try discriminate; [done|].
  injection H as Hd Hl. inversion Hv as [|? ? [Hlo Hhi] Hv']; subst.
  constructor; [|by eapply IH].
  unfold valid_confidence. by rewrite Hd.
Qed.

Lemma Qlt_bool_iff (a b : Q) : Qlt_bool a b = true <-> (a < b)%Q.
Proof.
  unfold Qlt_bool. rewrite negb_true_iff.
  split.
  - intros H. apply Qnot_le_lt. intros Hle. apply Qle_bool_iff in Hle. congruence.
  - intros H. destruct (Qle_bool b a) eqn:Hb; [|done].
    apply Qle_bool_iff in Hb. lra.
Qed.

Lemma Qlt_bool_false (a b : Q) : Qlt_bool a b = false <-> (b <= a)%Q.
Proof.
  unfold Qlt_bool. rewrite negb_false_iff. apply Qle_bool_iff.
Qed.

Lemma average_bounds (total : Q) (n : nat) :
  (0 < n)%nat -> (0 <= total)%Q -> (total <= inject_Z (Z.of_nat n))%Q ->
  (0 <= total / inject_Z (Z.of_nat n))%Q /\ (total / inject_Z (Z.of_nat n) <= 1)%Q.
Proof.
  intros Hn Hlo Hhi.
  assert (Hpos : (0 < inject_Z (Z.of_nat n))%Q).
  { change 0%Q with (inject_Z 0). rewrite <- Zlt_Qlt. lia. }
  split.
  - apply Qle_shift_div_l; [done | lra].
  - apply Qle_shift_div_r; [done | lra].
Qed.

(** C7.  The finalised statistics of a run whose frames gave the damages
    [per_frame] (confidences within bounds, elapsed time not negative):
    the average confidence is the sum of the confidences divided by the
    number of damages, and lies in [0,1], when there is a damage, and is 0
    when there is none; the frames per second are the frames processed
    divided by the elapsed time when that is positive, else 0. *)
Theorem final_statistics_averages (fps : Q) (per_frame : list (list Damage))
    (elapsed : Q)
    (Hconf : Forall valid_confidence (concat per_frame))
    (Htime : (0 <= elapsed)%Q) :
  exists s,
    final_statistics (aggregate fps per_frame) elapsed = Ok s /\
    (concat per_frame <> [] ->
       (average_confidence s ==
          sum_confidence (concat per_frame)
          / inject_Z (Z.of_nat (length (concat per_frame))))%Q /\
       (0 <= average_confidence s)%Q /\ (average_confidence s <= 1)%Q) /\
    (concat per_frame = [] -> average_confidence s = 0%Q) /\
    ((0 < elapsed)%Q ->
       frames_per_second s
         = (inject_Z (Z.of_nat (length per_frame)) / elapsed)%Q) /\
    (~ (0 < elapsed)%Q -> frames_per_second s = 0%Q).
Proof.
  destruct (aggregate_confidences fps per_frame) as [Hc Hf].
  destruct (record_frames_invariant fps per_frame loop_start loop_start_invariant)
    as [Htot _ _].
  fold (aggregate fps per_frame) in Htot.
  set (st := aggregate fps per_frame) in *.
  assert (Hlen : length (l_damages st) = length (concat per_frame)).
  { by rewrite <- (length_fmap confidence), Hc, length_fmap. }
  rewrite (sum_confidence_fmap _ _ Hc) in Htot.
  destruct (sum_confidence_bounds _ Hconf) as [Hlo Hhi].
  set (avg := match l_damages st with
              | [] => 0%Q
              | _ => (l_total_confidence st
                      / inject_Z (Z.of_nat (length (l_damages st))))%Q
              end).
  set (fpsv := if Qlt_bool 0 elapsed
               then (inject_Z (l_frames_processed st) / elapsed)%Q else 0%Q).
  assert (Havg : (0 <= avg)%Q /\ (avg <= 1)%Q).
  { unfold avg. destruct (l_damages st) as [|d ds] eqn:Hd; [lra|].
    rewrite Hlen.
    apply average_bounds; rewrite ?Htot; try done.
    rewrite <- Hlen. simpl. lia. }
  assert (Hfps : (0 <= fpsv)%Q).
  { unfold fpsv. destruct (Qlt_bool 0 elapsed) eqn:He; [|lra].
    apply Qlt_bool_iff in He. apply Qle_shift_div_l; [done|].
    rewrite Hf, Qmult_0_l. change 0%Q with (inject_Z 0). rewrite <- Zle_Qle. lia. }
  exists (mkStatistics (l_frames_processed st) (Z.of_nat (length (l_damages st)))
            (l_damages_by_type st) (l_damages_by_severity st) avg elapsed fpsv).
  split.
  - unfold final_statistics. fold avg. fold fpsv.
    unfold DetectionStatistics_post_init. simpl.
    destruct Havg as [Ha0 Ha1].
    apply Qle_bool_iff in Ha0, Ha1. rewrite Ha0, Ha1. simpl.
    apply Qlt_bool_false in Htime, Hfps. rewrite Htime, Hfps.
    rewrite Hf.
    destruct (Z.ltb_spec (Z.of_nat (length per_frame)) 0); [lia|].
    destruct (Z.ltb_spec (Z.of_nat (length (l_damages st))) 0); [lia|].
    done.
  - simpl. split; [|split; [|split]].
    + intros Hne. split; [|exact Havg].
      unfold avg. destruct (l_damages st) as [|d ds] eqn:Hd.
      * destruct (concat per_frame); [done | discriminate Hlen].
      * rewrite Hlen, Htot. reflexivity.
    + intros Hnil. unfold avg.
      destruct (l_damages st); [done|]. rewrite Hnil in Hlen. discriminate Hlen.
    + intros He. unfold fpsv. apply Qlt_bool_iff in He. by rewrite He, Hf.
    + intros He. unfold fpsv. destruct (Qlt_bool 0 elapsed) eqn:Hb; [|done].
      by apply Qlt_bool_iff in Hb.
Qed.

Lemma final_statistics_fields (st : LoopState) (elapsed : Q) (s : DetectionStatistics) :
  final_statistics st elapsed = Ok s ->
  total_damages_detected s = Z.of_nat (length (l_damages st)) /\
  damages_by_type s = l_damages_by_type st /\
  damages_by_severity s = l_damages_by_severity st /\
  total_frames_processed s = l_frames_processed st.
Proof.
  unfold final_statistics, DetectionStatistics_post_init.
  repeat match goal with |- context [if ?b then _ else _] => destruct b end;
    intros H; try discriminate H; by injection H as <-.
Qed.

(** Whatever the frames gave, the statistics count every damage of the
    list once, in the total and in each of the two maps. *)
Lemma aggregate_counts (fps : Q) (per_frame : list (list Damage)) (elapsed : Q)
    (s : DetectionStatistics) :
  final_statistics (aggregate fps per_frame) elapsed = Ok s ->
  total_damages_detected s = Z.of_nat (length (l_damages (aggregate fps per_frame))) /\
  length (l_damages (aggregate fps per_frame)) = length (concat per_frame) /\
  sum_counts (damages_by_type s) = total_damages_detected s /\
  sum_counts (damages_by_severity s) = total_damages_detected s.
Proof.
  intros Hs. apply final_statistics_fields in Hs as (-> & -> & -> & _).
  destruct (record_frames_invariant fps per_frame loop_start loop_start_invariant)
    as [_ Hty Hsev].
  destruct (aggregate_confidences fps per_frame) as [Hc _].
  repeat split; try done.
  by rewrite <- (length_fmap confidence), Hc, length_fmap.
Qed.

(** [d[k] = d.get(k, 0) + 1] adds one to the count of [k] and leaves the
    count of every other key as it is. *)
Lemma count_one_lookup (k k' : string) (d : gmap string Z) :
  default 0 (count_one k d !! k')
    = default 0 (d !! k') + (if bool_decide (k = k') then 1 else 0).
Proof.
  unfold count_one. case_bool_decide as Hk.
  - subst k'. by rewrite lookup_insert_eq.
  - rewrite lookup_insert_ne by done. lia.
Qed.

Lemma filter_app_length {A} (f : A -> bool) (l1 l2 : list A) :
  length (List.filter f (l1 ++ l2))
    = (length (List.filter f l1) + length (List.filter f l2))%nat.
Proof. by rewrite List.filter_app, length_app. Qed.

(** The per-key counts after the damages of one frame. *)
Lemma record_damages_by_key (ts : Q) (ds : list Damage) (st : LoopState)
    (k : string) :
  default 0 (l_damages_by_type (foldl (record_damage ts) st ds) !! k)
    = default 0 (l_damages_by_type st !! k)
      + Z.of_nat (length (List.filter
          (fun d => bool_decide (DamageType_value (damage_type d) = k)) ds)) /\
  default 0 (l_damages_by_severity (foldl (record_damage ts) st ds) !! k)
    = default 0 (l_damages_by_severity st !! k)
      + Z.of_nat (length (List.filter
          (fun d => bool_decide (DamageSeverity_value (severity d) = k)) ds)).
Proof.
  revert st. induction ds as [|d ds IH]; intros st.
  - simpl. split; lia.
  - cbn [foldl List.filter]. destruct (IH (record_damage ts st d)) as [-> ->].
    unfold record_damage.
    cbn [l_damages_by_type l_damages_by_severity set_timestamp damage_type severity].
    rewrite !count_one_lookup.
    split; case_bool_decide; cbn [length]; lia.
Qed.

(** The per-key counts after the frames whose damages are [per_frame]. *)
Lemma record_frames_by_key (fps : Q) (per_frame : list (list Damage))
    (st : LoopState) (k : string) :
  default 0 (l_damages_by_type (foldl (record_frame fps) st per_frame) !! k)
    = default 0 (l_damages_by_type st !! k)
      + Z.of_nat (length (List.filter
          (fun d => bool_decide (DamageType_value (damage_type d) = k))
          (concat per_frame))) /\
  default 0 (l_damages_by_severity (foldl (record_frame fps) st per_frame) !! k)
    = default 0 (l_damages_by_severity st !! k)
      + Z.of_nat (length (List.filter
          (fun d => bool_decide (DamageSeverity_value (severity d) = k))
          (concat per_frame))).
Proof.
  revert st. induction per_frame as [|ds per_frame IH]; intros st.
  - simpl. split; lia.
  - cbn [foldl concat]. destruct (IH (record_frame fps st ds)) as [-> ->].
    rewrite !filter_app_length.
    unfold record_frame. cbn [l_damages_by_type l_damages_by_severity].
    destruct (record_damages_by_key
                (if Qlt_bool 0 fps then inject_Z (l_frame_number st) / fps else 0)%Q
                ds st k) as [-> ->].
    split; lia.
Qed.

(** The result of a run carries the damages and the statistics of its
    loop. *)
Lemma detect_damages_in_video_fields (self : YOLODamageDetector) (fps : Q)
    (frames : list frame_bytes) (elapsed : Q) (end_time : datetime)
    (result_id : string) (video : Video) (threshold : Q) (r : DetectionResult) :
  detect_damages_in_video self (Some (fps, frames)) elapsed end_time result_id
    video threshold = Ok r ->
  exists self' st,
    set_confidence_threshold self threshold = Ok self' /\
    frames_loop self' fps frames loop_start = Ok st /\
    r_damages r = l_damages st /\
    final_statistics st elapsed = Ok (r_statistics r).
Proof.
  unfold detect_damages_in_video. intros Hrun.
  destruct (_model self) as [model|]; [|discriminate Hrun].
  destruct (set_confidence_threshold self threshold) as [self'|e];
    [|discriminate Hrun].
  simpl in Hrun.
  destruct (frames_loop self' fps frames loop_start) as [st|e] eqn:Hloop;
    [|discriminate Hrun].
  simpl in Hrun.
  destruct (final_statistics st elapsed) as [statistics|e] eqn:Hs;
    [|discriminate Hrun].
  simpl in Hrun. unfold DetectionResult_post_init in Hrun. simpl in Hrun.
  repeat match type of Hrun with
         | context [if ?b then _ else _] => destruct b
         end; try discriminate Hrun.
  injection Hrun as <-. by exists self', st.
Qed.

(** In a [DetectionResult] produced by [detect_damages_in_video] the total
    of damages detected is the length of the damages list, and the counts of
    each of the two maps add up to that total. *)
Lemma detect_damages_in_video_counts (self : YOLODamageDetector) (cap : capture)
    (elapsed : Q) (end_time : datetime) (result_id : string) (video : Video)
    (threshold : Q) (r : DetectionResult) :
  detect_damages_in_video self cap elapsed end_time result_id video threshold
    = Ok r ->
  total_damages_detected (r_statistics r) = Z.of_nat (length (r_damages r)) /\
  sum_counts (damages_by_type (r_statistics r))
    = total_damages_detected (r_statistics r) /\
  sum_counts (damages_by_severity (r_statistics r))
    = total_damages_detected (r_statistics r).
Proof.
  intros Hrun.
  destruct cap as [[fps frames]|].
  - destruct (detect_damages_in_video_fields _ _ _ _ _ _ _ _ _ Hrun)
      as (self' & st & Hset & Hloop & Hd & Hs).
    assert (Hm : exists model, _model self' = Some model).
    { unfold detect_damages_in_video in Hrun. unfold set_confidence_threshold in Hset.
      destruct (_model self) as [model|] eqn:Hmodel; [|discriminate Hrun].
      destruct (negb (threshold_in_range threshold)); [discriminate Hset|].
      injection Hset as <-. by exists model. }
    destruct Hm as [model Hm].
    destruct (frames_loop_returns self' model fps frames loop_start Hm)
      as (per_frame & _ & Hloop').
    rewrite Hloop in Hloop'. injection Hloop' as ->.
    fold (aggregate fps per_frame) in Hs, Hd.
    apply aggregate_counts in Hs as (H1 & _ & H3 & H4). by rewrite Hd.
  - unfold detect_damages_in_video in Hrun.
    destruct (_model self); [|discriminate Hrun].
    destruct (set_confidence_threshold self threshold); discriminate Hrun.
Qed.

(** C8.  The statistics finalised after a loop whose frames gave the damages
    [per_frame] (any lists, one per frame): the damages list holds one entry
    per observed damage, the total of damages detected is its length, the
    count kept under each type token is the number of observed damages of
    that type (each damage adds one to the count of its own type and to no
    other), so that the counts of the damages-by-type map add up to the
    total; the same holds of the damages-by-severity map.  The
    [DetectionResult] of a run of [detect_damages_in_video] whose frames gave
    [per_frame] carries that damages list and those statistics. *)
Theorem video_statistics_counts (fps : Q) (per_frame : list (list Damage))
    (elapsed : Q) (s : DetectionStatistics)
    (Hs : final_statistics (aggregate fps per_frame) elapsed = Ok s) :
  length (l_damages (aggregate fps per_frame)) = length (concat per_frame) /\
  total_damages_detected s
    = Z.of_nat (length (l_damages (aggregate fps per_frame))) /\
  sum_counts (damages_by_type s) = total_damages_detected s /\
  sum_counts (damages_by_severity s) = total_damages_detected s /\
  (forall k,
     default 0 (damages_by_type s !! k)
     = Z.of_nat (length (List.filter
         (fun d => bool_decide (DamageType_value (damage_type d) = k))
         (concat per_frame)))) /\
  (forall k,
     default 0 (damages_by_severity s !! k)
     = Z.of_nat (length (List.filter
         (fun d => bool_decide (DamageSeverity_value (severity d) = k))
         (concat per_frame)))) /\
  (forall self self' frames end_time result_id video threshold r,
     set_confidence_threshold self threshold = Ok self' ->
     frames_loop self' fps frames loop_start = Ok (aggregate fps per_frame) ->
     detect_damages_in_video self (Some (fps, frames)) elapsed end_time
       result_id video threshold = Ok r ->
     r_damages r = l_damages (aggregate fps per_frame) /\ r_statistics r = s).
Proof.
  pose proof (aggregate_counts _ _ _ _ Hs) as (Htot & Hlen & Hty & Hsev).
  pose proof (final_statistics_fields _ _ _ Hs) as (_ & Hmt & Hms & _).
  split; [exact Hlen|]. split; [exact Htot|].
  split; [exact Hty|]. split; [exact Hsev|].
  split; [|split].
  - intros k. rewrite Hmt.
    destruct (record_frames_by_key fps per_frame loop_start k) as [Hk _].
    fold (aggregate fps per_frame) in Hk. rewrite Hk.
    cbn [loop_start l_damages_by_type]. rewrite lookup_empty. simpl. lia.
  - intros k. rewrite Hms.
    destruct (record_frames_by_key fps per_frame loop_start k) as [_ Hk].
    fold (aggregate fps per_frame) in Hk. rewrite Hk.
    cbn [loop_start l_damages_by_severity]. rewrite lookup_empty. simpl. lia.
  - intros self self' frames end_time result_id video threshold r Hset Hloop Hrun.
    destruct (detect_damages_in_video_fields _ _ _ _ _ _ _ _ _ Hrun)
      as (self'' & st & Hset' & Hloop' & Hd & Hs').
    rewrite Hset in Hset'. injection Hset' as <-.
    rewrite Hloop in Hloop'. injection Hloop' as <-.
    split; [exact Hd|]. rewrite Hs in Hs'. by injection Hs'.
Qed.

End Statistics.

(** ** A video-level run over frames that fail *)

Section VideoRun.
Context `{DT : DatetimeLib}.

Lemma concat_replicate_nil (n : nat) : concat (replicate n (@nil Damage)) = [].
Proof. induction n; simpl; auto. Qed.

(** The statistics of a run none of whose frames gave a damage are built. *)
Lemma final_statistics_empty_run (fps : Q) (n : nat) (elapsed : Q) :
  (0 <= elapsed)%Q ->
  exists s, final_statistics (aggregate fps (replicate n [])) elapsed = Ok s.
Proof.
  intros Htime.
  destruct (aggregate_confidences fps (replicate n [])) as [Hc Hf].
  rewrite concat_replicate_nil in Hc. apply fmap_nil_inv in Hc.
  rewrite length_replicate in Hf.
  unfold final_statistics, DetectionStatistics_post_init.
  rewrite Hc, Hf. simpl.
  destruct (Z.ltb_spec (Z.of_nat n) 0); [lia|].
  apply Qlt_bool_false in Htime as Htime'. rewrite Htime'.
  destruct (Qlt_bool 0 elapsed) eqn:Hpos.
  - apply Qlt_bool_iff in Hpos.
    assert (Hfps : Qlt_bool (inject_Z (Z.of_nat n) / elapsed) 0 = false).
    { apply Qlt_bool_false. apply Qle_shift_div_l; [done|].
      rewrite Qmult_0_l. change 0%Q with (inject_Z 0). rewrite <- Zle_Qle. lia. }
    rewrite Hfps. by eexists.
  - by eexists.
Qed.

(** With the model loaded, the threshold in range, the capture open, a
    non-negative elapsed time and a model version, the video-level run
    returns a result. *)
Lemma detect_damages_in_video_returns (self : YOLODamageDetector) (model : YOLO)
    (fps : Q) (frames : list frame_bytes) (elapsed : Q) (end_time : datetime)
    (result_id : string) (video : Video) (threshold : Q) :
  _model self = Some model ->
  threshold_in_range threshold = true ->
  (0 <= elapsed)%Q ->
  _model_version self <> "" ->
  exists r,
    detect_damages_in_video self (Some (fps, frames)) elapsed end_time result_id
      video threshold = Ok r.
Proof.
  intros Hm Hthr Htime Hversion.
  unfold detect_damages_in_video, set_confidence_threshold.
  rewrite Hm, Hthr. simpl.
  rewrite (frames_loop_empty _ model) by done. simpl.
  fold (aggregate fps (replicate (length frames) [])).
  destruct (final_statistics_empty_run fps (length frames) elapsed Htime)
    as (s & ->).
  simpl. unfold DetectionResult_post_init. simpl.
  unfold threshold_in_range in Hthr. rewrite Hthr. simpl.
  destruct (String.eqb_spec (_model_version self) ""); [done|].
  by eexists.
Qed.

(** C10.  Once the model is loaded per-frame detection never raises: it
    returns a list, and that list is empty whenever frame decoding, model
    inference, bounding-box construction or [Damage] construction raised;
    in the video-level loop such a frame is counted as processed, adds no
    damage, and the loop goes on and ends normally, so that the video-level
    run returns its result instead of raising. *)
Theorem detect_damages_in_frame_never_raises (self : YOLODamageDetector)
    (model : YOLO) (frame_data : frame_bytes) (frame_number : Z)
    (Hloaded : _model self = Some model) :
  (exists damages,
     detect_damages_in_frame self frame_data frame_number = Ok damages) /\
  (forall e,
     detect_damages_in_frame_try self model frame_data frame_number = Raise e ->
     detect_damages_in_frame self frame_data frame_number = Ok []) /\
  (forall e fps frames st,
     detect_damages_in_frame_try self model frame_data (l_frame_number st) = Raise e ->
     frames_loop self fps (frame_data :: frames) st
       = frames_loop self fps frames (record_frame fps st []) /\
     l_damages (record_frame fps st []) = l_damages st /\
     l_frames_processed (record_frame fps st []) = l_frames_processed st + 1) /\
  (forall fps frames st, exists st', frames_loop self fps frames st = Ok st') /\
  (forall fps frames elapsed end_time result_id video threshold,
     threshold_in_range threshold = true -> (0 <= elapsed)%Q ->
     _model_version self <> "" ->
     exists r,
       detect_damages_in_video self (Some (fps, frames)) elapsed end_time
         result_id video threshold = Ok r).
Proof.
  split; [|split; [|split; [|split]]].
  - rewrite (detect_damages_in_frame_returns _ model) by done. by eexists.
  - intros e He. rewrite (detect_damages_in_frame_returns _ model) by done.
    by rewrite He.
  - intros e fps frames st He. split; [|done]. simpl.
    rewrite (detect_damages_in_frame_returns _ model) by done.
    by rewrite He.
  - intros fps frames st.
    destruct (frames_loop_returns self model fps frames st Hloaded)
      as (per_frame & _ & ->).
    by eexists.
  - intros. by eapply detect_damages_in_video_returns.
Qed.

End VideoRun.

(** ** Persisted records of videos *)

Section Persistence.
Context `{DT : DatetimeLib}.

Lemma VideoStatus_token_stable (s : VideoStatus) :
  VideoStatus_of_value (VideoStatus_value s) = Ok s.
Proof. by destruct s. Qed.

Lemma VideoFormat_token_stable (f : VideoFormat) :
  VideoFormat_of_value (VideoFormat_value f) = Ok f.
Proof. by destruct f. Qed.

Lemma metadata_round_trip (m : VideoMetadata) :
  dict_to_metadata (metadata_to_dict m) = VideoMetadata_post_init m.
Proof.
  unfold dict_to_metadata, metadata_to_dict. simpl.
  rewrite VideoFormat_token_stable. simpl. by destruct m.
Qed.

Lemma damages_to_dict_returns (damages : list Damage) :
  Forall datetime_stamped damages ->
  exists records, mapM Damage_to_dict damages = Ok records.
Proof.
  induction 1 as [|d damages [t Ht] _ [records IH]]; simpl.
  - by eexists.
  - rewrite IH. unfold Damage_to_dict. rewrite Ht. simpl.
    by eexists.
Qed.

Lemma video_to_dict_fields (v : Video) (record : VideoDict) :
  _video_to_dict v = Ok record ->
  vd_id record = v_id v /\
  vd_name record = v_name v /\
  vd_file_path record = v_file_path v /\
  vd_status record = VideoStatus_value (v_status v) /\
  vd_created_at record = isoformat (v_created_at v) /\
  vd_updated_at record = (isoformat <$> v_updated_at v) /\
  vd_metadata record = (metadata_to_dict <$> v_metadata v).
Proof.
  unfold _video_to_dict.
  destruct (mapM Damage_to_dict (v_damages v)); simpl; intros H;
    [|discriminate H].
  by injection H as <-.
Qed.

Lemma Video_post_init_reloaded (exists_ : Path -> bool) (v : Video) :
  Video_post_init exists_ v = Ok v ->
  Video_post_init exists_ (reloaded v) = Ok (reloaded v).
Proof.
  unfold Video_post_init. simpl.
  repeat match goal with |- context [if ?b then _ else _] => destruct b end;
    intros H; try discriminate H; done.
Qed.

(** C6 (as amended).  Writing a video to its record and reading the record
    back gives the video with its id, name, file path, status, metadata and
    created/updated timestamps, the status and the format being written as
    the [.value] tokens of their enumerations; the damages come back empty
    and the error message, the processing date and the processing time come
    back unset.  So the round trip is the identity exactly on videos that
    have those four empty. *)
Theorem video_round_trip (exists_ : Path -> bool) (v : Video)
    (Hfile : Video_post_init exists_ v = Ok v)
    (Hmeta : forall m, v_metadata v = Some m -> VideoMetadata_post_init m = Ok m)
    (Hstamps : Forall datetime_stamped (v_damages v)) :
  exists record,
    _video_to_dict v = Ok record /\
    vd_status record = VideoStatus_value (v_status v) /\
    vd_metadata record = (metadata_to_dict <$> v_metadata v) /\
    _dict_to_video exists_ record = Ok (reloaded v) /\
    (reloaded v = v <->
       v_damages v = [] /\ v_processed_at v = None /\
       v_processing_time v = None /\ v_error_message v = None).
Proof.
  destruct (damages_to_dict_returns _ Hstamps) as [records Hrecords].
  eexists. split; [|split; [|split; [|split]]].
  - unfold _video_to_dict. rewrite Hrecords. simpl. reflexivity.
  - reflexivity.
  - reflexivity.
  - unfold _dict_to_video. simpl.
    assert (Hmd : match metadata_to_dict <$> v_metadata v with
                  | Some md => Some <$> dict_to_metadata md
                  | None => Ok None
                  end = Ok (v_metadata v)).
    { destruct (v_metadata v) as [m|] eqn:Hm; simpl; [|done].
      by rewrite metadata_round_trip, (Hmeta m eq_refl). }
    rewrite Hmd. simpl.
    rewrite VideoStatus_token_stable. simpl.
    rewrite fromisoformat_isoformat. simpl.
    assert (Hup : match isoformat <$> v_updated_at v with
                  | Some text =>
                      if String.eqb text "" then Ok None
                      else Some <$> fromisoformat text
                  | None => Ok None
                  end = Ok (v_updated_at v)).
    { destruct (v_updated_at v) as [t|]; simpl; [|done].
      destruct (String.eqb_spec (isoformat t) "") as [Hempty|_].
      - by apply isoformat_nonempty in Hempty.
      - by rewrite fromisoformat_isoformat. }
    rewrite Hup. simpl.
    by apply Video_post_init_reloaded.
  - unfold reloaded. split.
    + intros H. rewrite <- H. simpl. done.
    + intros (Hd & Hp & Ht & He). destruct v; simpl in *. by subst.
Qed.

End Persistence.

(** ** The orchestrator *)

Section Orchestrator.
Context `{DT : DatetimeLib}.

Lemma update_returns (io : option exn) (data : gmap string VideoDict)
    (video : Video) (vs : gmap string VideoDict) :
  update io data video = Ok vs ->
  exists record,
    _video_to_dict video = Ok record /\
    vs = <[v_id video := record]> data /\
    vd_status record = VideoStatus_value (v_status video).
Proof.
  unfold update. destruct (data !! v_id video); [|discriminate].
  destruct (_video_to_dict video) as [record|] eqn:Hrecord; simpl;
    [|discriminate].
  destruct io; [discriminate|]. intros H. injection H as <-.
  exists record. repeat split.
  by apply video_to_dict_fields in Hrecord as (_ & _ & _ & ? & _).
Qed.

Lemma prepare_entity (env : Collaborators) (video_path : Path) (video : Video) :
  prepare env video_path = Ok video ->
  v_status video = PROCESSING /\ v_error_message video = None /\
  v_damages video = [] /\ v_id video = new_video_id env.
Proof.
  unfold prepare.
  destruct (negb (path_exists env video_path)); [discriminate|].
  destruct (negb (validate_video env video_path)); [discriminate|].
  destruct (ensure_model env); simpl; [|discriminate].
  destruct (extract_metadata env video_path); simpl; [|discriminate].
  unfold Video_post_init. simpl.
  repeat match goal with |- context [if ?b then _ else _] => destruct b end;
    intros H; try discriminate H.
  by injection H as <-.
Qed.



(** C5 (as amended).  When detection succeeded with damages, annotation was
    requested and the renderer raises [e], the run fails: an exception is
    raised to the caller, no [DetectionResult] is persisted, and the entity
    ends FAILED; when the FAILED write meets no i/o failure the exception
    raised is [e] and the stored record has status ["failed"]. *)
Theorem execute_renderer_failure (env : Collaborators) (st : Stores)
    (video_path : Path) (threshold : Q) (video : Video)
    (vs : gmap string VideoDict) (detection_result : DetectionResult) (e : exn)
    (Hprepared : prepare env video_path = Ok video)
    (Hsave : save (io_save env) (videos st) video = Ok vs)
    (Hthreshold : threshold_in_range threshold = true)
    (Hdetected : detect env video threshold = Ok detection_result)
    (Hdamages : has_damages detection_result = true)
    (Hmkdir : mkdir_output env (path_join (path_parent video_path) "output") = Ok tt)
    (Hrender :
       create_annotated_video env video detection_result
         (path_join (path_join (path_parent video_path) "output")
                    ("annotated_" ++ path_name video_path)) = Raise e) :
  (exists e', run_result (execute env st video_path threshold true) = Raise e') /\
  detections (run_stores (execute env st video_path threshold true)) = detections st /\
  (exists v, run_video (execute env st video_path threshold true) = Some v /\
             v_status v = FAILED) /\
  (io_update_failed env = None ->
   run_result (execute env st video_path threshold true) = Raise e /\
   exists record,
     videos (run_stores (execute env st video_path threshold true)) !! v_id video
       = Some record /\
     vd_status record = "failed").
Proof.
  assert (Hbody : execute_body env st video video_path threshold true
                  = Failed e (mkStores vs (detections st)) video).
  { unfold execute_body. rewrite Hsave, Hthreshold. simpl. rewrite Hdetected.
    unfold annotate. rewrite Hdamages. simpl. rewrite Hmkdir. simpl.
    by rewrite Hrender. }
  unfold execute, execute_try. rewrite Hprepared, Hbody. unfold execute_except.
  apply prepare_entity in Hprepared as (_ & _ & Hnone & _).
  assert (Hin : exists record0, vs !! v_id video = Some record0).
  { unfold save in Hsave. destruct (_video_to_dict video); [|discriminate].
    simpl in Hsave. destruct (io_save env); [discriminate|].
    injection Hsave as <-. eexists. apply lookup_insert_eq. }
  destruct Hin as [record0 Hin].
  assert (Hdict : exists record, _video_to_dict (set_status FAILED video) = Ok record /\
                                 vd_status record = "failed").
  { unfold _video_to_dict. simpl. rewrite Hnone. simpl. by eexists. }
  destruct Hdict as (record & Hdict & Hstatus).
  split; [|split; [|split]].
  - destruct (update _ _ _); by eexists.
  - by destruct (update _ _ _).
  - exists (set_status FAILED video). by destruct (update _ _ _).
  - intros Hio. unfold update. simpl. rewrite Hin, Hdict, Hio. simpl.
    split; [done|]. exists record. by rewrite lookup_insert_eq.
Qed.

End Orchestrator.

(** ** The application service *)

Section AppService.
Context `{DT : DatetimeLib}.

Lemma admission_conflict (settings : Settings) (fs : FileSystem)
    (processing_videos : gmap string bool) (video_path : Path) :
  admission settings fs processing_videos video_path = Raise (already_processing video_path)
  <-> is_Some (processing_videos !! video_path).
Proof.
  unfold admission, already_processing.
  destruct (processing_videos !! video_path) as [b|] eqn:Hin.
  - split; [by eexists | done].
  - split; [|by intros [? ?]].
    repeat match goal with |- context [if ?b then _ else _] => destruct b end;
      simpl; intros H; discriminate H.
Qed.

Lemma admission_returns (settings : Settings) (fs : FileSystem)
    (processing_videos admitted : gmap string bool) (video_path : Path) :
  admission settings fs processing_videos video_path = Ok admitted ->
  processing_videos !! video_path = None /\
  admitted = <[video_path := true]> processing_videos.
Proof.
  unfold admission. destruct (processing_videos !! video_path); [discriminate|].
  repeat match goal with |- context [if ?b then _ else _] => destruct b end;
    intros H; try discriminate H.
  by injection H as <-.
Qed.

(** A free path that passes the three file checks is admitted: the set
    handed on is the admission set with the path inserted. *)
Lemma admission_passes (settings : Settings) (fs : FileSystem)
    (processing_videos : gmap string bool) (video_path : Path) :
  processing_videos !! video_path = None ->
  fs_exists fs video_path = true ->
  is_supported_format settings video_path = true ->
  fs_size fs video_path <= max_video_size_bytes settings ->
  admission settings fs processing_videos video_path
    = Ok (<[video_path := true]> processing_videos).
Proof.
  intros Hfree Hexists Hformat Hsize. unfold admission.
  rewrite Hfree, Hexists, Hformat. simpl.
  by destruct (Z.ltb_spec (max_video_size_bytes settings) (fs_size fs video_path));
    [lia|].
Qed.

(** Admission succeeds only for a free path that passes the file checks. *)
Lemma admission_checks (settings : Settings) (fs : FileSystem)
    (processing_videos admitted : gmap string bool) (video_path : Path) :
  admission settings fs processing_videos video_path = Ok admitted ->
  fs_exists fs video_path = true /\
  is_supported_format settings video_path = true /\
  fs_size fs video_path <= max_video_size_bytes settings.
Proof.
  unfold admission. destruct (processing_videos !! video_path); [discriminate|].
  destruct (fs_exists fs video_path); [|discriminate]. simpl.
  destruct (is_supported_format settings video_path); [|discriminate]. simpl.
  destruct (Z.ltb_spec (max_video_size_bytes settings) (fs_size fs video_path));
    [discriminate|].
  intros _. repeat split; lia.
Qed.

(** C9.  A submission of [video_path] is rejected with the
    already-being-processed error exactly when the path is in the admission
    set (which it then leaves as it is).  A path is admitted exactly when it
    is free and passes the file checks (the file exists, has a supported
    format and is not too large); the path is then in the set handed to the
    orchestrator call, and however that call ends (returned, raised or
    cancelled: [run] is arbitrary) and whatever other tasks did to the set
    meanwhile, the path is not in the set afterwards, and a new submission of
    the same path is admitted again: it is inserted into the set and its
    orchestrator call runs.  A free path that fails a file check is rejected
    with another error and stays free. *)
Theorem process_single_video_admission (settings : Settings) (fs : FileSystem)
    (run : gmap string bool -> outcome DetectionResult * gmap string bool)
    (processing_videos : gmap string bool) (video_path : Path) :
  (fst (process_single_video settings fs run processing_videos video_path)
     = Rejected (already_processing video_path)
   <-> is_Some (processing_videos !! video_path)) /\
  (is_Some (processing_videos !! video_path) ->
   snd (process_single_video settings fs run processing_videos video_path)
     = processing_videos) /\
  ((exists admitted,
      admission settings fs processing_videos video_path = Ok admitted)
   <-> processing_videos !! video_path = None /\
       fs_exists fs video_path = true /\
       is_supported_format settings video_path = true /\
       fs_size fs video_path <= max_video_size_bytes settings) /\
  (processing_videos !! video_path = None ->
   fs_exists fs video_path = true ->
   is_supported_format settings video_path = true ->
   fs_size fs video_path <= max_video_size_bytes settings ->
   let admitted := <[video_path := true]> processing_videos in
   let after :=
     snd (process_single_video settings fs run processing_videos video_path) in
   admission settings fs processing_videos video_path = Ok admitted /\
   is_video_processing admitted video_path = true /\
   process_single_video settings fs run processing_videos video_path
     = (Ran (fst (run admitted)), delete video_path (snd (run admitted))) /\
   is_video_processing after video_path = false /\
   admission settings fs after video_path = Ok (<[video_path := true]> after) /\
   forall run',
     process_single_video settings fs run' after video_path
     = (Ran (fst (run' (<[video_path := true]> after))),
        delete video_path (snd (run' (<[video_path := true]> after))))) /\
  (processing_videos !! video_path = None ->
   snd (process_single_video settings fs run processing_videos video_path)
     !! video_path = None /\
   forall settings' fs' run',
     fst (process_single_video settings' fs' run'
            (snd (process_single_video settings fs run processing_videos video_path))
            video_path)
     ≠ Rejected (already_processing video_path)).
Proof.
  assert (Hreleased : processing_videos !! video_path = None ->
            snd (process_single_video settings fs run processing_videos video_path)
              !! video_path = None).
  { intros Hfree. unfold process_single_video.
    destruct (admission settings fs processing_videos video_path); simpl.
    - destruct (run a). simpl. apply lookup_delete_eq.
    - done. }
  assert (Hiff : forall settings fs run (pv : gmap string bool),
            fst (process_single_video settings fs run pv video_path)
              = Rejected (already_processing video_path)
            <-> is_Some (pv !! video_path)).
  { clear. intros settings fs run pv. rewrite <- (admission_conflict settings fs).
    unfold process_single_video.
    destruct (admission settings fs pv video_path) as [admitted|e]; simpl.
    - destruct (run admitted). simpl. split; discriminate.
    - split; [by intros [= ->] | by intros [= ->]]. }
  assert (Hruns : forall run (pv : gmap string bool),
            admission settings fs pv video_path = Ok (<[video_path := true]> pv) ->
            process_single_video settings fs run pv video_path
            = (Ran (fst (run (<[video_path := true]> pv))),
               delete video_path (snd (run (<[video_path := true]> pv))))).
  { clear. intros run pv Hadm. unfold process_single_video. rewrite Hadm.
    by destruct (run _). }
  split; [apply Hiff|]. split; [|split; [|split; [|split]]].
  - intros Hin. apply (admission_conflict settings fs) in Hin.
    unfold process_single_video. by rewrite Hin.
  - split.
    + intros [admitted Hadm]. split.
      * by apply admission_returns in Hadm as [? _].
      * by apply admission_checks in Hadm.
    + intros (Hfree & Hexists & Hformat & Hsize). eexists.
      by apply admission_passes.
  - intros Hfree Hexists Hformat Hsize admitted after.
    pose proof (admission_passes settings fs processing_videos video_path
                  Hfree Hexists Hformat Hsize) as Hadm.
    assert (Hafter : after !! video_path = None) by by apply Hreleased.
    pose proof (admission_passes settings fs after video_path
                  Hafter Hexists Hformat Hsize) as Hagain.
    split; [exact Hadm|]. split.
    { unfold is_video_processing, admitted. apply bool_decide_eq_true_2.
      rewrite lookup_insert_eq. by eexists. }
    split; [by apply Hruns|]. split.
    { unfold is_video_processing. apply bool_decide_eq_false_2.
      rewrite Hafter. by intros [? ?]. }
    split; [exact Hagain|].
    intros run'. by apply Hruns.
  - by apply Hreleased.
  - intros settings' fs' run' Hrej. apply Hiff in Hrej.
    rewrite (Hreleased H) in Hrej. by destruct Hrej.
Qed.

(** *** Batch submission *)

Lemma precheck_admissible (settings : Settings) (fs : FileSystem)
    (video_paths : list Path) :
  precheck settings fs video_paths = Ok tt <->
  Forall (admissible settings fs) video_paths.
Proof.
  induction video_paths as [|p ps IH]; simpl.
  - split; [constructor | done].
  - destruct (fs_exists fs p) eqn:He; simpl.
    + destruct (is_supported_format settings p) eqn:Hs; simpl.
      * rewrite IH. split; [by constructor | by inversion 1].
      * split; [discriminate | inversion 1 as [|? ? [_ ?] ?]; congruence].
    + split; [discriminate | inversion 1 as [|? ? [? _] ?]; congruence].
Qed.

Lemma separate_values (results : list (result DetectionResult))
    (successful_results : list DetectionResult) (errors : list string) :
  fst (separate results successful_results errors)
    = (successful_results ++ ok_values results)%list.
Proof.
  revert successful_results errors.
  induction results as [|[r|e] results IH]; intros acc errors; simpl.
  - by rewrite app_nil_r.
  - rewrite IH. by rewrite <- app_assoc.
  - apply IH.
Qed.

Lemma ok_values_failures (results : list (result DetectionResult)) :
  (length (ok_values results) + failures results = length results)%nat.
Proof.
  unfold failures.
  induction results as [|[r|e] results IH]; simpl; lia.
Qed.

(** C3 (as amended).  If some path fails the precheck the batch raises and
    no task is created.  If every path passes, a task is created for every
    path, and the call returns the results of the tasks that succeeded, in
    the order of their paths, the exceptions of the others being dropped:
    with [N] paths of which [M] fail, a list of [N - M] results. *)
Theorem process_multiple_videos_batch (settings : Settings) (fs : FileSystem)
    (task : nat -> Path -> result DetectionResult) (video_paths : list Path) :
  (~ Forall (admissible settings fs) video_paths ->
   batch_tasks (process_multiple_videos settings fs task video_paths) = [] /\
   exists e,
     batch_result (process_multiple_videos settings fs task video_paths) = Raise e) /\
  (Forall (admissible settings fs) video_paths ->
   batch_tasks (process_multiple_videos settings fs task video_paths) = video_paths /\
   batch_result (process_multiple_videos settings fs task video_paths)
     = Ok (ok_values (imap task video_paths)) /\
   (length (ok_values (imap task video_paths))
    + failures (imap task video_paths) = length video_paths)%nat).
Proof.
  unfold process_multiple_videos.
  destruct (precheck settings fs video_paths) as [[]|e] eqn:Hpre.
  - apply precheck_admissible in Hpre. split; [done|]. intros _.
    pose proof (separate_values (imap task video_paths) [] []) as Hsep.
    destruct (separate (imap task video_paths) [] []) as [values errors].
    simpl in *. rewrite Hsep. repeat split.
    rewrite ok_values_failures. apply length_imap.
  - split.
    + intros _. split; [done | by eexists].
    + intros Hall. apply precheck_admissible in Hall. congruence.
Qed.

(** *** Orphan clean-up *)

Lemma video_repository_not_an_attribute :
  use_case_getattr "video_repository"
    = Raise (Exn AttributeError
               "'ProcessVideoUseCase' object has no attribute video_repository").
Proof. reflexivity. Qed.

(** Called with the enumeration member, as [get_videos_by_status] means to,
    [find_by_status] matches no record. *)
Lemma find_by_status_member (exists_ : Path -> bool) (data : gmap string VideoDict)
    (member : VideoStatus) :
  find_by_status exists_ data (StatusMember member) = [].
Proof.
  unfold find_by_status.
  assert (H : forall l : list VideoDict,
    List.filter (fun record => token_eq (vd_status record) (StatusMember member)) l = []).
  { induction l; simpl; auto. }
  by rewrite H.
Qed.

(** Whatever the repository holds and whatever is admitted, the clean-up
    answers 0 and writes nothing. *)
Lemma cleanup_failed_videos_repairs_nothing (data : gmap string VideoDict)
    (processing_videos : gmap string bool) :
  cleanup_failed_videos data processing_videos = (0, data).
Proof. reflexivity. Qed.

End AppService.

(** * The definitions run on the sample inputs *)

(** C4.  A repository with one record in status PROCESSING whose path is not
    admitted: the clean-up answers 0 and the record is still PROCESSING. *)
Theorem cleanup_failed_videos_leaves_orphan :
  vd_status sample_record = VideoStatus_value PROCESSING /\
  is_video_processing ∅ (vd_file_path sample_record) = false /\
  cleanup_failed_videos {["v1" := sample_record]} ∅
    = (0, {["v1" := sample_record]}) /\
  vd_status <$> (snd (cleanup_failed_videos {["v1" := sample_record]} ∅) !! "v1")
    = Some "processing".
Proof.
  split; [reflexivity|]. split; [reflexivity|].
  rewrite cleanup_failed_videos_repairs_nothing. split; [reflexivity|].
  simpl. by rewrite lookup_singleton_eq.
Qed.

Lemma detect_damages_in_frame_never_raises_witness :
  _model sample_detector = Some sample_model /\
  exists damages, detect_damages_in_frame sample_detector "f0" 0 = Ok damages.
Proof.
  split; [reflexivity|].
  exact (proj1 (detect_damages_in_frame_never_raises
                  sample_detector sample_model "f0" 0 eq_refl)).
Defined.

Lemma sample_confidences_valid : Forall valid_confidence (concat sample_per_frame).
Proof.
  repeat constructor; unfold Qle; simpl; lia.
Defined.

Lemma final_statistics_averages_witness :
  exists s,
    final_statistics (aggregate 30 sample_per_frame) 2 = Ok s /\
    (0 <= average_confidence s)%Q /\ (average_confidence s <= 1)%Q /\
    frames_per_second s = (inject_Z 3 / 2)%Q.
Proof.
  destruct (final_statistics_averages 30 sample_per_frame 2
              sample_confidences_valid ltac:(unfold Qle; simpl; lia))
    as (s & Hs & Havg & _ & Hfps & _).
  exists s. split; [exact Hs|].
  destruct (Havg ltac:(discriminate)) as (_ & Hlo & Hhi).
  split; [exact Hlo|]. split; [exact Hhi|].
  apply Hfps. unfold Qlt. simpl. lia.
Defined.

Lemma video_statistics_counts_witness :
  exists s,
    final_statistics (aggregate 30 sample_per_frame) 2 = Ok s /\
    total_damages_detected s = 3 /\
    sum_counts (damages_by_type s) = 3 /\
    default 0 (damages_by_type s !! "dent") = 3 /\
    default 0 (damages_by_type s !! "scratch") = 0.
Proof.
  assert (Hs : exists s, final_statistics (aggregate 30 sample_per_frame) 2 = Ok s)
    by (vm_compute; eexists; reflexivity).
  destruct Hs as [s Hs]. exists s. split; [exact Hs|].
  destruct (video_statistics_counts 30 sample_per_frame 2 s Hs)
    as (Hlen & Htot & Hty & _ & Hkey & _).
  rewrite Hlen in Htot.
  split; [exact Htot|]. split; [by rewrite Hty|].
  split; [exact (Hkey "dent") | exact (Hkey "scratch")].
Defined.

(** C6, counterexample.  A failed video with an error message and a
    damage: the video read back from its record has neither. *)
Lemma video_round_trip_loses_fields :
  exists record v,
    _video_to_dict sample_failed_video = Ok record /\
    _dict_to_video (fun _ => true) record = Ok v /\
    v ≠ sample_failed_video /\
    v_error_message sample_failed_video = Some "boom" /\
    v_error_message v = None /\ v_damages v = [].
Proof.
  eexists. eexists.
  split; [vm_compute; reflexivity|].
  split; [vm_compute; reflexivity|].
  split; [discriminate|]. repeat split.
Qed.

Lemma video_round_trip_witness :
  exists record,
    _video_to_dict sample_failed_video = Ok record /\
    _dict_to_video (fun _ => true) record = Ok (reloaded sample_failed_video).
Proof.
  destruct (video_round_trip (fun _ => true) sample_failed_video)
    as (record & Hrecord & _ & _ & Hback & _).
  - reflexivity.
  - intros m [= <-]. reflexivity.
  - repeat constructor. by eexists.
  - by exists record.
Defined.



(** C5, counterexample.  The detection finds a damage, annotation is
    requested and the renderer raises: [execute] raises the renderer's
    exception, no result is stored, and the stored record of the video says
    ["failed"]. *)
Lemma execute_renderer_failure_fails_run :
  has_damages sample_result = true /\
  run_result (execute env_renderer_fails empty_stores "/videos/a.mp4" (1 # 2) true)
    = Raise codec_error /\
  detections (run_stores (execute env_renderer_fails empty_stores
                            "/videos/a.mp4" (1 # 2) true)) !! "r1" = None /\
  vd_status <$> (videos (run_stores (execute env_renderer_fails empty_stores
                   "/videos/a.mp4" (1 # 2) true)) !! "v1")
    = Some "failed" /\
  v_status <$> run_video (execute env_renderer_fails empty_stores
                            "/videos/a.mp4" (1 # 2) true)
    = Some FAILED.
Proof.
  split; [reflexivity|].
  split; [vm_compute; reflexivity|].
  split; [vm_compute; reflexivity|].
  split; vm_compute; reflexivity.
Qed.

Lemma execute_renderer_failure_witness :
  exists e',
    run_result (execute env_renderer_fails empty_stores "/videos/a.mp4" (1 # 2) true)
      = Raise e'.
Proof.
  refine (proj1 (execute_renderer_failure env_renderer_fails empty_stores
                   "/videos/a.mp4" (1 # 2) sample_video
                   {["v1" := sample_record]} sample_result codec_error
                   _ _ _ _ _ _ _)).
  - vm_compute; reflexivity.
  - vm_compute; reflexivity.
  - reflexivity.
  - reflexivity.
  - reflexivity.
  - reflexivity.
  - reflexivity.
Defined.

(** C3, counterexample.  Two paths pass the precheck and the task of the
    first fails: one result is returned for two inputs, and it is the one of
    the second path. *)
Lemma process_multiple_videos_drops_failures :
  Forall (admissible sample_settings sample_fs) sample_paths /\
  imap sample_task sample_paths = [Raise model_error; Ok sample_result] /\
  batch_result (process_multiple_videos sample_settings sample_fs sample_task
                  sample_paths) = Ok [sample_result] /\
  length [sample_result] ≠ length sample_paths.
Proof.
  split; [repeat constructor|].
  split; [reflexivity|].
  split; [reflexivity|]. simpl. lia.
Qed.

Lemma process_multiple_videos_batch_witness :
  batch_tasks (process_multiple_videos sample_settings sample_fs sample_task
                 sample_paths) = sample_paths /\
  batch_result (process_multiple_videos sample_settings sample_fs sample_task
                  sample_paths) = Ok (ok_values (imap sample_task sample_paths)) /\
  (length (ok_values (imap sample_task sample_paths))
   + failures (imap sample_task sample_paths) = length sample_paths)%nat.
Proof.
  apply (proj2 (process_multiple_videos_batch sample_settings sample_fs
                  sample_task sample_paths)).
  repeat constructor.
Defined.

Lemma process_single_video_admission_witness :
  admission sample_settings sample_fs {["/videos/a.mp4" := true]} "/videos/b.mp4"
    = Ok (<["/videos/b.mp4" := true]> {["/videos/a.mp4" := true]}) /\
  is_video_processing
    (snd (process_single_video sample_settings sample_fs sample_run
            {["/videos/a.mp4" := true]} "/videos/b.mp4")) "/videos/b.mp4" = false /\
  admission sample_settings sample_fs
    (snd (process_single_video sample_settings sample_fs sample_run
            {["/videos/a.mp4" := true]} "/videos/b.mp4")) "/videos/b.mp4"
    = Ok (<["/videos/b.mp4" := true]>
            (snd (process_single_video sample_settings sample_fs sample_run
                    {["/videos/a.mp4" := true]} "/videos/b.mp4"))).
Proof.
  destruct (proj1 (proj2 (proj2 (proj2 (process_single_video_admission
              sample_settings sample_fs sample_run {["/videos/a.mp4" := true]}
              "/videos/b.mp4")))))
    as (Hadm & _ & _ & Hfree & Hagain & _).
  - reflexivity.
  - reflexivity.
  - reflexivity.
  - vm_compute. discriminate.
  - split; [exact Hadm|]. split; [exact Hfree | exact Hagain].
Defined.

(** * Further properties of the entities *)

Section EntityProperties.
Context `{DT : DatetimeLib}.

(** X1.  With the fields read as exact rationals (the convention of this
    development for a [float]: no NaN, no infinity, no rounding), a bounding
    box accepted by [__post_init__] has non-negative corner coordinates, a
    positive width, height and area, and its centre lies strictly inside it.
    The reading matters: in Python a NaN passes both guards of
    [__post_init__], and [x + width / 2] can round onto an edge of the
    box. *)
Theorem BoundingBox_valid_geometry (b b' : BoundingBox)
    (Hvalid : BoundingBox_post_init b = Ok b') :
  b' = b /\
  (0 <= bb_x b)%Q /\ (0 <= bb_y b)%Q /\ (0 < bb_width b)%Q /\ (0 < bb_height b)%Q /\
  (0 < area b)%Q /\
  (bb_x b < fst (center b))%Q /\ (fst (center b) < bb_x b + bb_width b)%Q /\
  (bb_y b < snd (center b))%Q /\ (snd (center b) < bb_y b + bb_height b)%Q.
Proof.
  unfold BoundingBox_post_init in Hvalid.
  destruct (Qlt_bool (bb_x b) 0) eqn:Hx; [discriminate|].
  destruct (Qlt_bool (bb_y b) 0) eqn:Hy; [discriminate|]. simpl in Hvalid.
  destruct (Qle_bool (bb_width b) 0) eqn:Hw; [discriminate|].
  destruct (Qle_bool (bb_height b) 0) eqn:Hh; [discriminate|]. simpl in Hvalid.
  injection Hvalid as <-.
  apply Qlt_bool_false in Hx, Hy.
  assert (Hw' : (0 < bb_width b)%Q).
  { apply Qnot_le_lt. intros H. apply Qle_bool_iff in H. congruence. }
  assert (Hh' : (0 < bb_height b)%Q).
  { apply Qnot_le_lt. intros H. apply Qle_bool_iff in H. congruence. }
  assert (Hhalf : forall w : Q, (0 < w -> 0 < w / 2 /\ w / 2 < w)%Q).
  { intros w Hpos. split.
    - apply Qlt_shift_div_l; lra.
    - apply Qlt_shift_div_r; lra. }
  destruct (Hhalf _ Hw') as [Hw1 Hw2]. destruct (Hhalf _ Hh') as [Hh1 Hh2].
  unfold area, center. simpl.
  set (hw := (bb_width b / 2)%Q) in *. set (hh := (bb_height b / 2)%Q) in *.
  repeat split; try done; try lra.
  by apply Qmult_lt_0_compat.
Qed.

(** X2.  For a result whose damages have confidences within the bounds of
    the [Damage] constructor, [high_confidence_damages] is the confidence
    range from the result's threshold to 1.0. *)
Theorem high_confidence_is_range (r : DetectionResult)
    (Hvalid : Forall valid_confidence (r_damages r)) :
  high_confidence_damages r
    = get_damages_by_confidence_range r (r_confidence_threshold r) 1.
Proof.
  unfold high_confidence_damages, get_damages_by_confidence_range.
  induction Hvalid as [|d ds [_ Hhi] _ IH]; simpl; [done|].
  apply Qle_bool_iff in Hhi. rewrite Hhi, andb_true_r.
  by rewrite IH.
Qed.

Lemma filter_length_le {A} (f : A -> bool) (l : list A) :
  (length (List.filter f l) <= length l)%nat.
Proof. induction l as [|x l IH]; simpl; [lia|]. destruct (f x); simpl; lia. Qed.

Lemma filter_nonempty_iff {A} (f : A -> bool) (l : list A) :
  List.filter f l <> [] <-> exists x, x ∈ l /\ f x = true.
Proof.
  induction l as [|x l IH]; simpl.
  - split; [done | intros (? & H & _); by apply not_elem_of_nil in H].
  - destruct (f x) eqn:Hx.
    + split; [intros _; exists x; split; [left | done] | done].
    + rewrite IH. split.
      * intros (y & Hy & Hfy). exists y. split; [by right | done].
      * intros (y & Hy & Hfy). apply elem_of_cons in Hy as [-> | Hy];
          [congruence | by exists y].
Qed.

(** X3.  The summary of a result is consistent with its damages: the
    numbers of high-confidence and of severe damages and the number of
    distinct damage types are at most the total, the types are listed
    without repetition, a type is listed exactly when [get_damages_by_type]
    finds a damage of it, and the density times the frames processed is the
    total (the density being 0 when no frame was processed). *)
Theorem generate_summary_consistent (r : DetectionResult) :
  sm_total_damages (generate_summary r) = Z.of_nat (length (r_damages r)) /\
  0 <= sm_high_confidence_damages (generate_summary r)
    <= sm_total_damages (generate_summary r) /\
  0 <= sm_severe_damages (generate_summary r)
    <= sm_total_damages (generate_summary r) /\
  NoDup (sm_unique_damage_types (generate_summary r)) /\
  Z.of_nat (length (sm_unique_damage_types (generate_summary r)))
    <= sm_total_damages (generate_summary r) /\
  (forall type, type ∈ sm_unique_damage_types (generate_summary r)
                <-> get_damages_by_type r type <> []) /\
  (total_frames_processed (r_statistics r) = 0 ->
   sm_damage_density (generate_summary r) = 0%Q) /\
  (total_frames_processed (r_statistics r) <> 0 ->
   (sm_damage_density (generate_summary r)
    * inject_Z (total_frames_processed (r_statistics r))
    == inject_Z (sm_total_damages (generate_summary r)))%Q).
Proof.
  unfold generate_summary, damage_count. simpl.
  split; [done|].
  split; [pose proof (filter_length_le
            (fun d => Qle_bool (r_confidence_threshold r) (confidence d))
            (r_damages r)); unfold high_confidence_damages; lia|].
  split; [pose proof (filter_length_le is_severe (r_damages r));
          unfold severe_damages; lia|].
  assert (Hmem : forall type, type ∈ unique_damage_types r
                 <-> exists d, d ∈ r_damages r /\ DamageType_value (damage_type d) = type).
  { intros type. unfold unique_damage_types.
    rewrite elem_of_elements, elem_of_list_to_set, list_elem_of_fmap. simpl.
    split; intros (d & H1 & H2); exists d; done. }
  split; [apply NoDup_elements|].
  split.
  { unfold unique_damage_types.
    pose proof (NoDup_elements
      (list_to_set (DamageType_value ∘ damage_type <$> r_damages r) : gset string)) as Hnd.
    assert (Hsub : elements (list_to_set (DamageType_value ∘ damage_type <$> r_damages r)
                             : gset string)
                   ⊆ (DamageType_value ∘ damage_type <$> r_damages r)).
    { intros x Hx. by apply elem_of_elements, elem_of_list_to_set in Hx. }
    apply NoDup_submseteq in Hsub; [|done].
    apply submseteq_length in Hsub. rewrite length_fmap in Hsub. lia. }
  split.
  { intros type. rewrite Hmem. unfold get_damages_by_type.
    rewrite filter_nonempty_iff.
    split; intros (d & Hd & Ht); exists d; split; try done.
    - by apply String.eqb_eq.
    - by apply String.eqb_eq in Ht. }
  unfold calculate_damage_density, damage_count.
  split.
  - intros ->. done.
  - intros Hne. destruct (Z.eqb_spec (total_frames_processed (r_statistics r)) 0);
      [done|].
    field. intros H. apply n.
    unfold Qeq in H. simpl in H. lia.
Qed.

Lemma metadata_entries_total_frames (m : VideoMetadata) :
  metadata_entries m
    [("duration", "duration"); ("fps", "fps"); ("width", "width");
     ("height", "height"); ("total_frames", "total_frames");
     ("format", "format"); ("file_size", "file_size")]
  = Raise (Exn AttributeError
             "'VideoMetadata' object has no attribute total_frames").
Proof. reflexivity. Qed.

(** X4.  [to_dict] cannot be used on a video that has metadata, nor on a
    result about such a video: it raises [AttributeError], since it reads
    [metadata.total_frames] while the field is [frame_count].  Every video
    the orchestrator builds has metadata. *)
Theorem to_dict_raises_with_metadata (r : DetectionResult) (m : VideoMetadata)
    (Hmetadata : v_metadata (r_video r) = Some m) :
  Video_to_dict (r_video r)
    = Raise (Exn AttributeError
               "'VideoMetadata' object has no attribute total_frames") /\
  DetectionResult_to_dict r
    = Raise (Exn AttributeError
               "'VideoMetadata' object has no attribute total_frames") /\
  (forall env video_path video,
     prepare env video_path = Ok video ->
     Video_to_dict video
       = Raise (Exn AttributeError
                  "'VideoMetadata' object has no attribute total_frames")).
Proof.
  assert (Hraise : forall v m', v_metadata v = Some m' ->
            Video_to_dict v
            = Raise (Exn AttributeError
                       "'VideoMetadata' object has no attribute total_frames")).
  { intros v m' Hm. unfold Video_to_dict. rewrite Hm.
    by rewrite metadata_entries_total_frames. }
  split; [by eapply Hraise|]. split.
  - unfold DetectionResult_to_dict. by rewrite (Hraise _ _ Hmetadata).
  - intros env video_path video Hprep. unfold prepare in Hprep.
    destruct (negb (path_exists env video_path)); [discriminate|].
    destruct (negb (validate_video env video_path)); [discriminate|].
    destruct (ensure_model env); simpl in Hprep; [|discriminate].
    destruct (extract_metadata env video_path) as [md|]; simpl in Hprep;
      [|discriminate].
    unfold Video_post_init in Hprep. simpl in Hprep.
    repeat match type of Hprep with
           | context [if ?b then _ else _] => destruct b
           end; try discriminate Hprep.
    injection Hprep as <-. by eapply Hraise.
Qed.

End EntityProperties.

(** * Further properties of the detector *)

Section DetectorProperties.
Context `{DT : DatetimeLib}.

Lemma record_empty_frames (fps : Q) (n : nat) (st : LoopState) :
  foldl (record_frame fps) st (replicate n [])
    = mkLoop (l_damages st) (l_frames_processed st + Z.of_nat n)
             (l_total_confidence st) (l_damages_by_type st)
             (l_damages_by_severity st) (l_frame_number st + Z.of_nat n).
Proof.
  revert st. induction n as [|n IH]; intros st.
  - simpl. rewrite !Z.add_0_r. by destruct st.
  - simpl replicate. simpl foldl. rewrite IH. unfold record_frame. simpl.
    f_equal; lia.
Qed.

(** X5.  A result of the video-level detection never holds a damage: its
    damages list and both count maps are empty, the total and the average
    confidence are 0, and the frames processed are the frames read.  (Every
    detected box makes the construction of the [BoundingBox] raise, which
    the per-frame detection answers with the empty list.) *)
Theorem detect_damages_in_video_no_damage (self : YOLODamageDetector)
    (fps : Q) (frames : list frame_bytes) (elapsed : Q) (end_time : datetime)
    (result_id : string) (video : Video) (threshold : Q) (r : DetectionResult)
    (Hrun : detect_damages_in_video self (Some (fps, frames)) elapsed end_time
              result_id video threshold = Ok r) :
  r_damages r = [] /\ has_damages r = false /\
  total_damages_detected (r_statistics r) = 0 /\
  damages_by_type (r_statistics r) = ∅ /\
  damages_by_severity (r_statistics r) = ∅ /\
  average_confidence (r_statistics r) = 0%Q /\
  total_frames_processed (r_statistics r) = Z.of_nat (length frames) /\
  r_video r = video /\ r_annotated_video_path r = None.
Proof.
  unfold detect_damages_in_video in Hrun.
  destruct (_model self) as [model|] eqn:Hm; [|discriminate Hrun].
  unfold set_confidence_threshold in Hrun.
  destruct (negb (threshold_in_range threshold)); [discriminate Hrun|].
  simpl in Hrun.
  rewrite (frames_loop_empty _ model) in Hrun by done. simpl in Hrun.
  rewrite record_empty_frames in Hrun. simpl in Hrun.
  unfold final_statistics, DetectionStatistics_post_init in Hrun. simpl in Hrun.
  repeat match type of Hrun with
         | context [if ?b then _ else _] => destruct b
         end; try discriminate Hrun; simpl in Hrun.
  all: unfold DetectionResult_post_init in Hrun; simpl in Hrun.
  all: repeat match type of Hrun with
              | context [if ?b then _ else _] => destruct b
              end; try discriminate Hrun.
  all: by injection Hrun as <-.
Qed.

(** X6.  [detect_damages_in_video] returns a result exactly when a model is
    loaded, the threshold is within [0,1], the video could be opened, the
    clock did not go backwards and the model version is not empty; a missing
    model is reported before anything else is looked at. *)
Theorem detect_damages_in_video_returns_iff (self : YOLODamageDetector)
    (cap : capture) (elapsed : Q) (end_time : datetime) (result_id : string)
    (video : Video) (threshold : Q) :
  ((exists r, detect_damages_in_video self cap elapsed end_time result_id video
                threshold = Ok r)
   <-> is_Some (_model self) /\ threshold_in_range threshold = true /\
       is_Some cap /\ (0 <= elapsed)%Q /\ _model_version self <> "") /\
  (_model self = None ->
   detect_damages_in_video self cap elapsed end_time result_id video threshold
     = Raise (Exn RuntimeError "El modelo no esta cargado")).
Proof.
  split; [|intros Hm; unfold detect_damages_in_video; by rewrite Hm].
  split.
  - intros [r Hrun]. unfold detect_damages_in_video in Hrun.
    destruct (_model self) as [model|] eqn:Hm; [|discriminate Hrun].
    unfold set_confidence_threshold in Hrun.
    destruct (threshold_in_range threshold) eqn:Hthr; [|discriminate Hrun].
    simpl in Hrun.
    destruct cap as [[fps frames]|]; [|discriminate Hrun].
    rewrite (frames_loop_empty _ model) in Hrun by done. simpl in Hrun.
    rewrite record_empty_frames in Hrun. simpl in Hrun.
    unfold final_statistics, DetectionStatistics_post_init in Hrun.
    simpl in Hrun. rewrite !Z.add_0_l in Hrun.
    destruct (Z.of_nat (length frames) <? 0); [discriminate Hrun|].
    destruct (Qlt_bool elapsed 0) eqn:Htime; [discriminate Hrun|].
    apply Qlt_bool_false in Htime.
    split; [by eexists|]. split; [done|]. split; [by eexists|].
    split; [done|].
    intros Hversion.
    repeat match type of Hrun with
           | context [if Qlt_bool ?a ?b then _ else _] => destruct (Qlt_bool a b)
           end; try discriminate Hrun; simpl in Hrun.
    all: unfold DetectionResult_post_init in Hrun; simpl in Hrun.
    all: rewrite Hversion in Hrun; simpl in Hrun.
    all: destruct (negb _) in Hrun; discriminate Hrun.
  - intros ([model Hm] & Hthr & [[fps frames] ->] & Htime & Hversion).
    by eapply detect_damages_in_video_returns.
Qed.

End DetectorProperties.

(** * Further properties of the repository of videos *)

Section RepositoryProperties.
Context `{DT : DatetimeLib}.

Lemma mapM_result_Forall2 {A B} (f : A -> result B) (l : list A) (k : list B) :
  mapM f l = Ok k -> Forall2 (fun x y => f x = Ok y) l k.
Proof.
  revert k. induction l as [|x l IH]; simpl; intros k H.
  - injection H as <-. constructor.
  - destruct (f x) as [y|] eqn:Hx; simpl in H; [|discriminate].
    destruct (mapM f l) as [k'|]; simpl in H; [|discriminate].
    injection H as <-. constructor; [done | by apply IH].
Qed.

Lemma mapM_result_raise {A B} (f : A -> result B) (l : list A) (x : A) (e : exn) :
  x ∈ l -> f x = Raise e -> exists e', mapM f l = Raise e'.
Proof.
  induction l as [|y l IH]; simpl; intros Hin Hx.
  - by apply not_elem_of_nil in Hin.
  - apply elem_of_cons in Hin as [<- | Hin].
    + rewrite Hx. simpl. by eexists.
    + destruct (f y); simpl; [|by eexists].
      destruct (IH Hin Hx) as [e' ->]. simpl. by eexists.
Qed.

(** Reading back the record written for a readable video. *)
Lemma dict_to_video_of_record (exists_ : Path -> bool) (v : Video)
    (record : VideoDict) :
  readable exists_ v ->
  _video_to_dict v = Ok record ->
  _dict_to_video exists_ record = Ok (reloaded v).
Proof.
  intros [Hfile Hmeta] Hrecord. unfold _video_to_dict in Hrecord.
  destruct (mapM Damage_to_dict (v_damages v)); simpl in Hrecord; [|discriminate].
  injection Hrecord as <-.
  unfold _dict_to_video. simpl.
  assert (Hmd : match metadata_to_dict <$> v_metadata v with
                | Some md => Some <$> dict_to_metadata md
                | None => Ok None
                end = Ok (v_metadata v)).
  { destruct (v_metadata v) as [m|] eqn:Hm; simpl; [|done].
    by rewrite metadata_round_trip, (Hmeta m eq_refl). }
  rewrite Hmd. simpl. rewrite VideoStatus_token_stable. simpl.
  rewrite fromisoformat_isoformat. simpl.
  assert (Hup : match isoformat <$> v_updated_at v with
                | Some text =>
                    if String.eqb text "" then Ok None
                    else Some <$> fromisoformat text
                | None => Ok None
                end = Ok (v_updated_at v)).
  { destruct (v_updated_at v) as [t|]; simpl; [|done].
    destruct (String.eqb_spec (isoformat t) "") as [Hempty|_].
    - by apply isoformat_nonempty in Hempty.
    - by rewrite fromisoformat_isoformat. }
  rewrite Hup. simpl.
  apply (Video_post_init_reloaded exists_ v Hfile).
Qed.

(** What [_dict_to_video] returns is readable, carries the id and the
    status of the record, and owns no damage. *)
Lemma dict_to_video_readable (exists_ : Path -> bool) (record : VideoDict)
    (v : Video) :
  _dict_to_video exists_ record = Ok v ->
  readable exists_ v /\ v_id v = vd_id record /\ v_damages v = [] /\
  VideoStatus_of_value (vd_status record) = Ok (v_status v) /\
  v_file_path v = vd_file_path record.
Proof.
  unfold _dict_to_video. intros H.
  destruct (match vd_metadata record with
            | Some md => Some <$> dict_to_metadata md
            | None => Ok None
            end) as [metadata|] eqn:Hmd; simpl in H; [|discriminate].
  destruct (VideoStatus_of_value (vd_status record)) as [status|]; simpl in H;
    [|discriminate].
  destruct (fromisoformat (vd_created_at record)) as [created|]; simpl in H;
    [|discriminate].
  destruct (match vd_updated_at record with
            | Some text => if String.eqb text "" then Ok None
                           else Some <$> fromisoformat text
            | None => Ok None
            end) as [updated|]; simpl in H; [|discriminate].
  assert (Hv : v = mkVideo (vd_id record) (vd_file_path record) (vd_name record)
                 status created metadata [] None None None updated).
  { unfold Video_post_init in H.
    repeat match type of H with
           | context [if ?b then _ else _] => destruct b
           end; try discriminate H. by injection H as <-. }
  subst v. repeat split; try done.
  simpl. intros m ->.
  destruct (vd_metadata record) as [md|]; [|discriminate].
  unfold dict_to_metadata in Hmd.
  destruct (VideoFormat_of_value (mdd_format md)); simpl in Hmd; [|discriminate].
  unfold VideoMetadata_post_init in *.
  repeat match type of Hmd with
         | context [if ?b then _ else _] => destruct b eqn:?
         end; try discriminate Hmd.
  simpl in Hmd. injection Hmd as <-. simpl in *.
  repeat match goal with H : ?b = false |- context [?b] => rewrite H end.
  done.
Qed.

(** X7.  Saving a readable video (one whose file exists with a supported
    suffix, with valid metadata and datetime-stamped damages) and looking its
    id up gives the video back without its damages, error message,
    processing date and processing time; the id then exists, and the
    records under other ids are untouched. *)
Theorem save_then_find_by_id (exists_ : Path -> bool)
    (data : gmap string VideoDict) (v : Video)
    (Hreadable : readable exists_ v)
    (Hstamps : Forall datetime_stamped (v_damages v)) :
  exists data',
    save None data v = Ok data' /\
    find_by_id exists_ data' (v_id v) = Some (reloaded v) /\
    exists_video data' (v_id v) = true /\
    get_processing_status exists_ data' (v_id v)
      = Some (VideoStatus_value (v_status v)) /\
    (forall other, other <> v_id v -> data' !! other = data !! other).
Proof.
  destruct (damages_to_dict_returns _ Hstamps) as [records Hrecords].
  assert (Hdict : exists record, _video_to_dict v = Ok record).
  { unfold _video_to_dict. rewrite Hrecords. simpl. by eexists. }
  destruct Hdict as [record Hdict].
  exists (<[v_id v := record]> data).
  assert (Hfind : find_by_id exists_ (<[v_id v := record]> data) (v_id v)
                  = Some (reloaded v)).
  { unfold find_by_id. rewrite lookup_insert_eq.
    by rewrite (dict_to_video_of_record exists_ v record). }
  split; [unfold save; by rewrite Hdict|].
  split; [done|]. split.
  - unfold exists_video. rewrite lookup_insert_eq. by apply bool_decide_eq_true.
  - split.
    + unfold get_processing_status. by rewrite Hfind.
    + intros other Hother. by rewrite lookup_insert_ne.
Qed.

(** X8.  The repository keeps every record under its own id: [save],
    [update] and [delete] preserve this, and the empty repository has it. *)
Theorem store_keyed_preserved (data data' : gmap string VideoDict) :
  store_keyed (∅ : gmap string VideoDict) /\
  (store_keyed data ->
   (forall io v, save io data v = Ok data' -> store_keyed data') /\
   (forall io v, update io data v = Ok data' -> store_keyed data') /\
   (forall io video_id, store_keyed (snd (delete_video io data video_id)))).
Proof.
  split; [intros video_id record H; by rewrite lookup_empty in H|].
  intros Hkeyed.
  assert (Hinsert : forall v record, _video_to_dict v = Ok record ->
            store_keyed (<[v_id v := record]> data)).
  { intros v record Hrecord video_id record' Hlookup.
    destruct (decide (v_id v = video_id)) as [<-|Hne].
    - rewrite lookup_insert_eq in Hlookup. injection Hlookup as <-.
      by apply video_to_dict_fields in Hrecord as (? & _).
    - rewrite lookup_insert_ne in Hlookup by done. by apply Hkeyed. }
  split; [|split].
  - intros io v. unfold save.
    destruct (_video_to_dict v) as [record|] eqn:Hrecord; simpl; [|discriminate].
    destruct io; [discriminate|]. intros [= <-]. by apply Hinsert.
  - intros io v Hupdate.
    apply update_returns in Hupdate as (record & Hrecord & -> & _).
    by apply Hinsert.
  - intros io video_id. unfold delete_video.
    destruct (data !! video_id); [|done]. destruct io; [done|]. simpl.
    intros other record Hlookup.
    apply lookup_delete_Some in Hlookup as [_ Hlookup]. by apply Hkeyed.
Qed.


(** X10.  One record that cannot be rebuilt (for instance because its file
    is gone) hides every video: [find_all] answers the empty list, and so
    does [find_by_status] for the status of that record. *)
Theorem unreadable_record_hides_all (exists_ : Path -> bool)
    (data : gmap string VideoDict) (video_id : string) (record : VideoDict)
    (e : exn)
    (Hstored : data !! video_id = Some record)
    (Hunreadable : _dict_to_video exists_ record = Raise e) :
  find_all exists_ data = [] /\
  find_by_status exists_ data (StatusToken (vd_status record)) = [] /\
  find_by_id exists_ data video_id = None.
Proof.
  assert (Hin : record ∈ (snd <$> map_to_list data)).
  { apply list_elem_of_fmap. exists (video_id, record). split; [done|].
    by apply elem_of_map_to_list. }
  split; [|split].
  - unfold find_all.
    by destruct (mapM_result_raise _ _ _ _ Hin Hunreadable) as [e' ->].
  - unfold find_by_status.
    assert (Hin' : record ∈ List.filter
              (fun record0 => token_eq (vd_status record0)
                                (StatusToken (vd_status record)))
              (snd <$> map_to_list data)).
    { apply list_elem_of_In, filter_In. split; [by apply list_elem_of_In|].
      simpl. apply String.eqb_refl. }
    by destruct (mapM_result_raise _ _ _ _ Hin' Hunreadable) as [e' ->].
  - unfold find_by_id. by rewrite Hstored, Hunreadable.
Qed.

(** X11.  Asked with the token of a status, [find_by_status] only answers
    readable videos of that status, each of them stored under its path and
    without damages. *)
Theorem find_by_status_sound (exists_ : Path -> bool)
    (data : gmap string VideoDict) (status : VideoStatus) (v : Video)
    (Hfound : v ∈ find_by_status exists_ data (StatusToken (VideoStatus_value status))) :
  v_status v = status /\ readable exists_ v /\ v_damages v = [] /\
  exists video_id record,
    data !! video_id = Some record /\ _dict_to_video exists_ record = Ok v.
Proof.
  unfold find_by_status in Hfound.
  destruct (mapM _ _) as [videos|] eqn:Hm; [|by apply not_elem_of_nil in Hfound].
  apply mapM_result_Forall2 in Hm.
  apply list_elem_of_lookup in Hfound as [i Hi].
  destruct (Forall2_lookup_r _ _ _ _ _ Hm Hi) as (record & Hrecord & Hback).
  apply list_elem_of_lookup_2, list_elem_of_In, filter_In in Hrecord
    as [Hrecord Htoken].
  apply list_elem_of_In, list_elem_of_fmap in Hrecord as ([video_id record'] & -> & Hin).
  apply elem_of_map_to_list in Hin. simpl in *.
  apply String.eqb_eq in Htoken.
  destruct (dict_to_video_readable _ _ _ Hback) as (Hread & _ & Hdam & Hstatus & _).
  rewrite Htoken, VideoStatus_token_stable in Hstatus. injection Hstatus as Hstatus.
  split; [done|]. split; [done|]. split; [done|]. by exists video_id, record'.
Qed.

End RepositoryProperties.

(** * Further properties of the orchestrator *)

Section OrchestratorProperties.
Context `{DT : DatetimeLib}.

Lemma annotate_damages (env : Collaborators) (video : Video) (video_path : Path)
    (ann : bool) (dr dr' : DetectionResult) :
  annotate env video video_path ann dr = Ok dr' ->
  r_damages dr' = r_damages dr /\ r_id dr' = r_id dr.
Proof.
  unfold annotate. destruct (ann && has_damages dr); [|by intros [= <-]].
  destruct (mkdir_output env _); simpl; [|discriminate].
  destruct (create_annotated_video env _ _ _); simpl; [|discriminate].
  by intros [= <-].
Qed.

Lemma save_returns (io : option exn) (data data' : gmap string VideoDict)
    (video : Video) :
  save io data video = Ok data' ->
  exists record,
    _video_to_dict video = Ok record /\ data' = <[v_id video := record]> data /\
    vd_status record = VideoStatus_value (v_status video).
Proof.
  unfold save.
  destruct (_video_to_dict video) as [record|] eqn:Hrecord; simpl; [|discriminate].
  destruct io; [discriminate|]. intros [= <-]. exists record.
  repeat split. by apply video_to_dict_fields in Hrecord as (_ & _ & _ & ? & _).
Qed.



Lemma float_stamped_to_dict (damages : list Damage) :
  Exists float_stamped damages ->
  mapM Damage_to_dict damages
    = Raise (Exn AttributeError "'float' object has no attribute 'isoformat'").
Proof.
  induction damages as [|d damages IH]; intros Hex; [by inversion Hex|].
  simpl.
  destruct (Damage_to_dict d) as [record|e] eqn:Hd; simpl.
  - inversion Hex as [? ? [t' Ht']|? ? Hrest]; subst.
    + unfold Damage_to_dict in Hd. rewrite Ht' in Hd. discriminate Hd.
    + by rewrite (IH Hrest).
  - unfold Damage_to_dict in Hd. destruct (timestamp d); [|discriminate Hd].
    by injection Hd as <-.
Qed.

(** X13.  When the detection returns a result with a damage stamped with a
    float (as the video-level loop of the detector stamps every damage) and
    the annotation step does not fail, the run cannot complete: writing the
    COMPLETED record raises [AttributeError], and so does writing the FAILED
    record; [execute] raises that error, no result is stored, and the stored
    record of the video still says ["processing"]. *)
Theorem execute_float_stamped_damages (env : Collaborators) (st : Stores)
    (video_path : Path) (threshold : Q) (ann : bool) (video : Video)
    (vs : gmap string VideoDict) (dr dr' : DetectionResult)
    (Hprepared : prepare env video_path = Ok video)
    (Hsave : save (io_save env) (videos st) video = Ok vs)
    (Hthreshold : threshold_in_range threshold = true)
    (Hdetected : detect env video threshold = Ok dr)
    (Hannotated : annotate env video video_path ann dr = Ok dr')
    (Hfloat : Exists float_stamped (r_damages dr)) :
  run_result (execute env st video_path threshold ann)
    = Raise (Exn AttributeError "'float' object has no attribute 'isoformat'") /\
  run_stores (execute env st video_path threshold ann)
    = mkStores vs (detections st) /\
  (exists record, vs !! v_id video = Some record /\ vd_status record = "processing") /\
  (exists v, run_video (execute env st video_path threshold ann) = Some v /\
             v_status v = FAILED).
Proof.
  destruct (annotate_damages _ _ _ _ _ _ Hannotated) as [Hdam _].
  pose proof (save_returns _ _ _ _ Hsave) as (record & _ & Hvs & Hstatus).
  apply prepare_entity in Hprepared as Hentity.
  destruct Hentity as (Hprocessing & _ & _ & _).
  assert (Hin : vs !! v_id video = Some record)
    by (rewrite Hvs; apply lookup_insert_eq).
  assert (Hwrite : forall io status,
            update io vs (set_status status
                            (set_damages (r_damages dr') (set_status COMPLETED video)))
            = Raise (Exn AttributeError "'float' object has no attribute 'isoformat'")).
  { intros io status. unfold update. simpl. rewrite Hin.
    unfold _video_to_dict. simpl. rewrite Hdam.
    by rewrite (float_stamped_to_dict _ Hfloat). }
  assert (Hbody : execute_body env st video video_path threshold ann
                  = Failed (Exn AttributeError
                              "'float' object has no attribute 'isoformat'")
                      (mkStores vs (detections st))
                      (set_damages (r_damages dr') (set_status COMPLETED video))).
  { unfold execute_body. rewrite Hsave, Hthreshold. simpl.
    rewrite Hdetected, Hannotated. simpl.
    pose proof (Hwrite (io_update env) COMPLETED) as Hw. simpl in Hw.
    unfold set_status in Hw. simpl in Hw. unfold set_damages, set_status. simpl.
    by rewrite Hw. }
  unfold execute, execute_try. rewrite Hprepared, Hbody. unfold execute_except.
  cbv zeta. cbn [videos detections].
  rewrite (Hwrite (io_update_failed env) FAILED). simpl.
  split; [done|]. split; [done|].
  split; [exists record; by rewrite Hstatus, Hprocessing|]. by eexists.
Qed.

(** X14.  A path whose suffix the settings support but the [Video] entity
    does not (such as [.wmv], [.flv], [.webm]) is let in by the admission
    checks and by the batch precheck, yet [execute] always raises for it
    before any record or entity exists, whatever the collaborators answer. *)
Theorem unsupported_by_entity (settings : Settings) (fs : FileSystem)
    (processing_videos : gmap string bool) (video_path : Path)
    (Hsettings : is_supported_format settings video_path = true)
    (Hentity : str_in (lower (suffix video_path)) Video_formats = false)
    (Hexists : fs_exists fs video_path = true)
    (Hsize : fs_size fs video_path <= max_video_size_bytes settings)
    (Hfree : processing_videos !! video_path = None) :
  admission settings fs processing_videos video_path
    = Ok (<[video_path := true]> processing_videos) /\
  precheck settings fs [video_path] = Ok tt /\
  (forall env st threshold ann,
     (exists e, run_result (execute env st video_path threshold ann) = Raise e) /\
     run_stores (execute env st video_path threshold ann) = st /\
     run_video (execute env st video_path threshold ann) = None).
Proof.
  split; [|split].
  - unfold admission. rewrite Hfree, Hexists, Hsettings. simpl.
    destruct (Z.ltb_spec (max_video_size_bytes settings) (fs_size fs video_path));
      [lia | done].
  - simpl. by rewrite Hexists, Hsettings.
  - intros env st threshold ann. unfold execute.
    assert (Hprep : exists e, prepare env video_path = Raise e).
    { unfold prepare.
      destruct (negb (path_exists env video_path)); [by eexists|].
      destruct (negb (validate_video env video_path)); [by eexists|].
      destruct (ensure_model env); simpl; [|by eexists].
      destruct (extract_metadata env video_path); simpl; [|by eexists].
      unfold Video_post_init. cbn [v_file_path].
      destruct (negb (path_exists env video_path)); [by eexists|].
      unfold Video_formats in Hentity. rewrite Hentity. by eexists. }
    destruct Hprep as [e ->]. simpl. split; [by eexists | done].
Qed.

(** X15.  When every collaborator answers, no write fails and the damages
    of the result are stamped with datetimes, [execute] returns the
    (annotated) result of the detection. *)
Theorem execute_returns (env : Collaborators) (st : Stores)
    (video_path : Path) (threshold : Q) (ann : bool) (video : Video)
    (dr dr' : DetectionResult)
    (Hprepared : prepare env video_path = Ok video)
    (Hio : io_save env = None /\ io_update env = None /\
           io_save_detection env = None)
    (Hthreshold : threshold_in_range threshold = true)
    (Hdetected : detect env video threshold = Ok dr)
    (Hannotated : annotate env video video_path ann dr = Ok dr')
    (Hstamps : Forall datetime_stamped (r_damages dr)) :
  run_result (execute env st video_path threshold ann) = Ok dr' /\
  run_video (execute env st video_path threshold ann)
    = Some (set_damages (r_damages dr) (set_status COMPLETED video)).
Proof.
  destruct Hio as (Hio1 & Hio2 & Hio3).
  destruct (annotate_damages _ _ _ _ _ _ Hannotated) as [Hdam _].
  apply prepare_entity in Hprepared as Hentity.
  destruct Hentity as (_ & _ & Hnone & _).
  assert (Hdict : forall v, Forall datetime_stamped (v_damages v) ->
            exists record, _video_to_dict v = Ok record).
  { intros v Hv. unfold _video_to_dict.
    destruct (damages_to_dict_returns _ Hv) as [records ->]. simpl. by eexists. }
  destruct (Hdict video) as [record Hrecord]; [by rewrite Hnone|].
  destruct (Hdict (set_damages (r_damages dr') (set_status COMPLETED video)))
    as [record' Hrecord']; [simpl; by rewrite Hdam|].
  unfold execute, execute_try. rewrite Hprepared.
  unfold execute_body, save. rewrite Hrecord, Hio1. simpl.
  rewrite Hthreshold. simpl. rewrite Hdetected, Hannotated.
  unfold update. simpl. rewrite lookup_insert_eq.
  rewrite Hrecord', Hio2. simpl.
  unfold save_detection. rewrite Hio3. simpl. by rewrite Hdam.
Qed.

End OrchestratorProperties.

(** * Cancelling, and the orchestrator with the detector of the repository *)

Section CancelAndCompose.
Context `{DT : DatetimeLib}.

Lemma readable_set_status (exists_ : Path -> bool) (status : VideoStatus) (v : Video) :
  readable exists_ v -> readable exists_ (set_status status v).
Proof.
  intros [Hfile Hmeta]. split; [|exact Hmeta].
  unfold Video_post_init in *.
  change (v_file_path (set_status status v)) with (v_file_path v).
  repeat match type of Hfile with
         | context [if ?b then _ else _] => destruct b
         end; try discriminate Hfile; done.
Qed.

(** X16.  Cancelling a stored, readable video in status PROCESSING answers
    [True] and stores it as ["cancelled"], after which a second cancelling
    answers [False] and changes nothing; the other records are untouched.
    Cancelling a video whose stored status is not ["processing"] (or that is
    not found) answers [False] and changes nothing. *)
Theorem cancel_processing_once (exists_ : Path -> bool)
    (data : gmap string VideoDict) (video_id : string) (record : VideoDict)
    (video : Video)
    (Hkeyed : store_keyed data)
    (Hstored : data !! video_id = Some record)
    (Hreadable : _dict_to_video exists_ record = Ok video)
    (Hprocessing : v_status video = PROCESSING) :
  (exists data',
     cancel_processing exists_ None data video_id = (Ok true, data') /\
     get_processing_status exists_ data' video_id = Some "cancelled" /\
     cancel_processing exists_ None data' video_id = (Ok false, data') /\
     (forall other, other <> video_id -> data' !! other = data !! other)) /\
  (forall io (data0 : gmap string VideoDict) other,
     get_processing_status exists_ data0 other <> Some "processing" ->
     cancel_processing exists_ io data0 other = (Ok false, data0)).
Proof.
  split.
  - destruct (dict_to_video_readable _ _ _ Hreadable)
      as (Hread & Hid & Hdam & _ & _).
    rewrite (Hkeyed _ _ Hstored) in Hid.
    assert (Hdict : exists record', _video_to_dict (set_status CANCELLED video)
                                    = Ok record').
    { unfold _video_to_dict. simpl. rewrite Hdam. simpl. by eexists. }
    destruct Hdict as [record' Hdict].
    exists (<[video_id := record']> data).
    assert (Hfind : find_by_id exists_ (<[video_id := record']> data) video_id
                    = Some (reloaded (set_status CANCELLED video))).
    { unfold find_by_id. rewrite lookup_insert_eq.
      rewrite (dict_to_video_of_record exists_ (set_status CANCELLED video) record');
        [done | by apply readable_set_status | done]. }
    split; [|split; [|split]].
    + unfold cancel_processing, find_by_id. rewrite Hstored, Hreadable.
      cbv iota beta. case_bool_decide; [|done].
      unfold update. cbn [v_id set_status]. rewrite Hid, Hstored, Hdict. done.
    + unfold get_processing_status. by rewrite Hfind.
    + unfold cancel_processing. rewrite Hfind.
      case_bool_decide as Hb; [discriminate Hb | done].
    + intros other Hother. by rewrite lookup_insert_ne.
  - intros io data0 other Hstatus. unfold cancel_processing.
    unfold get_processing_status in Hstatus.
    destruct (find_by_id exists_ data0 other) as [v|]; [|done]. simpl in Hstatus.
    destruct (bool_decide (v_status v = PROCESSING)) eqn:Hb; [|done].
    apply bool_decide_eq_true in Hb. rewrite Hb in Hstatus. by destruct Hstatus.
Qed.

Lemma detect_damages_in_video_damages_nil (self : YOLODamageDetector)
    (cap : capture) (elapsed : Q) (end_time : datetime) (result_id : string)
    (video : Video) (threshold : Q) (r : DetectionResult) :
  detect_damages_in_video self cap elapsed end_time result_id video threshold = Ok r ->
  has_damages r = false.
Proof.
  intros Hrun. unfold detect_damages_in_video in Hrun.
  destruct (_model self) as [model|] eqn:Hm; [|discriminate Hrun].
  unfold set_confidence_threshold in Hrun.
  destruct (negb (threshold_in_range threshold)); [discriminate Hrun|].
  simpl in Hrun. destruct cap as [[fps frames]|]; [|discriminate Hrun].
  rewrite (frames_loop_empty _ model) in Hrun by done. simpl in Hrun.
  rewrite record_empty_frames in Hrun. simpl in Hrun.
  destruct (final_statistics _ _) as [statistics|]; simpl in Hrun;
    [|discriminate Hrun].
  unfold DetectionResult_post_init in Hrun. simpl in Hrun.
  repeat match type of Hrun with
         | context [if ?b then _ else _] => destruct b
         end; try discriminate Hrun.
  by injection Hrun as <-.
Qed.

(** X17.  With the detector of the repository as detection service, the
    renderer is never reached: the run of [execute] is the same whatever the
    renderer and the creation of the output directory would answer, and a
    result it returns has no damage and no annotated video. *)
Theorem execute_never_renders (env : Collaborators) (self : YOLODamageDetector)
    (cap : capture) (elapsed : Q) (end_time : datetime) (result_id : string)
    (Hservice : detect env
                = detect_damages_in_video self cap elapsed end_time result_id)
    (st : Stores) (video_path : Path) (threshold : Q) (ann : bool) :
  (forall mkdir render,
     execute (with_renderer env mkdir render) st video_path threshold ann
       = execute env st video_path threshold ann) /\
  (forall r, run_result (execute env st video_path threshold ann) = Ok r ->
             r_damages r = [] /\ r_annotated_video_path r = None).
Proof.
  assert (Hann : forall env' video dr,
            detect env video threshold = Ok dr ->
            annotate env' video video_path ann dr = Ok dr /\
            r_damages dr = [] /\ r_annotated_video_path dr = None).
  { intros env' video dr Hdr. rewrite Hservice in Hdr.
    pose proof (detect_damages_in_video_damages_nil _ _ _ _ _ _ _ _ Hdr) as Hno.
    unfold annotate. rewrite Hno, andb_false_r. split; [done|].
    split.
    - unfold has_damages in Hno. destruct (r_damages dr); [done | discriminate Hno].
    - unfold detect_damages_in_video in Hdr.
      destruct (_model self); [|discriminate Hdr].
      destruct (set_confidence_threshold _ _); simpl in Hdr; [|discriminate Hdr].
      destruct cap as [[fps frames]|]; [|discriminate Hdr].
      destruct (frames_loop _ _ _ _); simpl in Hdr; [|discriminate Hdr].
      destruct (final_statistics _ _); simpl in Hdr; [|discriminate Hdr].
      unfold DetectionResult_post_init in Hdr. simpl in Hdr.
      repeat match type of Hdr with
             | context [if ?b then _ else _] => destruct b
             end; try discriminate Hdr.
      by injection Hdr as <-. }
  split.
  - intros mkdir render. unfold execute.
    change (prepare (with_renderer env mkdir render) video_path)
      with (prepare env video_path).
    destruct (prepare env video_path) as [video|]; [|done].
    unfold execute_try, execute_body.
    cbn [with_renderer io_save io_update io_save_detection detect].
    destruct (save (io_save env) (videos st) video); [|done].
    destruct (negb (threshold_in_range threshold)); [done|].
    destruct (detect env video threshold) as [dr|] eqn:Hdr; [|done].
    destruct (Hann (with_renderer env mkdir render) video dr Hdr) as [-> _].
    destruct (Hann env video dr Hdr) as [-> _].
    done.
  - intros r Hr. unfold execute in Hr.
    destruct (prepare env video_path) as [video|]; [|discriminate Hr].
    unfold execute_try, execute_body in Hr.
    destruct (save (io_save env) (videos st) video); [|].
    + destruct (negb (threshold_in_range threshold)).
      * unfold execute_except in Hr. destruct (update _ _ _); discriminate Hr.
      * destruct (detect env video threshold) as [dr|] eqn:Hdr.
        -- destruct (Hann env video dr Hdr) as (Ha & Hnil & Hnone).
           rewrite Ha in Hr.
           destruct (update (io_update env) _ _).
           ++ destruct (save_detection _ _ _).
              ** simpl in Hr. by injection Hr as <-.
              ** unfold execute_except in Hr. destruct (update _ _ _); discriminate Hr.
           ++ unfold execute_except in Hr. destruct (update _ _ _); discriminate Hr.
        -- unfold execute_except in Hr. destruct (update _ _ _); discriminate Hr.
    + unfold execute_except in Hr. destruct (update _ _ _); discriminate Hr.
Qed.

End CancelAndCompose.

(** * Further properties of the application service and of the video
      processor *)

Section ServiceProperties.
Context `{DT : DatetimeLib}.

(** X18.  A submission that passes the checks leaves the admission set as
    it found it when no other task touched the set during the orchestrator
    call; in any case it leaves the entries of the other paths as the
    orchestrator call left them. *)
Theorem submission_restores_admission (settings : Settings) (fs : FileSystem)
    (run : gmap string bool -> outcome DetectionResult * gmap string bool)
    (processing_videos admitted : gmap string bool) (video_path : Path)
    (Hchecks : admission settings fs processing_videos video_path = Ok admitted) :
  (snd (run admitted) = admitted ->
   process_single_video settings fs run processing_videos video_path
     = (Ran (fst (run admitted)), processing_videos)) /\
  (forall other, other <> video_path ->
     snd (process_single_video settings fs run processing_videos video_path)
       !! other = snd (run admitted) !! other).
Proof.
  unfold process_single_video. rewrite Hchecks.
  apply admission_returns in Hchecks as [Hfree ->].
  destruct (run (<[video_path := true]> processing_videos)) as [o pv] eqn:Hrun.
  simpl. split.
  - intros ->. by rewrite delete_insert_id.
  - intros other Hother. by rewrite lookup_delete_ne.
Qed.

(** X19.  The queue status is consistent with the admission set: the
    videos listed are exactly the admitted paths, without repetition, their
    number is [currently_processing], and [available_slots] is what is left
    of the maximum. *)
Theorem queue_status_consistent (max_concurrent_processes : Z)
    (processing_videos : gmap string bool) :
  qs_currently_processing
      (get_processing_queue_status max_concurrent_processes processing_videos)
    + qs_available_slots
        (get_processing_queue_status max_concurrent_processes processing_videos)
    = max_concurrent_processes /\
  Z.of_nat (length (qs_processing_videos
     (get_processing_queue_status max_concurrent_processes processing_videos)))
    = qs_currently_processing
        (get_processing_queue_status max_concurrent_processes processing_videos) /\
  NoDup (qs_processing_videos
     (get_processing_queue_status max_concurrent_processes processing_videos)) /\
  (forall video_path,
     video_path ∈ qs_processing_videos
       (get_processing_queue_status max_concurrent_processes processing_videos)
     <-> is_video_processing processing_videos video_path = true).
Proof.
  unfold get_processing_queue_status. simpl.
  split; [lia|]. split; [by rewrite length_fmap, length_map_to_list|].
  split; [apply NoDup_fst_map_to_list|].
  intros video_path. unfold is_video_processing.
  rewrite bool_decide_eq_true, list_elem_of_fmap. split.
  - intros ([p b] & -> & Hin). apply elem_of_map_to_list in Hin. by eexists.
  - intros [b Hb]. exists (video_path, b). split; [done|].
    by apply elem_of_map_to_list.
Qed.

(** X20.  Admission does not look at the capacity: a free path that passes
    the file checks is admitted however many paths are being processed, so
    that [available_slots] becomes negative once the maximum is reached. *)
Theorem capacity_not_enforced (settings : Settings) (fs : FileSystem)
    (max_concurrent_processes : Z) (processing_videos : gmap string bool)
    (video_path : Path)
    (Hfree : processing_videos !! video_path = None)
    (Hexists : fs_exists fs video_path = true)
    (Hformat : is_supported_format settings video_path = true)
    (Hsize : fs_size fs video_path <= max_video_size_bytes settings) :
  exists admitted,
    admission settings fs processing_videos video_path = Ok admitted /\
    qs_currently_processing
        (get_processing_queue_status max_concurrent_processes admitted)
      = Z.of_nat (size processing_videos) + 1 /\
    (max_concurrent_processes <= Z.of_nat (size processing_videos) ->
     qs_available_slots
       (get_processing_queue_status max_concurrent_processes admitted) < 0).
Proof.
  exists (<[video_path := true]> processing_videos).
  split.
  - unfold admission. rewrite Hfree, Hexists, Hformat. simpl.
    destruct (Z.ltb_spec (max_video_size_bytes settings) (fs_size fs video_path));
      [lia | done].
  - unfold get_processing_queue_status. simpl.
    rewrite map_size_insert_None by done. split; lia.
Qed.

Lemma py_int_floor (x : Q) : (0 <= x)%Q -> py_int x = Qfloor x.
Proof.
  destruct x as [n d]. unfold Qle, py_int, Qfloor. simpl. intros Hn.
  apply Z.quot_div_nonneg; lia.
Qed.

(** X21.  Metadata returned by [extract_metadata] comes from an opened
    capture of an existing file and passes the validation of
    [VideoMetadata]: frame rate, frame count, dimensions and file size are
    positive, the duration times the frame rate is the frame count, the
    bitrate is non-negative and at most eight times the size per second,
    the format is the one of the lower-cased suffix and is UNKNOWN exactly
    when the codec is ["Unknown"]. *)
Theorem extract_metadata_valid (exists_ : Path -> bool)
    (open_capture : Path -> result CaptureProps) (st_size : Path -> Z)
    (video_path : Path) (m : VideoMetadata)
    (Hextracted : OpenCV_extract_metadata exists_ open_capture st_size video_path
                  = Ok m) :
  exists_ video_path = true /\
  (exists cap, open_capture video_path = Ok cap /\ cap_is_opened cap = true /\
               md_fps m = cap_fps cap) /\
  VideoMetadata_post_init m = Ok m /\
  (0 < md_fps m)%Q /\ 0 < md_frame_count m /\ 0 < md_width m /\ 0 < md_height m /\
  md_file_size m = st_size video_path /\ 0 < md_file_size m /\
  (md_duration m * md_fps m == inject_Z (md_frame_count m))%Q /\
  0 <= md_bitrate m /\
  (inject_Z (md_bitrate m) * md_duration m <= inject_Z (8 * md_file_size m))%Q /\
  md_format m = _get_video_format (lower (suffix video_path)) /\
  (md_format m = UNKNOWN_FORMAT <-> md_codec m = "Unknown").
Proof.
  unfold OpenCV_extract_metadata in Hextracted.
  destruct (exists_ video_path) eqn:Hex; [|discriminate]. simpl in Hextracted.
  destruct (open_capture video_path) as [cap|] eqn:Hcap; [|discriminate].
  simpl in Hextracted.
  destruct (cap_is_opened cap) eqn:Hopen; [|discriminate]. simpl in Hextracted.
  set (fps := cap_fps cap) in *.
  set (frame_count := py_int (cap_frame_count cap)) in *.
  set (duration := (if Qlt_bool 0 fps then inject_Z frame_count / fps else 0)%Q) in *.
  set (size := st_size video_path) in *.
  unfold VideoMetadata_post_init in Hextracted. cbn [md_duration md_fps md_width
    md_height md_frame_count md_file_size] in Hextracted.
  destruct (Qle_bool duration 0) eqn:Hdur; [discriminate|].
  destruct (Qle_bool fps 0) eqn:Hfps; [discriminate|].
  destruct (py_int (cap_frame_width cap) <=? 0) eqn:Hw; [discriminate|].
  destruct (py_int (cap_frame_height cap) <=? 0) eqn:Hh; [discriminate|].
  simpl in Hextracted.
  destruct (frame_count <=? 0) eqn:Hfc; [discriminate|].
  destruct (size <=? 0) eqn:Hsz; [discriminate|].
  injection Hextracted as <-. cbn [md_duration md_fps md_width md_height
    md_frame_count md_file_size md_format md_codec md_bitrate].
  assert (Hfps' : (0 < fps)%Q).
  { apply Qnot_le_lt. intros H. apply Qle_bool_iff in H. congruence. }
  assert (Hdur' : (0 < duration)%Q).
  { apply Qnot_le_lt. intros H. apply Qle_bool_iff in H. congruence. }
  apply Z.leb_gt in Hw, Hh, Hfc, Hsz.
  assert (Hduration : duration = (inject_Z frame_count / fps)%Q).
  { unfold duration. apply Qlt_bool_iff in Hfps'. by rewrite Hfps'. }
  assert (Hrate : (0 <= inject_Z (size * 8) / duration)%Q).
  { apply Qle_shift_div_l; [done|]. rewrite Qmult_0_l.
    change 0%Q with (inject_Z 0). rewrite <- Zle_Qle. lia. }
  assert (Hbit : _calculate_bitrate size duration
                 = Qfloor (inject_Z (size * 8) / duration)).
  { unfold _calculate_bitrate. rewrite Hdur. by apply py_int_floor. }
  split; [done|]. split; [by exists cap|].
  split.
  { unfold VideoMetadata_post_init. cbn [md_duration md_fps md_width md_height
      md_frame_count md_file_size].
    rewrite Hdur, Hfps.
    apply Z.leb_gt in Hw, Hh, Hfc, Hsz. by rewrite Hw, Hh, Hfc, Hsz. }
  split; [done|]. split; [done|]. split; [done|]. split; [done|].
  split; [done|]. split; [done|].
  split; [rewrite Hduration; field; lra|].
  split.
  { rewrite Hbit. apply Qfloor_resp_le in Hrate.
    by change (Qfloor 0) with 0 in Hrate. }
  split.
  { rewrite Hbit.
    pose proof (Qfloor_le (inject_Z (size * 8) / duration)) as Hle.
    apply (Qmult_le_compat_r _ _ duration) in Hle; [|lra].
    assert (Heq : (inject_Z (size * 8) / duration * duration
                   == inject_Z (8 * size))%Q).
    { rewrite (Z.mul_comm 8 size). field. lra. }
    by rewrite Heq in Hle. }
  split; [done|].
  unfold _get_video_format, _get_codec_info.
  repeat match goal with
         | |- context [if String.eqb ?a ?b then _ else _] =>
             destruct (String.eqb a b)
         end; split; intros H; done.
Qed.

End ServiceProperties.

(** * Properties of the repository of results *)

Section DetectionStoreProperties.
Context `{DT : DatetimeLib}.

Lemma result_bind_Ok {A B} (a : A) (k : A -> result B) : (Ok a ≫= k) = k a.
Proof. reflexivity. Qed.

Lemma damage_to_stored_raises (d : Damage) :
  damage_to_stored d
    = Raise (Exn AttributeError "'BoundingBox' object has no attribute x1").
Proof. reflexivity. Qed.

Lemma stored_to_damage_raises (sd : StoredDamage) :
  stored_to_damage sd
    = Raise (Exn TypeError "__init__() got an unexpected keyword argument x1").
Proof. reflexivity. Qed.

(** X22.  The repository of results can only hold results without damages:
    saving a result that has a damage raises [AttributeError] (the box is
    read through [x1], which a [BoundingBox] does not have) and stores
    nothing, while a result without damages is stored under its id when the
    write does not fail; and a stored record that lists a damage cannot be
    found by its id. *)
Theorem detection_save_without_damage (exists_ : Path -> bool) (io : option exn)
    (data : gmap string StoredResult) (r : DetectionResult) :
  (r_damages r <> [] ->
   detection_save io data r
     = Raise (Exn AttributeError "'BoundingBox' object has no attribute x1")) /\
  (r_damages r = [] ->
   exists record,
     detection_save None data r = Ok (<[r_id r := record]> data) /\
     sr_id record = r_id r /\ sr_damages record = [] /\
     sr_statistics record = r_statistics r) /\
  (forall data', detection_save io data r = Ok data' ->
                 r_damages r = [] /\ io = None) /\
  (forall result_id record,
     data !! result_id = Some record -> sr_damages record <> [] ->
     detection_find_by_id exists_ data result_id = None).
Proof.
  assert (Hraise : r_damages r <> [] ->
            _detection_to_dict r
            = Raise (Exn AttributeError "'BoundingBox' object has no attribute x1")).
  { intros Hne. unfold _detection_to_dict.
    destruct (r_damages r) as [|d ds]; [done|]. reflexivity. }
  split; [|split; [|split]].
  - intros Hne. unfold detection_save. by rewrite Hraise.
  - intros Hnil. unfold detection_save, _detection_to_dict. rewrite Hnil. simpl.
    eexists. split; [done|]. done.
  - intros data' Hsave. unfold detection_save in Hsave.
    destruct (r_damages r) as [|d ds] eqn:Hd.
    + split; [done|]. destruct (_detection_to_dict r); simpl in Hsave;
        [|discriminate]. by destruct io.
    + rewrite Hraise in Hsave by done. discriminate Hsave.
  - intros result_id record Hstored Hne. unfold detection_find_by_id.
    rewrite Hstored.
    assert (Hread : exists e, _dict_to_detection exists_ record = Raise e).
    { unfold _dict_to_detection.
      destruct (match sv_metadata (sr_video record) with
                | Some md => Some <$> dict_to_metadata md
                | None => Ok None
                end); simpl; [|by eexists].
      destruct (VideoStatus_of_value _); simpl; [|by eexists].
      destruct (fromisoformat (sv_created_at (sr_video record))); simpl;
        [|by eexists].
      destruct (Video_post_init _ _); simpl; [|by eexists].
      destruct (sr_damages record) as [|sd sds]; [done|].
      simpl. by eexists. }
    by destruct Hread as [e ->].
Qed.

(** X23.  A result without damages, about a readable video, with valid
    statistics, threshold and model version, that was saved can be found by
    its id.  Its own fields come back as they were.  Its video comes back
    with its id, name, path, status, creation date and metadata, and without
    its damages, update date, error message, processing date and processing
    time (the ['video'] entry of the record has no key for them, and the
    [Video] is rebuilt with their defaults): the result read back is the one
    that was saved exactly when those five fields of its video were
    empty. *)
Theorem detection_round_trip (exists_ : Path -> bool)
    (data : gmap string StoredResult) (r : DetectionResult)
    (Hnodamage : r_damages r = [])
    (Hvideo : readable exists_ (r_video r))
    (Hstatistics : DetectionStatistics_post_init (r_statistics r)
                   = Ok (r_statistics r))
    (Hresult : DetectionResult_post_init r = Ok r)
    (Hpaths : r_output_path r <> Some "" /\ r_annotated_video_path r <> Some "") :
  exists data' r',
    detection_save None data r = Ok data' /\
    detection_find_by_id exists_ data' (r_id r) = Some r' /\
    r' = result_as_stored r /\
    (r_id r' = r_id r /\ r_damages r' = r_damages r /\
     r_statistics r' = r_statistics r /\ r_created_at r' = r_created_at r /\
     r_model_version r' = r_model_version r /\
     r_confidence_threshold r' = r_confidence_threshold r /\
     r_output_path r' = r_output_path r /\
     r_annotated_video_path r' = r_annotated_video_path r) /\
    (v_id (r_video r') = v_id (r_video r) /\
     v_name (r_video r') = v_name (r_video r) /\
     v_file_path (r_video r') = v_file_path (r_video r) /\
     v_status (r_video r') = v_status (r_video r) /\
     v_created_at (r_video r') = v_created_at (r_video r) /\
     v_metadata (r_video r') = v_metadata (r_video r)) /\
    (v_damages (r_video r') = [] /\ v_updated_at (r_video r') = None /\
     v_error_message (r_video r') = None /\ v_processed_at (r_video r') = None /\
     v_processing_time (r_video r') = None) /\
    (r' = r <->
     v_damages (r_video r) = [] /\ v_updated_at (r_video r) = None /\
     v_error_message (r_video r) = None /\ v_processed_at (r_video r) = None /\
     v_processing_time (r_video r) = None) /\
    (forall other, other <> r_id r -> data' !! other = data !! other).
Proof.
  destruct Hvideo as [Hfile Hmeta]. destruct Hpaths as [Hout Hann].
  eexists. exists (result_as_stored r).
  split; [|split; [|split; [done|split; [done|split; [done|split;
    [done|split]]]]]].
  - unfold detection_save, _detection_to_dict. rewrite Hnodamage. simpl.
    reflexivity.
  - unfold detection_find_by_id. rewrite lookup_insert_eq.
    unfold _dict_to_detection.
    cbn [sr_video sv_metadata sv_status sv_created_at sv_id sv_file_path sv_name
         sr_damages sr_statistics sr_created_at sr_id sr_model_version
         sr_confidence_threshold sr_output_path sr_annotated_video_path].
    assert (Hmd : match metadata_to_dict <$> v_metadata (r_video r) with
                  | Some md => Some <$> dict_to_metadata md
                  | None => Ok None
                  end = Ok (v_metadata (r_video r))).
    { destruct (v_metadata (r_video r)) as [m|] eqn:Hm; simpl; [|done].
      by rewrite metadata_round_trip, (Hmeta m eq_refl). }
    rewrite Hmd. rewrite ?result_bind_Ok.
    rewrite VideoStatus_token_stable. rewrite ?result_bind_Ok.
    rewrite ?fromisoformat_isoformat. rewrite ?result_bind_Ok.
    assert (Hpost : Video_post_init exists_ (video_as_stored (r_video r))
                    = Ok (video_as_stored (r_video r))).
    { unfold Video_post_init in *.
      change (v_file_path (video_as_stored (r_video r)))
        with (v_file_path (r_video r)).
      repeat match type of Hfile with
             | context [if ?b then _ else _] => destruct b
             end; try discriminate Hfile; done. }
    unfold video_as_stored in Hpost. rewrite Hpost. rewrite ?result_bind_Ok.
    change (mapM stored_to_damage []) with (Ok (@nil Damage)).
    rewrite ?result_bind_Ok.
    rewrite Hstatistics. rewrite ?result_bind_Ok.
    rewrite ?fromisoformat_isoformat. rewrite ?result_bind_Ok.
    assert (Hentry : forall p : option Path, p <> Some "" ->
              entry_path (path_entry p) = p).
    { intros [p|] Hp; simpl; [|done].
      destruct (String.eqb_spec p ""); [by subst | done]. }
    rewrite ?result_bind_Ok. rewrite (Hentry _ Hout), (Hentry _ Hann).
    unfold DetectionResult_post_init in *.
    cbn [r_confidence_threshold r_model_version].
    repeat match type of Hresult with
           | context [if ?b then _ else _] => destruct b
           end; try discriminate Hresult.
    unfold result_as_stored, video_as_stored. by rewrite Hnodamage.
  - clear. destruct r as [id v ds s c mv ct op ap].
    destruct v as [vid vp vn vs vc vm vd vpa vpt ve vu].
    unfold result_as_stored, video_as_stored. simpl. split.
    + intros H. injection H as <- <- <- <- <-. done.
    + intros (-> & -> & -> & -> & ->). done.
  - intros other Hother. by rewrite lookup_insert_ne.
Qed.

Lemma stats_damages_counts (damages : list StoredDamage) (acc : StatsLoop) :
  sum_counts (sl_damages_by_type (foldl stats_damage acc damages))
    = sum_counts (sl_damages_by_type acc) + Z.of_nat (length damages) /\
  sum_counts (sl_damages_by_severity (foldl stats_damage acc damages))
    = sum_counts (sl_damages_by_severity acc) + Z.of_nat (length damages) /\
  sl_total_damages (foldl stats_damage acc damages) = sl_total_damages acc /\
  sl_total_processing_time (foldl stats_damage acc damages)
    = sl_total_processing_time acc.
Proof.
  revert acc. induction damages as [|d damages IH]; intros acc.
  - simpl. repeat split; lia.
  - cbn [foldl]. destruct (IH (stats_damage acc d)) as (-> & -> & -> & ->).
    simpl. rewrite !sum_counts_count_one.
    repeat split; lia.
Qed.

Lemma stats_records_counts (records : list StoredResult) (acc : StatsLoop) :
  sum_counts (sl_damages_by_type acc) = sl_total_damages acc ->
  sum_counts (sl_damages_by_severity acc) = sl_total_damages acc ->
  sum_counts (sl_damages_by_type (foldl stats_record acc records))
    = sl_total_damages (foldl stats_record acc records) /\
  sum_counts (sl_damages_by_severity (foldl stats_record acc records))
    = sl_total_damages (foldl stats_record acc records) /\
  sl_total_damages (foldl stats_record acc records)
    = sl_total_damages acc
      + Z.of_nat (length (concat (sr_damages <$> records))).
Proof.
  revert acc. induction records as [|record records IH]; intros acc Hty Hsev.
  - simpl. repeat split; try done. lia.
  - cbn [foldl fmap list_fmap concat].
    pose proof (stats_damages_counts (sr_damages record)
      (mkStatsLoop (sl_total_damages acc + Z.of_nat (length (sr_damages record)))
         (sl_total_processing_time acc
          + processing_time (sr_statistics record))%Q
         (sl_damages_by_type acc) (sl_damages_by_severity acc)))
      as (H1 & H2 & H3 & _).
    simpl in H1, H2, H3.
    assert (Ha : sum_counts (sl_damages_by_type (stats_record acc record))
                 = sl_total_damages (stats_record acc record))
      by (unfold stats_record; rewrite H1, H3; lia).
    assert (Hb : sum_counts (sl_damages_by_severity (stats_record acc record))
                 = sl_total_damages (stats_record acc record))
      by (unfold stats_record; rewrite H2, H3; lia).
    assert (Hc : sl_total_damages (stats_record acc record)
                 = sl_total_damages acc + Z.of_nat (length (sr_damages record)))
      by (unfold stats_record; exact H3).
    destruct (IH _ Ha Hb) as (I1 & I2 & I3).
    split; [done|]. split; [done|]. rewrite I3, Hc, length_app. lia.
Qed.

(** X24.  In the statistics of the repository of results, the total of
    damages is the number of damages of all stored records, the counts by
    type add up to it and so do the counts by severity; the number of
    detections is the number of records, and with no record every average
    is 0. *)
Theorem detection_statistics_totals (data : gmap string StoredResult) :
  rs_total_detections (detection_get_statistics data) = Z.of_nat (size data) /\
  rs_total_damages (detection_get_statistics data)
    = Z.of_nat (length (concat (sr_damages <$> (snd <$> map_to_list data)))) /\
  sum_counts (rs_damages_by_type (detection_get_statistics data))
    = rs_total_damages (detection_get_statistics data) /\
  sum_counts (rs_damages_by_severity (detection_get_statistics data))
    = rs_total_damages (detection_get_statistics data) /\
  (data = ∅ ->
   rs_total_damages (detection_get_statistics data) = 0 /\
   rs_average_damages_per_detection (detection_get_statistics data) = 0%Q /\
   rs_average_processing_time (detection_get_statistics data) = 0%Q) /\
  (data <> ∅ ->
   (rs_average_damages_per_detection (detection_get_statistics data)
    * inject_Z (rs_total_detections (detection_get_statistics data))
    == inject_Z (rs_total_damages (detection_get_statistics data)))%Q).
Proof.
  unfold detection_get_statistics. simpl.
  assert (Hempty : sum_counts (∅ : gmap string Z) = 0) by apply map_fold_empty.
  destruct (stats_records_counts (snd <$> map_to_list data)
              (mkStatsLoop 0 0%Q ∅ ∅) Hempty Hempty) as (Hty & Hsev & Htot).
  simpl in Htot.
  split; [done|]. split; [done|]. split; [done|]. split; [done|].
  split.
  - intros ->. rewrite map_size_empty. by rewrite map_to_list_empty.
  - intros Hne.
    assert (Hsize : (0 < size data)%nat).
    { destruct (decide (size data = 0%nat)) as [H0|]; [|lia].
      by apply map_size_empty_iff in H0. }
    destruct (Z.ltb_spec 0 (Z.of_nat (size data))); [|lia].
    field. intros H0. unfold Qeq in H0. simpl in H0. lia.
Qed.

End DetectionStoreProperties.

(** * The further properties on the sample inputs *)

Lemma BoundingBox_valid_geometry_witness :
  BoundingBox_post_init sample_box = Ok sample_box /\ (0 < area sample_box)%Q.
Proof.
  split; [reflexivity|].
  exact (proj1 (proj2 (proj2 (proj2 (proj2 (proj2
    (BoundingBox_valid_geometry sample_box sample_box eq_refl))))))).
Defined.

Lemma high_confidence_is_range_witness :
  high_confidence_damages sample_result
    = get_damages_by_confidence_range sample_result (1 # 2) 1.
Proof.
  apply (high_confidence_is_range sample_result).
  repeat constructor; unfold Qle; simpl; lia.
Defined.

Lemma to_dict_raises_with_metadata_witness :
  DetectionResult_to_dict sample_result
    = Raise (Exn AttributeError
               "'VideoMetadata' object has no attribute total_frames").
Proof.
  exact (proj1 (proj2 (to_dict_raises_with_metadata sample_result
                         sample_metadata eq_refl))).
Defined.

Lemma detect_damages_in_video_no_damage_witness :
  exists r,
    detect_damages_in_video sample_detector (Some (30%Q, ["f0"; "f1"; "f2"]))
      2 7%nat "r1" sample_video (1 # 2) = Ok r /\
    r_damages r = [] /\ total_frames_processed (r_statistics r) = 3.
Proof.
  assert (Hrun : exists r,
            detect_damages_in_video sample_detector
              (Some (30%Q, ["f0"; "f1"; "f2"])) 2 7%nat "r1" sample_video (1 # 2)
            = Ok r)
    by (vm_compute; eexists; reflexivity).
  destruct Hrun as [r Hrun]. exists r. split; [exact Hrun|].
  pose proof (detect_damages_in_video_no_damage _ _ _ _ _ _ _ _ r Hrun)
    as (H1 & _ & _ & _ & _ & _ & H7 & _).
  split; [exact H1 | exact H7].
Defined.

Lemma sample_failed_video_readable : readable (fun _ => true) sample_failed_video.
Proof.
  split; [reflexivity|]. intros m [= <-]. reflexivity.
Defined.

Lemma save_then_find_by_id_witness :
  exists data',
    save None ∅ sample_failed_video = Ok data' /\
    find_by_id (fun _ => true) data' "v2" = Some (reloaded sample_failed_video).
Proof.
  destruct (save_then_find_by_id (fun _ => true) ∅ sample_failed_video
              sample_failed_video_readable)
    as (data' & Hsave & Hfind & _).
  - repeat constructor. by eexists.
  - exists data'. split; [exact Hsave | exact Hfind].
Defined.

Lemma unreadable_record_hides_all_witness :
  find_all (fun _ => false) {["v1" := sample_record]} = [].
Proof.
  refine (proj1 (unreadable_record_hides_all (fun _ => false)
                   {["v1" := sample_record]} "v1" sample_record
                   (Exn FileNotFoundError "El archivo /videos/a.mp4 no existe")
                   _ _)).
  - vm_compute. reflexivity.
  - vm_compute. reflexivity.
Defined.

Lemma find_by_status_sound_witness :
  reloaded sample_video
    ∈ find_by_status (fun _ => true) {["v1" := sample_record]}
        (StatusToken "processing") /\
  v_status (reloaded sample_video) = PROCESSING.
Proof.
  assert (Hfound : reloaded sample_video
            ∈ find_by_status (fun _ => true) {["v1" := sample_record]}
                (StatusToken (VideoStatus_value PROCESSING))).
  { assert (Hlist : find_by_status (fun _ => true) {["v1" := sample_record]}
                      (StatusToken (VideoStatus_value PROCESSING))
                    = [reloaded sample_video]) by (vm_compute; reflexivity).
    rewrite Hlist. apply list_elem_of_here. }
  split; [exact Hfound|].
  exact (proj1 (find_by_status_sound _ _ _ _ Hfound)).
Defined.

Lemma execute_float_stamped_damages_witness :
  run_result (execute env_float_stamped empty_stores "/videos/a.mp4" (1 # 2) true)
    = Raise (Exn AttributeError "'float' object has no attribute 'isoformat'").
Proof.
  refine (proj1 (execute_float_stamped_damages env_float_stamped empty_stores
                   "/videos/a.mp4" (1 # 2) true sample_video
                   {["v1" := sample_record]} sample_result
                   (set_annotated_video_path "/videos/output/annotated_a.mp4"
                      sample_result) _ _ _ _ _ _)).
  - vm_compute; reflexivity.
  - vm_compute; reflexivity.
  - reflexivity.
  - reflexivity.
  - reflexivity.
  - constructor. by eexists.
Defined.

Lemma unsupported_by_entity_witness :
  admission sample_settings sample_fs ∅ "/videos/c.wmv"
    = Ok (<["/videos/c.wmv" := true]> ∅) /\
  run_video (execute env_yolo empty_stores "/videos/c.wmv" (1 # 2) true) = None.
Proof.
  destruct (unsupported_by_entity sample_settings sample_fs ∅ "/videos/c.wmv")
    as (Hadm & _ & Hexec).
  - reflexivity.
  - reflexivity.
  - reflexivity.
  - vm_compute. discriminate.
  - reflexivity.
  - split; [exact Hadm|].
    exact (proj2 (proj2 (Hexec env_yolo empty_stores (1 # 2) true))).
Defined.

Lemma execute_returns_witness :
  run_result (execute env_datetime_stamped empty_stores "/videos/a.mp4" (1 # 2) true)
    = Ok (set_annotated_video_path "/videos/output/annotated_a.mp4"
            sample_stamped_result).
Proof.
  refine (proj1 (execute_returns env_datetime_stamped empty_stores
                   "/videos/a.mp4" (1 # 2) true sample_video
                   sample_stamped_result _ _ _ _ _ _ _)).
  - vm_compute; reflexivity.
  - repeat split.
  - reflexivity.
  - reflexivity.
  - reflexivity.
  - repeat constructor. by eexists.
Defined.

Lemma sample_store_keyed : store_keyed ({["v1" := sample_record]} : gmap string VideoDict).
Proof.
  intros video_id record Hlookup.
  apply lookup_singleton_Some in Hlookup as [<- <-]. reflexivity.
Defined.

Lemma cancel_processing_once_witness :
  exists data',
    cancel_processing (fun _ => true) None {["v1" := sample_record]} "v1"
      = (Ok true, data') /\
    get_processing_status (fun _ => true) data' "v1" = Some "cancelled".
Proof.
  destruct (cancel_processing_once (fun _ => true) {["v1" := sample_record]}
              "v1" sample_record (reloaded sample_video) sample_store_keyed)
    as [(data' & Hcancel & Hstatus & _) _].
  - vm_compute. reflexivity.
  - vm_compute. reflexivity.
  - reflexivity.
  - exists data'. split; [exact Hcancel | exact Hstatus].
Defined.

Lemma execute_never_renders_witness :
  execute (with_renderer env_yolo (fun _ => Ok tt) (fun _ _ p => Ok p))
          empty_stores "/videos/a.mp4" (1 # 2) true
    = execute env_yolo empty_stores "/videos/a.mp4" (1 # 2) true.
Proof.
  exact (proj1 (execute_never_renders env_yolo sample_detector sample_capture
                  2 7%nat "r1" eq_refl empty_stores "/videos/a.mp4" (1 # 2) true)
               (fun _ => Ok tt) (fun _ _ p => Ok p)).
Defined.

Lemma submission_restores_admission_witness :
  process_single_video sample_settings sample_fs (fun pv => (Cancelled, pv))
      {["/videos/a.mp4" := true]} "/videos/b.mp4"
    = (Ran Cancelled, {["/videos/a.mp4" := true]}).
Proof.
  refine (proj1 (submission_restores_admission sample_settings sample_fs
                   (fun pv => (Cancelled, pv)) {["/videos/a.mp4" := true]}
                   (<["/videos/b.mp4" := true]> {["/videos/a.mp4" := true]})
                   "/videos/b.mp4" _) _).
  - vm_compute. reflexivity.
  - reflexivity.
Defined.

Lemma capacity_not_enforced_witness :
  exists admitted,
    admission sample_settings sample_fs {["/videos/a.mp4" := true]} "/videos/b.mp4"
      = Ok admitted /\
    qs_available_slots (get_processing_queue_status 1 admitted) < 0.
Proof.
  destruct (capacity_not_enforced sample_settings sample_fs 1
              {["/videos/a.mp4" := true]} "/videos/b.mp4")
    as (admitted & Hadm & _ & Hneg).
  - reflexivity.
  - reflexivity.
  - reflexivity.
  - vm_compute. discriminate.
  - exists admitted. split; [exact Hadm|]. apply Hneg.
    rewrite map_size_singleton. lia.
Defined.

Lemma extract_metadata_valid_witness :
  exists m,
    OpenCV_extract_metadata (fun _ => true) (fun _ => Ok sample_capture_props)
      (fun _ => 1000) "/videos/a.mp4" = Ok m /\
    (md_duration m * md_fps m == inject_Z (md_frame_count m))%Q.
Proof.
  assert (Hm : exists m,
            OpenCV_extract_metadata (fun _ => true)
              (fun _ => Ok sample_capture_props) (fun _ => 1000) "/videos/a.mp4"
            = Ok m)
    by (vm_compute; eexists; reflexivity).
  destruct Hm as [m Hm]. exists m. split; [exact Hm|].
  pose proof (extract_metadata_valid _ _ _ _ m Hm)
    as (_ & _ & _ & _ & _ & _ & _ & _ & _ & Hd & _).
  exact Hd.
Defined.

Lemma detection_round_trip_witness :
  exists data' r',
    detection_save None ∅ sample_failed_result = Ok data' /\
    detection_find_by_id (fun _ => true) data' "r4" = Some r' /\
    r_statistics r' = r_statistics sample_failed_result /\
    v_damages (r_video sample_failed_result) <> [] /\
    v_damages (r_video r') = [] /\ v_error_message (r_video r') = None /\
    r' <> sample_failed_result.
Proof.
  destruct (detection_round_trip (fun _ => true) ∅ sample_failed_result)
    as (data' & r' & Hsave & Hfind & _ & Hown & _ & Hlost & Hsame & _).
  - reflexivity.
  - split; [reflexivity|]. intros m [= <-]. reflexivity.
  - reflexivity.
  - reflexivity.
  - split; discriminate.
  - exists data', r'. split; [exact Hsave|]. split; [exact Hfind|].
    split; [exact (proj1 (proj2 (proj2 Hown)))|].
    split; [discriminate|].
    split; [exact (proj1 Hlost)|].
    split; [exact (proj1 (proj2 (proj2 Hlost)))|].
    intros Heq. apply Hsame in Heq as [Hd _]. discriminate Hd.
Defined.
